(** * async-kinesis: connection life cycle and shard synchronisation

    A shallow embedding of [kinesis/base.py] (class [Base]): the startup
    sequence [start], the connection entry point [get_conn], the reconnect
    procedure [_get_reconn_helper], [_create_stream], and the shard tracker
    [sync_shards] with its helper [set_shard_sync_state].

    A coroutine is a function from worlds to an outcome and a world, run by
    one caller at a time.  A world holds the fields of the instance, the
    state of the subclass, the number of calls made so far to the clock and
    to the service, and the trace of what an observer has seen.  Everything
    the class cannot see from the inside is supplied from outside:
    - the stream service and the clock are oracles ([Env]) that answer the
      n-th call of each kind;
    - the methods a subclass must provide ([close], [_spilt_shards],
      [_merge_shards]) are a record of functions ([Subclass]) over the
      fields of the instance and the state of the subclass.
    The two [while True] loops take a budget of iterations.

    Time stamps are rationals in seconds.  The source has floats: the
    cooldown test of [get_conn], whose threshold is itself of interest, is
    made as the interpreter makes it, on the difference of the two time
    stamps rounded to double precision ([float_sub]); the refresh test of
    [sync_shards] is made on the exact difference.  Python's unbounded
    [int] is [Z].

    The file has three parts: the model with the vocabulary in which runs
    are observed, a handful of concrete scenarios, and the properties. *)

From Stdlib Require Import ZArith QArith String List Bool Lia.
Import ListNotations.

Local Open Scope string_scope.
Local Open Scope list_scope.
Local Open Scope Z_scope.

Set Implicit Arguments.

(** ** Exceptions *)

(** The exception classes that the module raises or lets through.
    [CancelledError] is not a subclass of [Exception] (Python 3.8 and
    later), every other one is. *)
Inductive Exn : Type :=
| StreamDoesNotExist
| StreamStatusInvalid (status : string)
| StreamShardLimit
| StreamExists
| MinShardCount                 (* Exception("Min shard count is one") *)
| ClientError (code : string)   (* botocore ClientError, by error code *)
| ConnectionError
| UnboundLocalError
| AttributeError
| RuntimeError
| NotImplementedError
| CancelledError
| OtherError (name : string).   (* any other exception of the transport *)

Definition is_StreamDoesNotExist (e : Exn) : bool :=
  match e with StreamDoesNotExist => true | _ => false end.

Definition is_Exception (e : Exn) : bool :=
  match e with CancelledError => false | _ => true end.

(** ** Rational comparisons *)

(** [a > b] on time stamps. *)
Definition Qgtb (a b : Q) : bool := negb (Qle_bool a b).

(** ** Double precision

    A Python [float] is an IEEE 754 double: a rational [m * 2^e] with
    [|m| < 2^53].  The difference of two floats is the double nearest to
    their exact difference, ties going to the even mantissa.  (The range of
    exponents is left unbounded: clock readings and their differences are
    far from overflow and underflow.) *)

(** [n / d] rounded to the nearest integer, ties to even, for [d > 0]. *)
Definition round_half_even (n d : Z) : Z :=
  let q := n / d in
  match 2 * (n mod d) ?= d with
  | Lt => q
  | Gt => q + 1
  | Eq => if Z.even q then q else q + 1
  end.

(** The exponent [e] with [2^e <= n / d < 2^(e+1)], for [n, d > 0]. *)
Definition floor_log2 (n d : Z) : Z :=
  let e := Z.log2 n - Z.log2 d in
  if (if 0 <=? e then d * 2 ^ e <=? n else d <=? n * 2 ^ (- e))
  then e else e - 1.

(** The double nearest to [x]: [x] is scaled by the power of two [2^s] that
    brings it into [[2^52, 2^53)], rounded to an integer and scaled back. *)
Definition round_double (x : Q) : Q :=
  let n := Z.abs (Qnum x) in
  let d := Zpos (Qden x) in
  if n =? 0 then 0%Q
  else
    let s := 52 - floor_log2 n d in
    if 0 <=? s
    then (Z.sgn (Qnum x) * round_half_even (n * 2 ^ s) d) # Z.to_pos (2 ^ s)
    else inject_Z
           (Z.sgn (Qnum x) * round_half_even n (d * 2 ^ (- s)) * 2 ^ (- s)).

(** [a - b] on floats. *)
Definition float_sub (a b : Q) : Q := round_double (a - b).

(** The distance from 120 to the next double: [2^-46]. *)
Definition ulp_120 : Q := 1 # 70368744177664.

(** ** The monad of coroutines

    A coroutine run to its end returns, raises, waits for ever on a lock
    ([Blocked]) or is still looping when the budget of loop iterations is
    used up ([OutOfFuel]). *)
Inductive Result (A : Type) : Type :=
| Return (a : A)
| Raise (e : Exn)
| Blocked
| OutOfFuel.

Arguments Raise {A} e.
Arguments Blocked {A}.
Arguments OutOfFuel {A}.

Definition M (W A : Type) : Type := W -> Result A * W.

Definition ret {W A} (a : A) : M W A := fun w => (Return a, w).

Definition bind {W A B} (m : M W A) (k : A -> M W B) : M W B :=
  fun w =>
    match m w with
    | (Return a, w') => k a w'
    | (Raise e, w') => (Raise e, w')
    | (Blocked, w') => (Blocked, w')
    | (OutOfFuel, w') => (OutOfFuel, w')
    end.

Definition raise {W A} (e : Exn) : M W A := fun w => (Raise e, w).

(** [try: m except <any>: h e] *)
Definition try_except {W A} (m : M W A) (h : Exn -> M W A) : M W A :=
  fun w =>
    match m w with
    | (Raise e, w') => h e w'
    | r => r
    end.

Definition out_of_fuel {W A} : M W A := fun w => (OutOfFuel, w).

Declare Scope coro_scope.
Delimit Scope coro_scope with coro.
Notation "x <- m ;; k" := (bind m (fun x => k))
  (at level 61, m at next level, right associativity) : coro_scope.
Notation "m ;; k" := (bind m (fun _ => k))
  (at level 61, right associativity) : coro_scope.
Local Open Scope coro_scope.

(** ** The instance and its world *)

Section Kinesis.

(** A shard descriptor as the service returns it; the module never looks
    inside one. *)
Variable Shard : Type.

(** The state a subclass keeps besides the fields of [Base]. *)
Variable Sub : Type.

(** Connection states and shard states are strings in the source. *)
Definition RECONNECT := "RECONNECT".
Definition ACTIVE := "ACTIVE".
Definition WAIT := "WAIT".
Definition INITIALIZE := "INITIALIZE".
Definition SYNCED := "SYNCED".
Definition RESYNC := "RESYNC".

(** The attributes set by [Base.__init__].  A lock is [true] while held;
    [client] is the number of the client handle, if one was built. *)
Record Base : Type := mkBase {
  stream_name : string;
  client : option nat;
  shards : list Shard;
  stream_status : string;
  shards_status : string;
  retry_limit : option Z;
  expo_backoff : option Z;
  expo_backoff_limit : Z;
  skip_describe_stream : bool;
  _conn_lock : bool;
  _reconnect_timeout : Q;
  create_stream : bool;
  create_stream_shards : Z;
  _shards_lock : bool;
  shard_refresh_monotonic : Q;
  shard_refresh_timer : Q
}.

Definition set_client (v : option nat) (b : Base) : Base :=
  mkBase (stream_name b) v (shards b) (stream_status b) (shards_status b)
    (retry_limit b) (expo_backoff b) (expo_backoff_limit b)
    (skip_describe_stream b) (_conn_lock b) (_reconnect_timeout b)
    (create_stream b) (create_stream_shards b) (_shards_lock b)
    (shard_refresh_monotonic b) (shard_refresh_timer b).

Definition set_shards (v : list Shard) (b : Base) : Base :=
  mkBase (stream_name b) (client b) v (stream_status b) (shards_status b)
    (retry_limit b) (expo_backoff b) (expo_backoff_limit b)
    (skip_describe_stream b) (_conn_lock b) (_reconnect_timeout b)
    (create_stream b) (create_stream_shards b) (_shards_lock b)
    (shard_refresh_monotonic b) (shard_refresh_timer b).

Definition set_stream_status (v : string) (b : Base) : Base :=
  mkBase (stream_name b) (client b) (shards b) v (shards_status b)
    (retry_limit b) (expo_backoff b) (expo_backoff_limit b)
    (skip_describe_stream b) (_conn_lock b) (_reconnect_timeout b)
    (create_stream b) (create_stream_shards b) (_shards_lock b)
    (shard_refresh_monotonic b) (shard_refresh_timer b).

Definition set_shards_status (v : string) (b : Base) : Base :=
  mkBase (stream_name b) (client b) (shards b) (stream_status b) v
    (retry_limit b) (expo_backoff b) (expo_backoff_limit b)
    (skip_describe_stream b) (_conn_lock b) (_reconnect_timeout b)
    (create_stream b) (create_stream_shards b) (_shards_lock b)
    (shard_refresh_monotonic b) (shard_refresh_timer b).

Definition set_skip_describe_stream (v : bool) (b : Base) : Base :=
  mkBase (stream_name b) (client b) (shards b) (stream_status b)
    (shards_status b) (retry_limit b) (expo_backoff b) (expo_backoff_limit b)
    v (_conn_lock b) (_reconnect_timeout b)
    (create_stream b) (create_stream_shards b) (_shards_lock b)
    (shard_refresh_monotonic b) (shard_refresh_timer b).

Definition set_conn_lock (v : bool) (b : Base) : Base :=
  mkBase (stream_name b) (client b) (shards b) (stream_status b)
    (shards_status b) (retry_limit b) (expo_backoff b) (expo_backoff_limit b)
    (skip_describe_stream b) v (_reconnect_timeout b)
    (create_stream b) (create_stream_shards b) (_shards_lock b)
    (shard_refresh_monotonic b) (shard_refresh_timer b).

Definition set_reconnect_timeout (v : Q) (b : Base) : Base :=
  mkBase (stream_name b) (client b) (shards b) (stream_status b)
    (shards_status b) (retry_limit b) (expo_backoff b) (expo_backoff_limit b)
    (skip_describe_stream b) (_conn_lock b) v
    (create_stream b) (create_stream_shards b) (_shards_lock b)
    (shard_refresh_monotonic b) (shard_refresh_timer b).

Definition set_create_stream (v : bool) (b : Base) : Base :=
  mkBase (stream_name b) (client b) (shards b) (stream_status b)
    (shards_status b) (retry_limit b) (expo_backoff b) (expo_backoff_limit b)
    (skip_describe_stream b) (_conn_lock b) (_reconnect_timeout b)
    v (create_stream_shards b) (_shards_lock b)
    (shard_refresh_monotonic b) (shard_refresh_timer b).

Definition set_shards_lock (v : bool) (b : Base) : Base :=
  mkBase (stream_name b) (client b) (shards b) (stream_status b)
    (shards_status b) (retry_limit b) (expo_backoff b) (expo_backoff_limit b)
    (skip_describe_stream b) (_conn_lock b) (_reconnect_timeout b)
    (create_stream b) (create_stream_shards b) v
    (shard_refresh_monotonic b) (shard_refresh_timer b).

Definition set_shard_refresh_monotonic (v : Q) (b : Base) : Base :=
  mkBase (stream_name b) (client b) (shards b) (stream_status b)
    (shards_status b) (retry_limit b) (expo_backoff b) (expo_backoff_limit b)
    (skip_describe_stream b) (_conn_lock b) (_reconnect_timeout b)
    (create_stream b) (create_stream_shards b) (_shards_lock b)
    v (shard_refresh_timer b).

(** What [describe_stream] answers: a description (status and shards) or an
    exception.  [CancelledError] stands for the call being cancelled, by the
    60 second timeout of [start] or from outside. *)
Inductive DescribeOutcome : Type :=
| Described (StreamStatus : string) (Shards : list Shard)
| DescribeRaises (e : Exn).

(** The outside world: the k-th reading of [time.monotonic()], the k-th
    answer of [describe_stream] and of [create_stream], whether the
    quarter-second sleep that follows the k-th description is cancelled, and
    what [cm.expired] says when a cancellation has ended the polling after
    k descriptions.  A cancellation comes from the startup timeout or from
    outside; [cm.expired] is set or not, with the cause and with the release
    of [async_timeout] at hand. *)
Record Env : Type := mkEnv {
  monotonic : nat -> Q;
  describe_stream : nat -> DescribeOutcome;
  create_stream_api : nat -> option Exn;
  timeout_in_sleep : nat -> bool;
  cm_expired : nat -> bool
}.

(** The log lines of the module, by call site. *)
Inductive LogMsg : Type :=
| LogCreateStream (n : Z)
| LogSkippingDescribe
| LogCheckingActive
| LogGetConnection (status : string)
| LogInitialized
| LogStreamMissing
| LogInitFailed (e : Exn)
| LogRebuilding (backoff_delay conn_attempts : Z)
| LogReestablished (conn_attempts backoff_delay : Z)
| LogWarning (e : Exn)
| LogShardCount (s : list Shard)
| LogInSync.

(** What an observer of the instance sees, in order. *)
Inductive Event : Type :=
| EvCreateClient
| EvCreateStream (ShardCount : Z)
| EvDescribeStream
| EvBackoffSleep (seconds : Z)   (* asyncio.sleep(backoff_delay) *)
| EvPollSleep (seconds : Q)      (* asyncio.sleep(0.25) in start *)
| EvClose
| EvSplit (s : list Shard)
| EvMerge (s : list Shard)
| EvLog (m : LogMsg).

Record World : Type := mkWorld {
  self : Base;
  sub : Sub;
  n_monotonic : nat;
  n_describe : nat;
  n_create : nat;
  n_client : nat;
  trace : list Event
}.

Definition with_self (b : Base) (w : World) : World :=
  mkWorld b (sub w) (n_monotonic w) (n_describe w) (n_create w)
    (n_client w) (trace w).

Definition with_trace (t : list Event) (w : World) : World :=
  mkWorld (self w) (sub w) (n_monotonic w) (n_describe w) (n_create w)
    (n_client w) t.

Definition get_self : M World Base := fun w => (Return (self w), w).

Definition modify_self (f : Base -> Base) : M World unit :=
  fun w => (Return tt, with_self (f (self w)) w).

Definition emit (e : Event) : M World unit :=
  fun w => (Return tt, with_trace (trace w ++ [e]) w).

Definition log (m : LogMsg) : M World unit := emit (EvLog m).

(** ** The outside world and the subclass *)

Variable env : Env.

(** [time.monotonic()] *)
Definition time_monotonic : M World Q :=
  fun w =>
    (Return (monotonic env (n_monotonic w)),
     mkWorld (self w) (sub w) (S (n_monotonic w)) (n_describe w)
       (n_create w) (n_client w) (trace w)).

(** [await asyncio.sleep(backoff_delay)] of the reconnect loop. *)
Definition sleep (seconds : Z) : M World unit := emit (EvBackoffSleep seconds).

(** [await asyncio.sleep(0.25)] under [timeout(60)]: it may be
    cancelled. *)
Definition sleep_under_timeout : M World unit :=
  emit (EvPollSleep (1 # 4)) ;;
  fun w =>
    if timeout_in_sleep env (n_describe w)
    then (Raise CancelledError, w)
    else (Return tt, w).

(** [await self.client.describe_stream(StreamName=...)] *)
Definition client_describe_stream : M World (string * list Shard) :=
  fun w =>
    match client (self w) with
    | None => (Raise AttributeError, w)
    | Some _ =>
        let w' := mkWorld (self w) (sub w) (n_monotonic w) (S (n_describe w))
                    (n_create w) (n_client w) (trace w ++ [EvDescribeStream]) in
        match describe_stream env (n_describe w) with
        | Described st sh => (Return (st, sh), w')
        | DescribeRaises e => (Raise e, w')
        end
    end.

(** [await self.client.create_stream(StreamName=..., ShardCount=n)] *)
Definition client_create_stream (n : Z) : M World unit :=
  fun w =>
    match client (self w) with
    | None => (Raise AttributeError, w)
    | Some _ =>
        let w' := mkWorld (self w) (sub w) (n_monotonic w) (n_describe w)
                    (S (n_create w)) (n_client w)
                    (trace w ++ [EvCreateStream n]) in
        match create_stream_api env (n_create w) with
        | None => (Return tt, w')
        | Some e => (Raise e, w')
        end
    end.

(** A method of the subclass: it may change the fields of the instance and
    its own state, and it may raise. *)
Definition Method : Type := Base -> Sub -> Base * Sub * option Exn.

Record Subclass : Type := mkSubclass {
  close_impl : Method;
  split_impl : list Shard -> Method;
  merge_impl : list Shard -> Method
}.

(** The bodies of [Base] itself: [close] raises [NotImplementedError], the
    two handlers are [pass]. *)
Definition Base_methods : Subclass :=
  mkSubclass (fun b s => (b, s, Some NotImplementedError))
             (fun _ b s => (b, s, None))
             (fun _ b s => (b, s, None)).

Variable cls : Subclass.

Definition call_method (f : Method) : M World unit :=
  fun w =>
    match f (self w) (sub w) with
    | (b, s, r) =>
        let w' := mkWorld b s (n_monotonic w) (n_describe w) (n_create w)
                    (n_client w) (trace w) in
        match r with
        | None => (Return tt, w')
        | Some e => (Raise e, w')
        end
    end.

Definition close : M World unit :=
  emit EvClose ;; call_method (close_impl cls).

Definition _spilt_shards (s : list Shard) : M World unit :=
  emit (EvSplit s) ;; call_method (split_impl cls s).

Definition _merge_shards (s : list Shard) : M World unit :=
  emit (EvMerge s) ;; call_method (merge_impl cls s).

(** ** Locks *)

(** Leaving [async with self._conn_lock]: the lock is released whether the
    body returned or raised; releasing a lock that is not held raises
    [RuntimeError]. *)
Definition conn_lock_exit {A} (r : Result A * World) : Result A * World :=
  match r with
  | (Return _, w') | (Raise _, w') =>
      if _conn_lock (self w')
      then (fst r, with_self (set_conn_lock false (self w')) w')
      else (Raise RuntimeError, w')
  | _ => r
  end.

(** [async with self._conn_lock: body] *)
Definition with_conn_lock {A} (body : M World A) : M World A :=
  fun w =>
    if _conn_lock (self w) then (Blocked, w)
    else conn_lock_exit (body (with_self (set_conn_lock true (self w)) w)).

(** [await self._shards_lock.acquire()] *)
Definition acquire_shards_lock : M World unit :=
  fun w =>
    if _shards_lock (self w) then (Blocked, w)
    else (Return tt, with_self (set_shards_lock true (self w)) w).

(** [self._shards_lock.release()] *)
Definition release_shards_lock : M World unit :=
  fun w =>
    if _shards_lock (self w)
    then (Return tt, with_self (set_shards_lock false (self w)) w)
    else (Raise RuntimeError, w).

(** ** The methods of [Base] *)

(** Building the client of the service is taken to succeed; the handle is
    numbered.  (A [create_client] that raises, which would leave
    [self.client] as it was, is outside the model: nothing below is said of
    such a run.) *)
Definition get_client : M World unit :=
  emit EvCreateClient ;;
  fun w =>
    (Return tt,
     mkWorld (set_client (Some (n_client w)) (self w)) (sub w)
       (n_monotonic w) (n_describe w) (n_create w) (S (n_client w))
       (trace w)).

Definition get_stream_description : M World (string * list Shard) :=
  try_except client_describe_stream
    (fun err =>
       match err with
       | ClientError code =>
           if (code =? "ResourceNotFoundException")%string
           then raise StreamDoesNotExist
           else raise err
       | _ => raise err
       end).

Definition _create_stream (ignore_exists : bool) : M World unit :=
  b <- get_self ;;
  log (LogCreateStream (create_stream_shards b)) ;;
  if create_stream_shards b <? 1 then raise MinShardCount
  else
    try_except (client_create_stream (create_stream_shards b))
      (fun err =>
         match err with
         | ClientError code =>
             if (code =? "ResourceInUseException")%string then
               if negb ignore_exists then raise StreamExists else ret tt
             else if (code =? "LimitExceededException")%string then
               raise StreamShardLimit
             else raise err
         | _ => raise err
         end).

(** [cm.expired], read once a cancellation has ended the polling. *)
Definition read_cm_expired : M World bool :=
  fun w => (Return (cm_expired env (n_describe w)), w).

(** What is left of [start] once a cancellation has ended the polling:
    [except CancelledError: pass], the [async with] block is left, then
    [if cm.expired: raise StreamStatusInvalid(... stream_status)], where the
    local [stream_status] is unbound if no description came back yet.  With
    [cm.expired] not set, [start] returns. *)
Definition expired (stream_status : option string) : M World unit :=
  cm_expired <- read_cm_expired ;;
  if cm_expired then
    match stream_status with
    | Some s => raise (StreamStatusInvalid s)
    | None => raise UnboundLocalError
    end
  else ret tt.

(** One [await] inside the [try] under [timeout(60)], and the rest [k] of
    the polling: a [CancelledError] raised by the [await] is caught, and
    [start] goes on with [expired]; any other exception leaves [start]. *)
Definition under_timeout {A} (stream_status : option string)
    (m : M World A) (k : A -> M World unit) : M World unit :=
  awaited <- try_except (a <- m ;; ret (Some a))
               (fun e =>
                  match e with
                  | CancelledError => ret None
                  | _ => raise e
                  end) ;;
  match awaited with
  | Some a => k a
  | None => expired stream_status
  end.

(** The [while True] of [start], with the [else] of its [try] (the shard
    list is stored after the [break]) and, after a cancellation, the rest of
    [start].  (After the [break], [cm.expired] is not set: nothing was
    cancelled.) *)
Fixpoint wait_until_active (fuel : nat) (stream_status : option string)
    : M World unit :=
  match fuel with
  | O => out_of_fuel
  | S fuel' =>
      under_timeout stream_status get_stream_description
        (fun stream_info =>
           let stream_status := fst stream_info in
           if (stream_status =? ACTIVE)%string then
             modify_self (set_stream_status stream_status) ;;
             modify_self (set_shards_status INITIALIZE) ;;
             modify_self (set_shards (snd stream_info))
           else if ((stream_status =? "CREATING")
                    || (stream_status =? "UPDATING"))%string
           then
             under_timeout (Some stream_status) sleep_under_timeout
               (fun _ => wait_until_active fuel' (Some stream_status))
           else raise (StreamStatusInvalid stream_status))
  end.

(** [start] after its first statement, [await self.get_client()]. *)
Definition start_after_client (fuel : nat) : M World unit :=
  b <- get_self ;;
  (if create_stream b
   then _create_stream true ;; modify_self (set_create_stream false)
   else ret tt) ;;
  b <- get_self ;;
  (if skip_describe_stream b then log LogSkippingDescribe else ret tt) ;;
  log LogCheckingActive ;;
  wait_until_active fuel None.

Definition start (fuel : nat) : M World unit :=
  get_client ;;
  start_after_client fuel.

(** The delay computed after a failed attempt:
    [if self.expo_backoff: ...]. *)
Definition next_backoff_delay (b : Base) (backoff_delay conn_attempts : Z) : Z :=
  match expo_backoff b with
  | None => backoff_delay
  | Some base =>
      if base =? 0 then backoff_delay
      else
        let d := conn_attempts ^ 2 * base in
        if d >=? expo_backoff_limit b then expo_backoff_limit b else d
  end.

(** The [try] block of the reconnect loop: one attempt. *)
Definition attempt (fuel : nat) (backoff_delay conn_attempts : Z)
    : M World unit :=
  log (LogRebuilding backoff_delay conn_attempts) ;;
  sleep backoff_delay ;;
  start fuel ;;
  log (LogReestablished conn_attempts backoff_delay).

(** Its [except Exception as e] clause; [again] is the next iteration of
    the loop, entered with the new delay and attempt number. *)
Definition on_attempt_failure (again : Z -> Z -> M World unit)
    (backoff_delay conn_attempts : Z) (e : Exn) : M World unit :=
  if negb (is_Exception e) then raise e
  else if is_StreamDoesNotExist e then raise e
  else
    log (LogWarning e) ;;
    let conn_attempts := conn_attempts + 1 in
    b <- get_self ;;
    (match retry_limit b with
     | Some limit =>
         if conn_attempts >=? limit + 1
         then close ;; raise ConnectionError
         else ret tt
     | None => ret tt
     end) ;;
    b <- get_self ;;
    let backoff_delay := next_backoff_delay b backoff_delay conn_attempts in
    close ;;
    again backoff_delay conn_attempts.

(** The [while True] of [_get_reconn_helper]; [n] bounds its iterations,
    [fuel] those of each startup. *)
Fixpoint _get_reconn_loop (n fuel : nat) (backoff_delay conn_attempts : Z)
    : M World unit :=
  match n with
  | O => out_of_fuel
  | S n' =>
      now <- time_monotonic ;;
      modify_self (set_reconnect_timeout now) ;;
      try_except
        (attempt fuel backoff_delay conn_attempts)
        (on_attempt_failure (_get_reconn_loop n' fuel)
           backoff_delay conn_attempts)
  end.

Definition _get_reconn_helper (fuel : nat) : M World unit :=
  modify_self (set_stream_status RECONNECT) ;;
  close ;;
  _get_reconn_loop fuel fuel 5 1.

Definition get_conn (fuel : nat) : M World unit :=
  with_conn_lock
    (b <- get_self ;;
     log (LogGetConnection (stream_status b)) ;;
     if (stream_status b =? INITIALIZE)%string then
       try_except
         (start fuel ;; log LogInitialized)
         (fun e =>
            if is_StreamDoesNotExist e then
              log LogStreamMissing ;; raise e
            else if is_Exception e then
              log (LogInitFailed e) ;; _get_reconn_helper fuel
            else raise e)
     else if (stream_status b =? ACTIVE)%string then
       now <- time_monotonic ;;
       if Qgtb (float_sub now (_reconnect_timeout b)) (inject_Z 120)
       then _get_reconn_helper fuel
       else ret tt
     else ret tt).

Definition set_shard_sync_state : M World unit :=
  modify_self (set_shards_status SYNCED) ;;
  now <- time_monotonic ;;
  modify_self (set_shard_refresh_monotonic now) ;;
  release_shards_lock ;;
  b <- get_self ;;
  log (LogShardCount (shards b)).

Definition sync_shards : M World unit :=
  b <- get_self ;;
  if (shards_status b =? INITIALIZE)%string then
    stream_info <- get_stream_description ;;
    acquire_shards_lock ;;
    _spilt_shards (snd stream_info) ;;
    set_shard_sync_state
  else
    now <- time_monotonic ;;
    if Qgtb (now - shard_refresh_monotonic b) (shard_refresh_timer b)
       && (shards_status b =? SYNCED)%string
    then
      stream_info <- get_stream_description ;;
      if ((fst stream_info =? "UPDATING") || (fst stream_info =? "CREATING"))%string
      then ret tt
      else
        acquire_shards_lock ;;
        modify_self (set_shards_status RESYNC) ;;
        let stream_shards := snd stream_info in
        b <- get_self ;;
        (if (length (snd stream_info) =? length (shards b))%nat
         then log LogInSync
         else if (length (shards b) <? length (snd stream_info))%nat
         then _spilt_shards stream_shards
         else if (length (snd stream_info) <? length (shards b))%nat
         then _merge_shards stream_shards
         else ret tt) ;;
        set_shard_sync_state
    else ret tt.

(** * What is observed of a run

    ** Traces *)

(** Every startup builds one client: the connection attempts of a trace are
    its [EvCreateClient] events. *)
Definition attempts (t : list Event) : nat :=
  length (filter (fun e => match e with EvCreateClient => true | _ => false end) t).

(** The delays of the backoff sleeps of a trace, in order. *)
Definition backoff_sleeps (t : list Event) : list Z :=
  flat_map (fun e => match e with EvBackoffSleep d => [d] | _ => [] end) t.

(** The calls of [close] in a trace. *)
Definition closes (t : list Event) : nat :=
  length (filter (fun e => match e with EvClose => true | _ => false end) t).

(** The handler calls of a trace, in order. *)
Definition handler_calls (t : list Event) : list Event :=
  filter (fun e => match e with EvSplit _ | EvMerge _ => true | _ => false end) t.

(** A trace without its log lines. *)
Definition without_logs (t : list Event) : list Event :=
  filter (fun e => match e with EvLog _ => false | _ => true end) t.

(** ** Assumptions on the subclass and on the service *)

(** [close] leaves a field (or any view [f] of the fields) as it was. *)
Definition close_keeps {X} (f : Base -> X) : Prop :=
  forall b s, f (fst (fst (close_impl cls b s))) = f b.

(** [close] returns normally. *)
Definition close_returns : Prop :=
  forall b s, snd (close_impl cls b s) = None.

(** A handler leaves a field as it was. *)
Definition handlers_keep {X} (f : Base -> X) : Prop :=
  forall l b s,
    f (fst (fst (split_impl cls l b s))) = f b /\
    f (fst (fst (merge_impl cls l b s))) = f b.

(** An answer of [describe_stream] on which a startup surely fails with an
    error that the reconnect loop retries: an error other than "not found"
    (and other than a cancellation), or a status that is neither [ACTIVE]
    nor one to wait on. *)
Definition retryable (o : DescribeOutcome) : bool :=
  match o with
  | Described st _ =>
      negb ((st =? ACTIVE) || (st =? "CREATING") || (st =? "UPDATING"))%string
  | DescribeRaises StreamDoesNotExist => false
  | DescribeRaises CancelledError => false
  | DescribeRaises (ClientError code) =>
      negb (code =? "ResourceNotFoundException")%string
  | DescribeRaises _ => true
  end.

(** The two errors of [_create_stream] that the specification calls
    permanent. *)
Definition create_error (e : Exn) : Prop :=
  e = MinShardCount \/ e = StreamShardLimit.

(** The delay of the backoff sleep before attempt [n] that the
    specification gives for base 5 and ceiling 120. *)
Definition spec_delay (n : nat) : Z := Z.min (Z.of_nat n ^ 2 * 5) 120.

(** ** Worlds along a run *)

(** What [set_shard_sync_state] does to the fields of the instance. *)
Definition synced_at (now : Q) (b : Base) : Base :=
  set_shards_lock false
    (set_shard_refresh_monotonic now (set_shards_status SYNCED b)).

(** The world at the start of an iteration of the reconnect loop, once the
    clock is read and [_reconnect_timeout] is set. *)
Definition stamped (w : World) : World :=
  mkWorld (set_reconnect_timeout (monotonic env (n_monotonic w)) (self w))
    (sub w) (S (n_monotonic w)) (n_describe w) (n_create w) (n_client w)
    (trace w).

(** The world in which the attempt of an iteration calls [start]: the
    line is logged and the backoff sleep is over. *)
Definition slept (backoff_delay conn_attempts : Z) (w : World) : World :=
  with_trace
    ((trace w ++ [EvLog (LogRebuilding backoff_delay conn_attempts)])
       ++ [EvBackoffSleep backoff_delay]) w.

(** The test [conn_attempts >= self.retry_limit + 1] after the failure of
    attempt number [conn_attempts]. *)
Definition limit_reached (b : Base) (conn_attempts : Z) : bool :=
  match retry_limit b with
  | Some limit => conn_attempts + 1 >=? limit + 1
  | None => false
  end.

(** The world in which [get_conn] tests the connection state: the lock is
    taken and the line is logged. *)
Definition entered (w : World) : World :=
  mkWorld (set_conn_lock true (self w)) (sub w) (n_monotonic w)
    (n_describe w) (n_create w) (n_client w)
    (trace w ++ [EvLog (LogGetConnection (stream_status (self w)))]).

(** The world once the connection lock is released. *)
Definition released (w : World) : World :=
  with_self (set_conn_lock false (self w)) w.

(** The world [get_conn] leaves when it finds nothing to do. *)
Definition glanced (w : World) : World :=
  mkWorld (self w) (sub w) (S (n_monotonic w)) (n_describe w) (n_create w)
    (n_client w) (trace w ++ [EvLog (LogGetConnection ACTIVE)]).

(** The world after one more log line. *)
Definition logged (m : LogMsg) (w : World) : World :=
  with_trace (trace w ++ [EvLog m]) w.

(** The world a method of the subclass leaves: its instance and subclass
    state, the call recorded in the trace. *)
Definition after_method (f : Method) (ev : Event) (w : World) : World :=
  mkWorld (fst (fst (f (self w) (sub w)))) (snd (fst (f (self w) (sub w))))
    (n_monotonic w) (n_describe w) (n_create w) (n_client w)
    (trace w ++ [ev]).

Definition method_result (f : Method) (w : World) : Result unit :=
  match snd (f (self w) (sub w)) with
  | None => Return tt
  | Some e => Raise e
  end.

(** The world in which a handler runs during a resync: the description was
    fetched, the lock taken and the state set to [RESYNC]. *)
Definition resyncing (w : World) : World :=
  mkWorld (set_shards_status RESYNC (set_shards_lock true (self w))) (sub w)
    (S (n_monotonic w)) (S (n_describe w)) (n_create w) (n_client w)
    (trace w ++ [EvDescribeStream]).

(** The world in which the split handler runs on the first sync. *)
Definition initializing (w : World) : World :=
  mkWorld (set_shards_lock true (self w)) (sub w)
    (n_monotonic w) (S (n_describe w)) (n_create w) (n_client w)
    (trace w ++ [EvDescribeStream]).

(** The world after one call of [describe_stream]. *)
Definition described (w : World) : World :=
  mkWorld (self w) (sub w) (n_monotonic w) (S (n_describe w)) (n_create w)
    (n_client w) (trace w ++ [EvDescribeStream]).

(** The world [set_shard_sync_state] leaves when the lock is held. *)
Definition synced (w : World) : World :=
  mkWorld (synced_at (monotonic env (n_monotonic w)) (self w)) (sub w)
    (S (n_monotonic w)) (n_describe w) (n_create w) (n_client w)
    (trace w ++ [EvLog (LogShardCount (shards (self w)))]).

(** The handler call of a resync, by shard counts. *)
Definition dispatch (fetched : list Shard) (b : Base) : M World unit :=
  if (length fetched =? length (shards b))%nat then log LogInSync
  else if (length (shards b) <? length fetched)%nat
       then _spilt_shards fetched
       else if (length fetched <? length (shards b))%nat
            then _merge_shards fetched
            else ret tt.

(** ** Frames and views

    [keeps f m]: whatever the outcome of [m], the view [f] of the world is
    the same afterwards. *)
Definition keeps {X A} (f : World -> X) (m : M World A) : Prop :=
  forall w, f (snd (m w)) = f w.

(** What the startup sequence never touches: the settings other than
    [create_stream], the two locks, both time stamps, the subclass state,
    the clock, and the backoff sleeps, [close] calls and handler calls seen
    so far.
    With [a = true] the view also counts the clients built, which only
    [get_client] changes. *)
Definition outside_start (a : bool) (w : World) :=
  (stream_name (self w), skip_describe_stream (self w),
   create_stream_shards (self w), shard_refresh_timer (self w),
   retry_limit (self w), expo_backoff (self w), expo_backoff_limit (self w),
   _conn_lock (self w), _shards_lock (self w),
   _reconnect_timeout (self w), shard_refresh_monotonic (self w),
   sub w, n_monotonic w,
   backoff_sleeps (trace w), closes (trace w), handler_calls (trace w),
   if a then attempts (trace w) else O).

(** [shift v p] sets the flag to [v] and puts [p] in front of the trace.  A
    coroutine that neither reads the flag nor the trace runs the same way in
    the shifted world. *)
Definition shift (v : bool) (p : list Event) (w : World) : World :=
  mkWorld (set_skip_describe_stream v (self w)) (sub w) (n_monotonic w)
    (n_describe w) (n_create w) (n_client w) (p ++ trace w).

Definition commutes {A} (g : World -> World) (m : M World A) : Prop :=
  forall w, m (g w) = (fst (m w), g (snd (m w))).

(** What is compared between two runs: everything but the flag itself and
    the log lines. *)
Definition observation (w : World) :=
  (set_skip_describe_stream false (self w), sub w, n_monotonic w,
   n_describe w, n_create w, n_client w, without_logs (trace w)).

(** Two worlds that differ in the flag and in log lines only. *)
Definition alike (w1 w2 : World) : Prop := observation w1 = observation w2.

(** A coroutine is blind to the flag when, started in two worlds that
    differ in the flag only, it ends with the same outcome and in worlds that
    are alike. *)
Definition flag_blind {A} (m : M World A) : Prop :=
  forall v w,
    fst (m (shift v [] w)) = fst (m (shift false [] w)) /\
    alike (snd (m (shift v [] w))) (snd (m (shift false [] w))).

(** [k] calls of [sync_shards] in a row. *)
Fixpoint sync_shards_times (k : nat) (w : World) : World :=
  match k with
  | O => w
  | S k' => sync_shards_times k' (snd (sync_shards w))
  end.

(** ** More vocabulary *)

(** The quarter-second sleeps of the startup polling in a trace. *)
Definition poll_sleeps (t : list Event) : nat :=
  length (filter (fun e => match e with EvPollSleep _ => true | _ => false end) t).

(** The [describe_stream] calls in a trace. *)
Definition describes (t : list Event) : nat :=
  length (filter (fun e => match e with EvDescribeStream => true | _ => false end) t).

(** The state of the connection and of the shards that [start] sets when
    it finds the stream [ACTIVE]. *)
Definition conn_state (w : World) :=
  (stream_status (self w), shards_status (self w), shards (self w)).

(** A status on which the startup polling waits. *)
Definition waiting (st : string) : bool :=
  ((st =? "CREATING") || (st =? "UPDATING"))%string.

(** The delay of the backoff sleep before attempt [n] as the loop computes
    it, for any base and ceiling: the first delay is the constant 5; later
    ones are [n^2 * base] cut at the ceiling, or stay at 5 when the base is
    absent or zero. *)
Definition code_delay (base : option Z) (ceiling : Z) (n : nat) : Z :=
  match n with
  | O | S O => 5
  | _ =>
      match base with
      | None => 5
      | Some b => if b =? 0 then 5 else Z.min (Z.of_nat n ^ 2 * b) ceiling
      end
  end.

(** What a run of the reconnect loop adds to a trace and to the clock. *)
Definition grown (front : list Z) (w w' : World) : Prop :=
  (exists rest,
     backoff_sleeps (trace w')
     = backoff_sleeps (trace w) ++ front ++ rest) /\
  (length front + attempts (trace w) <= attempts (trace w'))%nat /\
  (closes (trace w) <= closes (trace w'))%nat /\
  (length front + n_monotonic w <= n_monotonic w')%nat.

(** Every cancellation of the polling is one that [cm.expired] reports: the
    startup timeout has fired, under a release of [async_timeout] in which
    [cm.expired] stays set once the block is left. *)
Definition cancellation_reported : Prop :=
  forall k, cm_expired env k = true.

(** [k] calls of [get_conn] in a row. *)
Fixpoint get_conn_times (fuel k : nat) (w : World) : World :=
  match k with
  | O => w
  | S k' => get_conn_times fuel k' (snd (get_conn fuel w))
  end.

(** The side of the instance that belongs to the connection, with the
    local shard list, and the traffic of the connection seen so far. *)
Definition connection_view (b : Base) :=
  (stream_name b, client b, shards b, stream_status b, retry_limit b,
   expo_backoff b, expo_backoff_limit b, skip_describe_stream b,
   _conn_lock b, _reconnect_timeout b, create_stream b,
   create_stream_shards b, shard_refresh_timer b).

Definition connection_traffic (w : World) :=
  (connection_view (self w), n_create w, n_client w,
   attempts (trace w), closes (trace w), backoff_sleeps (trace w)).

End Kinesis.

Arguments LogCreateStream {Shard} n.
Arguments LogSkippingDescribe {Shard}.
Arguments LogCheckingActive {Shard}.
Arguments LogGetConnection {Shard} status.
Arguments LogInitialized {Shard}.
Arguments LogStreamMissing {Shard}.
Arguments LogInitFailed {Shard} e.
Arguments LogRebuilding {Shard} backoff_delay conn_attempts.
Arguments LogReestablished {Shard} conn_attempts backoff_delay.
Arguments LogWarning {Shard} e.
Arguments LogInSync {Shard}.
Arguments EvCreateClient {Shard}.
Arguments EvCreateStream {Shard} ShardCount.
Arguments EvDescribeStream {Shard}.
Arguments EvBackoffSleep {Shard} seconds.
Arguments EvPollSleep {Shard} seconds.
Arguments EvClose {Shard}.
Arguments DescribeRaises {Shard} e.
Arguments get_self {Shard Sub}.
Arguments emit {Shard Sub} e.
Arguments log {Shard Sub} m.
Arguments sleep {Shard Sub} seconds.
Arguments get_client {Shard Sub}.
Arguments acquire_shards_lock {Shard Sub}.
Arguments release_shards_lock {Shard Sub}.
Arguments set_shard_sync_state {Shard Sub} env.
Arguments time_monotonic {Shard Sub} env.
Arguments client_describe_stream {Shard Sub} env.
Arguments client_create_stream {Shard Sub} env n.
Arguments get_stream_description {Shard Sub} env.
Arguments sleep_under_timeout {Shard Sub} env.
Arguments _create_stream {Shard Sub} env ignore_exists.
Arguments wait_until_active {Shard Sub} env fuel stream_status.
Arguments start {Shard Sub} env fuel.
Arguments stamped {Shard Sub} env w.
Arguments synced {Shard Sub} env w.
Arguments slept {Shard Sub} backoff_delay conn_attempts w.
Arguments logged {Shard Sub} m w.
Arguments start_after_client {Shard Sub} env fuel.
Arguments attempt {Shard Sub} env fuel backoff_delay conn_attempts.
Arguments expired {Shard Sub} env stream_status.
Arguments under_timeout {Shard Sub} env {A} stream_status m k.
Arguments read_cm_expired {Shard Sub} env.
Arguments outside_start {Shard} Sub a w.
Arguments shift {Shard} Sub v p w.
Arguments flag_blind {Shard} Sub {A} m.
Arguments cancellation_reported {Shard} env.
Arguments connection_view {Shard} b.
Arguments connection_traffic {Shard Sub} w.

(** * Scenarios

    Concrete streams, subclasses and instances, with shard ids for shards
    and no subclass state. *)

Module Scenario.

(** [close] returns; both handlers store the list they are given. *)
Definition storing : Subclass string unit :=
  mkSubclass (fun b s => (b, s, None))
             (fun l b s => (set_shards l b, s, None))
             (fun l b s => (set_shards l b, s, None)).

(** [close] returns; both handlers raise. *)
Definition failing : Subclass string unit :=
  mkSubclass (fun b s => (b, s, None))
             (fun _ b s => (b, s, Some (OtherError "KeyError")))
             (fun _ b s => (b, s, Some (OtherError "KeyError"))).

(** The clock reads 1000, 2000, 3000, ... seconds. *)
Definition clock (n : nat) : Q := inject_Z (1000 * Z.of_nat (S n)).

Definition service (answer : nat -> DescribeOutcome string)
    (create : nat -> option Exn) : Env string :=
  mkEnv clock answer create (fun _ => false) (fun _ => true).

(** The stream is [ACTIVE] with the given shards. *)
Definition healthy (s : list string) : Env string :=
  service (fun _ => Described "ACTIVE" s) (fun _ => None).

(** The service cannot be reached. *)
Definition unreachable : Env string :=
  service (fun _ => DescribeRaises (OtherError "EndpointConnectionError"))
          (fun _ => None).

(** The service cannot be reached for the first [failures] calls. *)
Definition back_after (failures : nat) (s : list string) : Env string :=
  service (fun n => if (n <? failures)%nat
                    then DescribeRaises (OtherError "EndpointConnectionError")
                    else Described "ACTIVE" s)
          (fun _ => None).

(** There is no such stream. *)
Definition missing : Env string :=
  service (fun _ => DescribeRaises (ClientError "ResourceNotFoundException"))
          (fun _ => None).

(** The account is at its shard limit. *)
Definition at_shard_limit : Env string :=
  service (fun _ => Described "ACTIVE" ["s1"])
          (fun _ => Some (ClientError "LimitExceededException")).

(** An instance of stream "orders" with the defaults of [__init__] for what
    is not given; both time stamps are 0. *)
Definition instance (client : option nat) (stream_status shards_status : string)
    (local : list string) (retry_limit expo_backoff : option Z)
    (create_stream : bool) (create_stream_shards : Z) : Base string :=
  mkBase "orders" client local stream_status shards_status
    retry_limit expo_backoff 120 false false 0
    create_stream create_stream_shards false 0 (inject_Z 900).

Definition world (b : Base string) : World string unit :=
  mkWorld b tt 0 0 0 0 [].

(** A new instance, before its first connection. *)
Definition new (retry_limit expo_backoff : option Z)
    (create_stream : bool) (create_stream_shards : Z) : World string unit :=
  world (instance None INITIALIZE WAIT [] retry_limit expo_backoff
           create_stream create_stream_shards).

(** A connected instance with its shards in sync. *)
Definition connected (local : list string) (retry_limit expo_backoff : option Z)
    : World string unit :=
  world (instance (Some 0%nat) ACTIVE SYNCED local retry_limit expo_backoff
           false 1).

(** A connected instance that has not synced its shards yet. *)
Definition unsynced (local : list string) : World string unit :=
  world (instance (Some 0%nat) ACTIVE INITIALIZE local None None false 1).

(** The stream is still being created when it is described the first
    [polls] times. *)
Definition creating_for (polls : nat) (s : list string) : Env string :=
  service (fun n => if (n <? polls)%nat
                    then Described "CREATING" []
                    else Described "ACTIVE" s)
          (fun _ => None).

(** The stream is being resharded. *)
Definition updating (s : list string) : Env string :=
  service (fun _ => Described "UPDATING" s) (fun _ => None).

(** The startup is cancelled from outside at its first description:
    [cm.expired] is not set. *)
Definition cancelled_from_outside : Env string :=
  mkEnv clock (fun _ => DescribeRaises CancelledError) (fun _ => None)
    (fun _ => false) (fun _ => false).

(** The two floats 120.2 and 0.2: the doubles nearest to these decimals. *)
Definition float_120_2 : Q := 8458323050155213 # 70368744177664.
Definition float_0_2 : Q := 3602879701896397 # 18014398509481984.

(** A healthy stream, the clock stopped at [now]. *)
Definition at_time (now : Q) (s : list string) : Env string :=
  mkEnv (fun _ => now) (fun _ => Described "ACTIVE" s) (fun _ => None)
    (fun _ => false) (fun _ => true).

(** A connected instance whose last reconnect attempt began at [stamp]. *)
Definition connected_since (stamp : Q) (local : list string)
    : World string unit :=
  world (set_reconnect_timeout stamp
           (instance (Some 0%nat) ACTIVE SYNCED local None None false 1)).

(** A connected instance that is asked to create its stream. *)
Definition creating (local : list string) (retry_limit : option Z)
    (create_stream_shards : Z) : World string unit :=
  world (instance (Some 0%nat) ACTIVE SYNCED local retry_limit None
           true create_stream_shards).

End Scenario.

(** * Properties *)

Section Properties.

Variable Shard : Type.
Variable Sub : Type.
Variable env : Env Shard.
Variable cls : Subclass Shard Sub.

Abbreviation World := (World Shard Sub).
Abbreviation Base := (Base Shard).

(** ** Comparisons *)

Lemma Qgtb_true (a b : Q) : Qgtb a b = true <-> (b < a)%Q.
Proof.
  unfold Qgtb. rewrite negb_true_iff.
  split; intro H.
  - apply Qnot_le_lt. intro L. apply Qle_bool_iff in L. congruence.
  - destruct (Qle_bool a b) eqn:E; [|reflexivity].
    apply Qle_bool_iff in E. exfalso. exact (Qlt_not_le _ _ H E).
Qed.

Lemma Qgtb_false (a b : Q) : Qgtb a b = false <-> (a <= b)%Q.
Proof.
  unfold Qgtb. rewrite negb_false_iff. apply Qle_bool_iff.
Qed.

(** ** Rounding *)

Lemma round_half_even_le n d K :
  0 < d -> n <= K * d -> round_half_even n d <= K.
Proof.
  intros Hd Hn. unfold round_half_even.
  pose proof (Z.div_mod n d ltac:(lia)) as E.
  pose proof (Z.mod_pos_bound n d Hd) as B.
  assert (Q : n / d <= K) by (apply Z.div_le_upper_bound; lia).
  destruct (Z.eq_dec (n / d) K) as [Hq | Hq].
  - assert (R : n mod d = 0) by nia.
    rewrite R.
    replace (2 * 0 ?= d) with Lt
      by (symmetry; apply Z.compare_lt_iff; lia).
    lia.
  - destruct (2 * (n mod d) ?= d); [destruct (Z.even (n / d))| |]; lia.
Qed.

Lemma round_half_even_nonneg n d :
  0 < d -> 0 <= n -> 0 <= round_half_even n d.
Proof.
  intros Hd Hn. unfold round_half_even.
  assert (Q : 0 <= n / d) by (apply Z.div_pos; lia).
  destruct (2 * (n mod d) ?= d); [destruct (Z.even (n / d))| |]; lia.
Qed.

Lemma floor_log2_upper n d :
  0 < n -> 0 < d -> n < 128 * d -> floor_log2 n d <= 6.
Proof.
  intros Hn Hd H. unfold floor_log2.
  destruct (Z.log2_spec n Hn) as [N1 N2].
  destruct (Z.log2_spec d Hd) as [D1 D2].
  pose proof (Z.log2_nonneg n) as Ln. pose proof (Z.log2_nonneg d) as Ld.
  assert (E : Z.log2 n - Z.log2 d <= 7).
  { destruct (Z_le_gt_dec (Z.log2 n - Z.log2 d) 7) as [|G]; [assumption|].
    exfalso.
    assert (P : 2 ^ (Z.log2 d + 8) <= 2 ^ Z.log2 n)
      by (apply Z.pow_le_mono_r; lia).
    replace (Z.log2 d + 8) with (Z.succ (Z.log2 d) + 7) in P by lia.
    rewrite Z.pow_add_r in P by lia. change (2 ^ 7) with 128 in P. nia. }
  destruct (Z.eq_dec (Z.log2 n - Z.log2 d) 7) as [E7 | E7].
  - rewrite E7. change (0 <=? 7) with true. cbv iota.
    change (2 ^ 7) with 128.
    replace (d * 128 <=? n) with false by (symmetry; apply Z.leb_gt; lia).
    lia.
  - destruct (if 0 <=? Z.log2 n - Z.log2 d
              then d * 2 ^ (Z.log2 n - Z.log2 d) <=? n
              else d <=? n * 2 ^ (- (Z.log2 n - Z.log2 d))); lia.
Qed.

(** Rounding does not carry a number over 120, which is a double. *)
Lemma round_double_le_120 (x : Q) :
  (x <= inject_Z 120)%Q -> (round_double x <= inject_Z 120)%Q.
Proof.
  intro H. unfold Qle, inject_Z in H. cbn [Qnum Qden] in H.
  unfold round_double.
  destruct (Z.abs (Qnum x) =? 0) eqn:E0;
    [unfold Qle, inject_Z; cbn [Qnum Qden]; lia|].
  apply Z.eqb_neq in E0.
  set (n := Z.abs (Qnum x)) in *. set (d := Zpos (Qden x)) in *.
  assert (Hd : 0 < d) by (unfold d; lia).
  assert (Hn : 0 < n) by (unfold n in *; lia).
  destruct (Z_lt_le_dec (Qnum x) 0) as [Neg | Pos].
  - assert (Sg : Z.sgn (Qnum x) = -1) by (apply Z.sgn_neg; lia).
    rewrite Sg.
    destruct (0 <=? 52 - floor_log2 n d) eqn:Es.
    + apply Z.leb_le in Es.
      assert (Nn : 0 <= n * 2 ^ (52 - floor_log2 n d))
        by (apply Z.mul_nonneg_nonneg; [lia | apply Z.pow_nonneg; lia]).
      pose proof (@round_half_even_nonneg _ _ Hd Nn).
      unfold Qle, inject_Z; cbn [Qnum Qden]. lia.
    + apply Z.leb_gt in Es.
      assert (P : 0 < 2 ^ (- (52 - floor_log2 n d)))
        by (apply Z.pow_pos_nonneg; lia).
      assert (Pd : 0 < d * 2 ^ (- (52 - floor_log2 n d)))
        by (apply Z.mul_pos_pos; assumption).
      assert (Nn : 0 <= n) by lia.
      pose proof (@round_half_even_nonneg _ _ Pd Nn).
      unfold Qle, inject_Z; cbn [Qnum Qden]. nia.
  - assert (Sg : Z.sgn (Qnum x) = 1)
      by (apply Z.sgn_pos; unfold n in *; lia).
    rewrite Sg.
    assert (Nx : n = Qnum x) by (unfold n; lia).
    assert (U : floor_log2 n d <= 6) by (apply floor_log2_upper; lia).
    replace (0 <=? 52 - floor_log2 n d) with true
      by (symmetry; apply Z.leb_le; lia).
    assert (P : 0 < 2 ^ (52 - floor_log2 n d))
      by (apply Z.pow_pos_nonneg; lia).
    assert (B : n * 2 ^ (52 - floor_log2 n d)
                <= 120 * 2 ^ (52 - floor_log2 n d) * d) by nia.
    pose proof (@round_half_even_le _ _ _ Hd B) as R.
    unfold Qle, inject_Z; cbn [Qnum Qden]. rewrite Z2Pos.id by lia. lia.
Qed.

Lemma round_half_even_ge n d K :
  0 < d -> K * d <= n -> K <= round_half_even n d.
Proof.
  intros Hd Hn. unfold round_half_even.
  assert (Q : K <= n / d) by (apply Z.div_le_lower_bound; lia).
  destruct (2 * (n mod d) ?= d); [destruct (Z.even (n / d))| |]; lia.
Qed.

(** [floor_log2] is what its name says, for a quotient of 1 or more. *)
Lemma floor_log2_spec n d :
  0 < d -> d <= n ->
  0 <= floor_log2 n d /\
  d * 2 ^ floor_log2 n d <= n < d * 2 ^ (floor_log2 n d + 1).
Proof.
  intros Hd H. unfold floor_log2.
  assert (Hn : 0 < n) by lia.
  destruct (Z.log2_spec n Hn) as [N1 N2].
  destruct (Z.log2_spec d Hd) as [D1 D2].
  pose proof (Z.log2_nonneg d) as Ld.
  assert (L : Z.log2 d <= Z.log2 n) by (apply Z.log2_le_mono; lia).
  set (e := Z.log2 n - Z.log2 d) in *.
  assert (He : 0 <= e) by (unfold e; lia).
  assert (Pn : 2 ^ Z.succ (Z.log2 n) = 2 ^ Z.log2 d * 2 ^ (e + 1)).
  { rewrite <- Z.pow_add_r by lia. f_equal. unfold e. lia. }
  assert (P0 : 0 < 2 ^ (e + 1)) by (apply Z.pow_pos_nonneg; lia).
  replace (0 <=? e) with true by (symmetry; apply Z.leb_le; lia).
  destruct (d * 2 ^ e <=? n) eqn:T.
  - apply Z.leb_le in T. split; [lia|]. split; [lia|]. nia.
  - apply Z.leb_gt in T.
    assert (E1 : 1 <= e).
    { destruct (Z.eq_dec e 0) as [E0|]; [|lia].
      rewrite E0 in T. change (2 ^ 0) with 1 in T. lia. }
    split; [lia|].
    replace (e - 1 + 1) with e by lia. split; [|lia].
    assert (Pd : 2 ^ Z.log2 n = 2 ^ Z.succ (Z.log2 d) * 2 ^ (e - 1)).
    { rewrite <- Z.pow_add_r by lia. f_equal. unfold e. lia. }
    assert (P1 : 0 < 2 ^ (e - 1)) by (apply Z.pow_pos_nonneg; lia).
    nia.
Qed.

(** Rounding does not carry a number down to 120 from the next double,
    [120 + 2^-46], or from above it. *)
Lemma round_double_gt_120 (x : Q) :
  (inject_Z 120 + ulp_120 <= x)%Q ->
  (inject_Z 120 < round_double x)%Q.
Proof.
  intro H. unfold Qle, Qplus, inject_Z, ulp_120 in H. cbn [Qnum Qden] in H.
  set (d := Zpos (Qden x)) in *.
  assert (Hd : 0 < d) by (unfold d; lia).
  assert (Hx : (120 * 70368744177664 + 1) * d <= Qnum x * 70368744177664)
    by (unfold d; lia).
  clear H.
  assert (Px : 0 < Qnum x) by lia.
  unfold round_double.
  replace (Z.abs (Qnum x)) with (Qnum x) by lia.
  replace (Qnum x =? 0) with false by (symmetry; apply Z.eqb_neq; lia).
  rewrite (Z.sgn_pos _ Px). fold d.
  set (n := Qnum x) in *.
  destruct (@floor_log2_spec n d Hd ltac:(lia)) as (E0 & E1 & E2).
  set (e := floor_log2 n d) in *.
  assert (E6 : 6 <= e).
  { destruct (Z_le_gt_dec 6 e) as [|G]; [assumption|]. exfalso.
    assert (P : 2 ^ (e + 1) <= 2 ^ 6) by (apply Z.pow_le_mono_r; lia).
    change (2 ^ 6) with 64 in P. nia. }
  destruct (0 <=? 52 - e) eqn:Es.
  - apply Z.leb_le in Es.
    assert (Ps : 0 < 2 ^ (52 - e)) by (apply Z.pow_pos_nonneg; lia).
    assert (P52 : 2 ^ e * 2 ^ (52 - e) = 2 ^ 52)
      by (rewrite <- Z.pow_add_r by lia; f_equal; lia).
    unfold Qlt, inject_Z; cbn [Qnum Qden]. rewrite Z2Pos.id by lia.
    destruct (Z.eq_dec e 6) as [-> | Ne].
    + change (2 ^ (52 - 6)) with 70368744177664 in *.
      assert (B : (120 * 70368744177664 + 1) * d <= n * 70368744177664)
        by lia.
      pose proof (@round_half_even_ge _ _ _ Hd B). lia.
    + assert (P7 : 2 ^ 7 <= 2 ^ e) by (apply Z.pow_le_mono_r; lia).
      change (2 ^ 7) with 128 in P7.
      assert (B : 2 ^ 52 * d <= n * 2 ^ (52 - e)) by nia.
      pose proof (@round_half_even_ge _ _ _ Hd B). nia.
  - apply Z.leb_gt in Es.
    assert (Ps : 0 < 2 ^ (- (52 - e))) by (apply Z.pow_pos_nonneg; lia).
    assert (Pe : 2 ^ e = 2 ^ 52 * 2 ^ (- (52 - e)))
      by (rewrite <- Z.pow_add_r by lia; f_equal; lia).
    assert (Pd : 0 < d * 2 ^ (- (52 - e))) by (apply Z.mul_pos_pos; lia).
    assert (B : 2 ^ 52 * (d * 2 ^ (- (52 - e))) <= n) by nia.
    pose proof (@round_half_even_ge _ _ _ Pd B) as R.
    change (2 ^ 52) with 4503599627370496 in R.
    unfold Qlt, inject_Z; cbn [Qnum Qden]. nia.
Qed.

(** Two time stamps no more than 120 seconds apart have a float difference
    of no more than 120; two that are [120 + 2^-46] seconds apart or more
    have one of more than 120. *)
Lemma float_sub_le_120 (a b : Q) :
  (a - b <= inject_Z 120)%Q -> (float_sub a b <= inject_Z 120)%Q.
Proof. apply round_double_le_120. Qed.

Lemma float_sub_gt_120 (a b : Q) :
  (inject_Z 120 + ulp_120 <= a - b)%Q -> (inject_Z 120 < float_sub a b)%Q.
Proof. apply round_double_gt_120. Qed.

(** ** Traces *)

Lemma attempts_snoc (t : list (Event Shard)) e :
  attempts (t ++ [e]) =
  (attempts t + match e with EvCreateClient => 1 | _ => 0 end)%nat.
Proof.
  unfold attempts. rewrite filter_app, length_app.
  destruct e; reflexivity.
Qed.

Lemma backoff_sleeps_snoc (t : list (Event Shard)) e :
  backoff_sleeps (t ++ [e]) =
  backoff_sleeps t ++ match e with EvBackoffSleep d => [d] | _ => [] end.
Proof.
  unfold backoff_sleeps. rewrite flat_map_app. simpl.
  now rewrite app_nil_r.
Qed.

Lemma closes_snoc (t : list (Event Shard)) e :
  closes (t ++ [e]) =
  (closes t + match e with EvClose => 1 | _ => 0 end)%nat.
Proof.
  unfold closes. rewrite filter_app, length_app.
  destruct e; reflexivity.
Qed.

Lemma handler_calls_snoc (t : list (Event Shard)) e :
  handler_calls (t ++ [e]) =
  handler_calls t ++
  match e with EvSplit _ | EvMerge _ => [e] | _ => [] end.
Proof.
  unfold handler_calls. rewrite filter_app.
  destruct e; reflexivity.
Qed.

Lemma without_logs_snoc (t : list (Event Shard)) e :
  without_logs (t ++ [e]) =
  without_logs t ++ match e with EvLog _ => [] | _ => [e] end.
Proof.
  unfold without_logs. rewrite filter_app.
  destruct e; reflexivity.
Qed.

(** ** Frames *)

Lemma keeps_ret {X A} (f : World -> X) (a : A) : keeps f (ret a).
Proof. intro w. reflexivity. Qed.

Lemma keeps_raise {X A} (f : World -> X) e : keeps f (@raise World A e).
Proof. intro w. reflexivity. Qed.

Lemma keeps_out_of_fuel {X A} (f : World -> X) :
  keeps f (@out_of_fuel World A).
Proof. intro w. reflexivity. Qed.

Lemma keeps_bind {X A B} (f : World -> X) (m : M World A) (k : A -> M World B) :
  keeps f m -> (forall a, keeps f (k a)) -> keeps f (bind m k).
Proof.
  intros Hm Hk w. unfold bind.
  specialize (Hm w). destruct (m w) as [[a| e | |] w1]; simpl in *; auto.
  now rewrite Hk.
Qed.

Lemma keeps_try_except {X A} (f : World -> X) (m : M World A) h :
  keeps f m -> (forall e, keeps f (h e)) -> keeps f (try_except m h).
Proof.
  intros Hm Hh w. unfold try_except.
  specialize (Hm w). destruct (m w) as [[a| e | |] w1]; simpl in *; auto.
  now rewrite Hh.
Qed.

Lemma keeps_get_self {X} (f : World -> X) : keeps f get_self.
Proof. intro w. reflexivity. Qed.

Lemma outside_start_emit a (e : Event Shard) :
  match e with
  | EvBackoffSleep _ | EvClose | EvSplit _ | EvMerge _ => False
  | EvCreateClient => a = false
  | _ => True
  end ->
  keeps (outside_start Sub a) (emit e).
Proof.
  intros He w. unfold outside_start, emit; simpl.
  rewrite backoff_sleeps_snoc, closes_snoc, handler_calls_snoc, attempts_snoc.
  destruct e; try contradiction; try subst a; simpl;
    now rewrite ?app_nil_r, ?Nat.add_0_r.
Qed.

Lemma outside_start_log a (m : LogMsg Shard) : keeps (outside_start Sub a) (log m).
Proof. apply outside_start_emit. exact I. Qed.

Ltac frame_step :=
  match goal with
  | |- keeps _ (bind _ _) => apply keeps_bind; [|intro]
  | |- keeps _ (try_except _ _) => apply keeps_try_except; [|intro]
  | |- keeps _ (ret _) => apply keeps_ret
  | |- keeps _ (raise _) => apply keeps_raise
  | |- keeps _ out_of_fuel => apply keeps_out_of_fuel
  | |- keeps _ get_self => apply keeps_get_self
  | |- keeps _ (log _) => apply outside_start_log
  | |- keeps _ (if ?c then _ else _) => destruct c
  | |- keeps _ (match ?e with _ => _ end) => destruct e
  end.

Ltac frame := repeat frame_step.

Lemma outside_start_client_describe_stream a :
  keeps (outside_start Sub a) (client_describe_stream env).
Proof.
  intro w. unfold client_describe_stream.
  destruct (client (self w)); [|reflexivity].
  destruct (describe_stream env (n_describe w)); unfold outside_start; simpl;
    rewrite backoff_sleeps_snoc, closes_snoc, handler_calls_snoc,
      attempts_snoc; simpl;
    now rewrite ?app_nil_r, ?Nat.add_0_r.
Qed.

Lemma outside_start_get_stream_description a :
  keeps (outside_start Sub a) (get_stream_description env).
Proof.
  unfold get_stream_description. frame.
  apply outside_start_client_describe_stream.
Qed.

Lemma outside_start_client_create_stream a n :
  keeps (outside_start Sub a) (client_create_stream env n).
Proof.
  intro w. unfold client_create_stream.
  destruct (client (self w)); [|reflexivity].
  destruct (create_stream_api env (n_create w)); unfold outside_start; simpl;
    rewrite backoff_sleeps_snoc, closes_snoc, handler_calls_snoc,
      attempts_snoc; simpl;
    now rewrite ?app_nil_r, ?Nat.add_0_r.
Qed.

Lemma outside_start__create_stream a ignore_exists :
  keeps (outside_start Sub a) (_create_stream env ignore_exists).
Proof.
  unfold _create_stream. frame; apply outside_start_client_create_stream.
Qed.

Lemma outside_start_get_client :
  keeps (outside_start Sub false) (get_client : M World unit).
Proof.
  unfold get_client. frame.
  - apply outside_start_emit. reflexivity.
  - intro w. reflexivity.
Qed.

Lemma outside_start_sleep_under_timeout a :
  keeps (outside_start Sub a) (sleep_under_timeout env).
Proof.
  unfold sleep_under_timeout. frame.
  - apply outside_start_emit. exact I.
  - intro w. now destruct (timeout_in_sleep env (n_describe w)).
Qed.

Lemma outside_start_wait_until_active a fuel :
  forall stream_status,
    keeps (outside_start Sub a)
      (wait_until_active env fuel stream_status).
Proof.
  induction fuel as [|fuel IH]; intro st; simpl.
  - apply keeps_out_of_fuel.
  - unfold under_timeout, expired. frame;
      try apply outside_start_get_stream_description;
      try apply outside_start_sleep_under_timeout;
      try apply IH;
      intro w; reflexivity.
Qed.

Lemma start_unfold fuel :
  start env fuel = (get_client ;; start_after_client env fuel : M World unit).
Proof. reflexivity. Qed.

Lemma outside_start_after_client a fuel :
  keeps (outside_start Sub a) (start_after_client env fuel).
Proof.
  unfold start_after_client. frame;
    try apply outside_start__create_stream;
    try apply outside_start_wait_until_active;
    intro w; reflexivity.
Qed.

(** The startup sequence keeps its hands off everything in
    [outside_start]. *)
Lemma start_outside fuel :
  keeps (outside_start Sub false) (start env fuel).
Proof.
  rewrite start_unfold. frame.
  - apply outside_start_get_client.
  - apply outside_start_after_client.
Qed.

(** Every startup builds exactly one client. *)
Lemma start_attempts fuel (w : World) :
  attempts (trace (snd (start env fuel w))) = S (attempts (trace w)).
Proof.
  rewrite start_unfold. unfold bind at 1, get_client, bind, emit. simpl.
  match goal with
  | |- context [start_after_client env fuel ?w1] =>
      pose proof (outside_start_after_client true fuel w1) as H
  end.
  apply (f_equal snd) in H. simpl in H.
  rewrite H, attempts_snoc. simpl. lia.
Qed.

(** ** The flag [skip_describe_stream] *)

Lemma commutes_ret {A} (g : World -> World) (a : A) : commutes g (ret a).
Proof. intro w. reflexivity. Qed.

Lemma commutes_raise {A} (g : World -> World) e :
  commutes g (@raise World A e).
Proof. intro w. reflexivity. Qed.

Lemma commutes_out_of_fuel {A} (g : World -> World) :
  commutes g (@out_of_fuel World A).
Proof. intro w. reflexivity. Qed.

Lemma commutes_bind {A B} (g : World -> World) (m : M World A)
    (k : A -> M World B) :
  commutes g m -> (forall a, commutes g (k a)) -> commutes g (bind m k).
Proof.
  intros Hm Hk w. unfold bind. rewrite Hm.
  destruct (m w) as [[a| e | |] w1]; simpl; try reflexivity.
  apply Hk.
Qed.

Lemma commutes_try_except {A} (g : World -> World) (m : M World A) h :
  commutes g m -> (forall e, commutes g (h e)) -> commutes g (try_except m h).
Proof.
  intros Hm Hh w. unfold try_except. rewrite Hm.
  destruct (m w) as [[a| e | |] w1]; simpl; try reflexivity.
  apply Hh.
Qed.

Lemma shift_emit v p (e : Event Shard) : commutes (shift Sub v p) (emit e).
Proof.
  intro w. unfold emit, shift, with_trace; simpl. now rewrite app_assoc.
Qed.

Lemma shift_modify_self v p (f : Base -> Base) :
  (forall b, f (set_skip_describe_stream v b) = set_skip_describe_stream v (f b)) ->
  commutes (shift Sub v p) (modify_self (Sub:=Sub) f).
Proof.
  intros Hf w. unfold modify_self, shift, with_self; simpl. now rewrite Hf.
Qed.

Ltac commute_step :=
  match goal with
  | |- commutes _ (bind _ _) => apply commutes_bind; [|intro]
  | |- commutes _ (try_except _ _) => apply commutes_try_except; [|intro]
  | |- commutes _ (ret _) => apply commutes_ret
  | |- commutes _ (raise _) => apply commutes_raise
  | |- commutes _ out_of_fuel => apply commutes_out_of_fuel
  | |- commutes _ (emit _) => apply shift_emit
  | |- commutes _ (log _) => apply shift_emit
  | |- commutes _ (modify_self _) => apply shift_modify_self; reflexivity
  | |- commutes _ (if ?c then _ else _) => destruct c
  | |- commutes _ (match ?e with _ => _ end) => destruct e
  end.

Ltac commute := repeat commute_step.

Lemma shift_get_client v p :
  commutes (shift Sub v p) (get_client : M World unit).
Proof.
  unfold get_client. commute. intro w. reflexivity.
Qed.

Lemma shift_client_describe_stream v p :
  commutes (shift Sub v p) (client_describe_stream env).
Proof.
  intro w. unfold client_describe_stream, shift; simpl.
  destruct (client (self w)); [|reflexivity].
  destruct (describe_stream env (n_describe w)); simpl;
    now rewrite <- app_assoc.
Qed.

Lemma shift_get_stream_description v p :
  commutes (shift Sub v p) (get_stream_description env).
Proof.
  unfold get_stream_description. commute.
  apply shift_client_describe_stream.
Qed.

Lemma shift_sleep_under_timeout v p :
  commutes (shift Sub v p) (sleep_under_timeout env).
Proof.
  unfold sleep_under_timeout. commute.
  intro w. simpl. now destruct (timeout_in_sleep env (n_describe w)).
Qed.

Lemma shift_wait_until_active v p fuel :
  forall stream_status,
    commutes (shift Sub v p) (wait_until_active env fuel stream_status).
Proof.
  induction fuel as [|fuel IH]; intro st; simpl.
  - apply commutes_out_of_fuel.
  - unfold under_timeout, expired. commute;
      try apply shift_get_stream_description;
      try apply shift_sleep_under_timeout;
      try apply IH;
      intro w; reflexivity.
Qed.

Lemma shift_client_create_stream v p n :
  commutes (shift Sub v p) (client_create_stream env n).
Proof.
  intro w. unfold client_create_stream, shift; simpl.
  destruct (client (self w)); [|reflexivity].
  destruct (create_stream_api env (n_create w)); simpl;
    now rewrite <- app_assoc.
Qed.

(** Reading the instance is harmless when the continuation does not look
    at the flag. *)
Lemma shift_get_self_bind {B} v p (k : Base -> M World B) :
  (forall b, commutes (shift Sub v p) (k b)) ->
  (forall b, k (set_skip_describe_stream v b) = k b) ->
  commutes (shift Sub v p) (bind get_self k).
Proof.
  intros Hk Hb w. unfold bind, get_self. simpl.
  rewrite Hb. apply Hk.
Qed.

Lemma shift__create_stream v p ignore_exists :
  commutes (shift Sub v p) (_create_stream env ignore_exists).
Proof.
  unfold _create_stream. apply shift_get_self_bind; [|reflexivity].
  intro b. commute; apply shift_client_create_stream.
Qed.

(** The startup sequence up to the test of the flag. *)
Lemma shift_create_if_asked v p (b : Base) :
  commutes (shift Sub v p)
    (if create_stream b
     then _create_stream env true ;; modify_self (set_create_stream false)
     else ret tt).
Proof.
  commute. apply shift__create_stream.
Qed.

(** The startup sequence after the test of the flag. *)
Lemma shift_check_active v p fuel :
  commutes (shift Sub v p)
    (log LogCheckingActive ;; wait_until_active env fuel None).
Proof.
  commute. apply shift_wait_until_active.
Qed.

Lemma without_logs_app (t u : list (Event Shard)) :
  without_logs (t ++ u) = without_logs t ++ without_logs u.
Proof. apply filter_app. Qed.

Lemma shift_alike v1 v2 p1 p2 (w : World) :
  without_logs p1 = without_logs p2 ->
  alike (shift Sub v1 p1 w) (shift Sub v2 p2 w).
Proof.
  intro Hp. unfold alike, observation, shift. simpl.
  now rewrite !without_logs_app, Hp.
Qed.

Lemma get_self_bind {B} (k : Base -> M World B) (w : World) :
  (b <- get_self ;; k b) w = k (self w) w.
Proof. reflexivity. Qed.

Lemma seq_bind {B} (m : M World unit) (k : M World B) (w w1 : World) :
  m w = (Return tt, w1) -> (m ;; k) w = k w1.
Proof. intro H. unfold bind. now rewrite H. Qed.

Lemma flag_blind_bind {A B} (m : M World A) (k : A -> M World B) :
  (forall v, commutes (shift Sub v []) m) ->
  (forall a, flag_blind Sub (k a)) ->
  flag_blind Sub (bind m k).
Proof.
  intros Hm Hk v w. unfold bind. rewrite (Hm v), (Hm false).
  destruct (m w) as [[a| e | |] w1]; simpl;
    try (split; [reflexivity | now apply shift_alike]).
  apply Hk.
Qed.

Lemma flag_blind_get_self {B} (k : Base -> M World B) :
  (forall v b, k (set_skip_describe_stream v b) = k b) ->
  (forall b, flag_blind Sub (k b)) ->
  flag_blind Sub (bind get_self k).
Proof.
  intros Hb Hk v w. rewrite !get_self_bind.
  change (self (shift Sub v [] w)) with (set_skip_describe_stream v (self w)).
  change (self (shift Sub false [] w))
    with (set_skip_describe_stream false (self w)).
  rewrite !Hb. apply Hk.
Qed.

(** The rest of the startup sequence, from the test of the flag on. *)
Lemma flag_blind_flag_test fuel :
  flag_blind Sub (b <- get_self ;;
              (if skip_describe_stream b then log LogSkippingDescribe
               else ret tt) ;;
              log LogCheckingActive ;; wait_until_active env fuel None).
Proof.
  intros v w. rewrite !get_self_bind.
  change (skip_describe_stream (self (shift Sub v [] w))) with v.
  change (skip_describe_stream (self (shift Sub false [] w))) with false.
  cbv iota.
  destruct v; [|split; reflexivity].
  rewrite (@seq_bind _ (log LogSkippingDescribe) _ (shift Sub true [] w)
             (shift Sub true (trace w ++ [EvLog LogSkippingDescribe]) (with_trace [] w)))
    by (unfold log, emit, shift, with_trace; simpl; now rewrite app_nil_r).
  rewrite (@seq_bind _ (ret tt) _ (shift Sub false [] w)
             (shift Sub false (trace w) (with_trace [] w)))
    by (unfold ret, shift, with_trace; simpl; now rewrite app_nil_r).
  rewrite !shift_check_active. simpl. split; [reflexivity|].
  apply shift_alike. rewrite without_logs_snoc. apply app_nil_r.
Qed.

Lemma flag_blind_start fuel : flag_blind Sub (start env fuel).
Proof.
  unfold start, start_after_client.
  apply flag_blind_bind; [intro; apply shift_get_client | intros _].
  apply flag_blind_get_self; [reflexivity | intro b].
  apply flag_blind_bind; [intro; apply shift_create_if_asked | intros _].
  apply flag_blind_flag_test.
Qed.

(** C10.  The flag [skip_describe_stream] has no effect on the startup
    sequence: run from the same world with the flag set to [v] or cleared,
    [start] ends with the same outcome (return value or exception) and in
    worlds with the same observation, i.e. the same instance fields apart
    from the flag itself, the same numbers of clock readings, of
    [describe_stream] and [create_stream] calls and of clients built, and
    the same trace apart from log lines. *)
Theorem skip_describe_stream_no_effect fuel v (w : World) :
  let run flag :=
    start env fuel (with_self (set_skip_describe_stream flag (self w)) w) in
  fst (run v) = fst (run false) /\
  observation (snd (run v)) = observation (snd (run false)).
Proof.
  exact (flag_blind_start fuel v w).
Qed.

(** ** Running a coroutine step by step *)

Lemma bind_Return {A B} (m : M World A) (k : A -> M World B) w a w1 :
  m w = (Return a, w1) -> bind m k w = k a w1.
Proof. intro H. unfold bind. now rewrite H. Qed.

Lemma bind_Raise {A B} (m : M World A) (k : A -> M World B) w e w1 :
  m w = (Raise e, w1) -> bind m k w = (Raise e, w1).
Proof. intro H. unfold bind. now rewrite H. Qed.

Lemma try_Return {A} (m : M World A) h w a w1 :
  m w = (Return a, w1) -> try_except m h w = (Return a, w1).
Proof. intro H. unfold try_except. now rewrite H. Qed.

Lemma try_Raise {A} (m : M World A) h w e w1 :
  m w = (Raise e, w1) -> try_except m h w = h e w1.
Proof. intro H. unfold try_except. now rewrite H. Qed.

Lemma time_monotonic_bind {B} (k : Q -> M World B) (w : World) :
  (now <- time_monotonic env ;; k now) w =
  k (monotonic env (n_monotonic w))
    (mkWorld (self w) (sub w) (S (n_monotonic w)) (n_describe w)
       (n_create w) (n_client w) (trace w)).
Proof. reflexivity. Qed.

Lemma get_stream_description_Described (w : World) st sh :
  client (self w) <> None ->
  describe_stream env (n_describe w) = Described st sh ->
  get_stream_description env w = (Return (st, sh), described w).
Proof.
  intros Hc Hd. unfold get_stream_description, try_except,
    client_describe_stream.
  destruct (client (self w)); [|contradiction]. now rewrite Hd.
Qed.

Lemma _spilt_shards_eq l (w : World) :
  _spilt_shards cls l w =
  (method_result (split_impl cls l) w,
   after_method (split_impl cls l) (EvSplit l) w).
Proof.
  unfold _spilt_shards, bind, emit, call_method, method_result, after_method.
  simpl. destruct (split_impl cls l (self w) (sub w)) as [[b s'] [e|]];
    reflexivity.
Qed.

Lemma _merge_shards_eq l (w : World) :
  _merge_shards cls l w =
  (method_result (merge_impl cls l) w,
   after_method (merge_impl cls l) (EvMerge l) w).
Proof.
  unfold _merge_shards, bind, emit, call_method, method_result, after_method.
  simpl. destruct (merge_impl cls l (self w) (sub w)) as [[b s'] [e|]];
    reflexivity.
Qed.

Lemma close_eq (w : World) :
  close cls w =
  (method_result (close_impl cls) w, after_method (close_impl cls) EvClose w).
Proof.
  unfold close, bind, emit, call_method, method_result, after_method.
  simpl. destruct (close_impl cls (self w) (sub w)) as [[b s'] [e|]];
    reflexivity.
Qed.

Lemma set_shard_sync_state_held (w : World) :
  _shards_lock (self w) = true ->
  set_shard_sync_state env w = (Return tt, synced env w).
Proof.
  intro H. unfold set_shard_sync_state, bind, modify_self, time_monotonic,
    release_shards_lock, get_self, log, emit. simpl. now rewrite H.
Qed.

(** [sync_shards] on the first sync, up to the call of the handler. *)
Lemma sync_shards_initialize (w : World) status fetched :
  shards_status (self w) = INITIALIZE ->
  client (self w) <> None ->
  describe_stream env (n_describe w) = Described status fetched ->
  _shards_lock (self w) = false ->
  sync_shards env cls w =
  (_spilt_shards cls fetched ;; set_shard_sync_state env) (initializing w).
Proof.
  intros Hs Hc Hd Hl.
  unfold sync_shards. rewrite get_self_bind, Hs.
  change ((INITIALIZE =? INITIALIZE)%string) with true. cbv iota.
  erewrite bind_Return by (apply get_stream_description_Described; eauto).
  unfold bind at 1, acquire_shards_lock. simpl. now rewrite Hl.
Qed.

(** [sync_shards] on a resync, up to the comparison of the counts. *)
Lemma sync_shards_resync (w : World) status fetched :
  shards_status (self w) = SYNCED ->
  (shard_refresh_timer (self w)
   < monotonic env (n_monotonic w) - shard_refresh_monotonic (self w))%Q ->
  client (self w) <> None ->
  describe_stream env (n_describe w) = Described status fetched ->
  status <> "CREATING" -> status <> "UPDATING" ->
  _shards_lock (self w) = false ->
  sync_shards env cls w =
  (dispatch cls fetched (self w) ;; set_shard_sync_state env) (resyncing w).
Proof.
  intros Hs Ht Hc Hd Hcr Hup Hl.
  unfold sync_shards. rewrite get_self_bind, Hs.
  change ((SYNCED =? INITIALIZE)%string) with false. cbv iota.
  rewrite time_monotonic_bind.
  apply Qgtb_true in Ht. rewrite Ht.
  change (true && (SYNCED =? SYNCED)%string) with true. cbv iota.
  erewrite bind_Return by (apply get_stream_description_Described; eauto).
  cbn [fst snd].
  apply String.eqb_neq in Hcr, Hup. rewrite Hcr, Hup. simpl orb. cbv iota.
  unfold bind at 1, acquire_shards_lock. simpl. rewrite Hl.
  reflexivity.
Qed.

Lemma set_shard_sync_state_calls (w : World) :
  handler_calls (trace (snd (set_shard_sync_state env w)))
  = handler_calls (trace w).
Proof.
  unfold set_shard_sync_state, bind, modify_self, time_monotonic,
    release_shards_lock, get_self, log, emit. simpl.
  destruct (_shards_lock (self w)); simpl; [|reflexivity].
  rewrite handler_calls_snoc. apply app_nil_r.
Qed.

(** The handler calls in the trace after a handler call followed by
    [set_shard_sync_state]. *)
Lemma calls_after_handler (m : M World unit) (f : Method Shard Sub) ev
    (w : World) :
  (forall w, m w = (method_result f w, after_method f ev w)) ->
  handler_calls (trace (snd ((m ;; set_shard_sync_state env) w)))
  = handler_calls (trace w ++ [ev]).
Proof.
  intro Hm. unfold bind. rewrite Hm.
  destruct (method_result f w); try reflexivity.
  now rewrite set_shard_sync_state_calls.
Qed.


(** A handler call followed by [set_shard_sync_state] that completes:
    the instance is the one the handler left, marked as synced. *)
Lemma completed_after_handler (m : M World unit) (f : Method Shard Sub) ev
    (w : World) :
  (forall w, m w = (method_result f w, after_method f ev w)) ->
  fst ((m ;; set_shard_sync_state env) w) = Return tt ->
  self (snd ((m ;; set_shard_sync_state env) w))
  = synced_at (monotonic env (n_monotonic w))
      (fst (fst (f (self w) (sub w)))).
Proof.
  intros Hm. unfold bind. rewrite Hm.
  destruct (method_result f w); simpl; try discriminate.
  unfold set_shard_sync_state, bind, modify_self, time_monotonic,
    release_shards_lock, get_self, log, emit. simpl.
  destruct (_shards_lock (fst (fst (f (self w) (sub w))))); simpl;
    [reflexivity | discriminate].
Qed.


(** ** A handler that raises *)

Lemma get_stream_description_self (w : World) :
  self (snd (get_stream_description env w)) = self w.
Proof.
  unfold get_stream_description, try_except, client_describe_stream.
  destruct (client (self w)); [|reflexivity].
  destruct (describe_stream env (n_describe w)) as [st sh|e]; [reflexivity|].
  destruct e; try reflexivity.
  now destruct (code =? "ResourceNotFoundException")%string.
Qed.

(** With the shard lock held and the state not [SYNCED], [sync_shards]
    changes nothing on the instance: it waits for the lock (first sync) or
    it has nothing to do. *)
Lemma sync_shards_stuck (w : World) :
  _shards_lock (self w) = true ->
  shards_status (self w) <> SYNCED ->
  self (snd (sync_shards env cls w)) = self w.
Proof.
  intros Hl Hs. unfold sync_shards. rewrite get_self_bind.
  destruct (shards_status (self w) =? INITIALIZE)%string.
  - unfold bind at 1.
    pose proof (get_stream_description_self w) as Hw.
    destruct (get_stream_description env w) as [[info| e | |] w1];
      simpl in Hw; simpl; try exact Hw.
    unfold bind, acquire_shards_lock. rewrite Hw, Hl. simpl. exact Hw.
  - rewrite time_monotonic_bind.
    apply String.eqb_neq in Hs. rewrite Hs, andb_false_r. reflexivity.
Qed.

Lemma sync_shards_times_stuck k : forall w : World,
  _shards_lock (self w) = true ->
  shards_status (self w) <> SYNCED ->
  self (sync_shards_times env cls k w) = self w.
Proof.
  induction k as [|k IH]; intros w Hl Hs; simpl; [reflexivity|].
  pose proof (sync_shards_stuck w Hl Hs) as E.
  rewrite IH; rewrite E; auto.
Qed.

(** A handler call that raises ends the sync there and then. *)
Lemma handler_raises (m : M World unit) (f : Method Shard Sub) ev
    (w : World) e :
  (forall w, m w = (method_result f w, after_method f ev w)) ->
  snd (f (self w) (sub w)) = Some e ->
  (m ;; set_shard_sync_state env) w = (Raise e, after_method f ev w).
Proof.
  intros Hm He. unfold bind. rewrite Hm. unfold method_result.
  now rewrite He.
Qed.


(** ** The reconnect loop, one iteration at a time *)

Lemma _get_reconn_loop_S n fuel d k (w : World) :
  _get_reconn_loop env cls (S n) fuel d k w =
  try_except
    (start env fuel ;; log (LogReestablished k d))
    (on_attempt_failure cls (_get_reconn_loop env cls n fuel) d k)
    (slept d k (stamped env w)).
Proof. reflexivity. Qed.

(** An attempt that succeeds ends the loop. *)
Lemma _get_reconn_loop_success n fuel d k (w w2 : World) :
  start env fuel (slept d k (stamped env w)) = (Return tt, w2) ->
  _get_reconn_loop env cls (S n) fuel d k w =
  (Return tt, logged (LogReestablished k d) w2).
Proof.
  intro H. rewrite _get_reconn_loop_S.
  erewrite try_Return; [reflexivity|].
  erewrite bind_Return by exact H. reflexivity.
Qed.

(** An attempt that raises hands the exception to the [except] clause. *)
Lemma _get_reconn_loop_failure n fuel d k (w w2 : World) e :
  start env fuel (slept d k (stamped env w)) = (Raise e, w2) ->
  _get_reconn_loop env cls (S n) fuel d k w =
  on_attempt_failure cls (_get_reconn_loop env cls n fuel) d k e w2.
Proof.
  intro H. rewrite _get_reconn_loop_S.
  erewrite try_Raise; [reflexivity|].
  erewrite bind_Raise by exact H. reflexivity.
Qed.

(** The [except] clause on an exception that is retried. *)
Lemma on_attempt_failure_retried again d k e (w : World) :
  is_Exception e = true -> is_StreamDoesNotExist e = false ->
  on_attempt_failure cls again d k e w =
  let w1 := logged (LogWarning e) w in
  let w2 := after_method (close_impl cls) EvClose w1 in
  match method_result (close_impl cls) w1 with
  | Return _ =>
      if limit_reached (self w) k then (Raise ConnectionError, w2)
      else again (next_backoff_delay (self w) d (k + 1)) (k + 1) w2
  | r => (r, w2)
  end.
Proof.
  intros He Hs. unfold on_attempt_failure. rewrite He, Hs. cbn [negb]. unfold limit_reached.
  erewrite bind_Return by (unfold log, emit; reflexivity).
  rewrite get_self_bind. fold (logged (LogWarning e) w).
  change (retry_limit (self (logged (LogWarning e) w)))
    with (retry_limit (self w)).
  destruct (retry_limit (self w)) as [limit|].
  - destruct (k + 1 >=? limit + 1).
    + unfold bind. rewrite close_eq.
      now destruct (method_result (close_impl cls) (logged (LogWarning e) w)).
    + erewrite bind_Return by reflexivity. rewrite get_self_bind.
      unfold bind. rewrite close_eq.
      now destruct (method_result (close_impl cls) (logged (LogWarning e) w)).
  - erewrite bind_Return by reflexivity. rewrite get_self_bind.
    unfold bind. rewrite close_eq.
    now destruct (method_result (close_impl cls) (logged (LogWarning e) w)).
Qed.

(** One iteration of the reconnect loop, by cases on what the startup
    does and on what [close] and the retry limit say after a failure.  A
    property holds of the loop when it holds in each case. *)
Lemma _get_reconn_loop_cases n fuel d k (w : World)
    (P : Result unit * World -> Prop) :
  let w0 := slept d k (stamped env w) in
  (forall w2,
     start env fuel w0 = (Return tt, w2) ->
     P (Return tt, logged (LogReestablished k d) w2)) ->
  (forall r w2,
     start env fuel w0 = (r, w2) ->
     match r with
     | Return _ => False
     | Raise e => is_Exception e = false \/ is_StreamDoesNotExist e = true
     | _ => True
     end ->
     P (r, w2)) ->
  (forall e w2,
     start env fuel w0 = (Raise e, w2) ->
     is_Exception e = true -> is_StreamDoesNotExist e = false ->
     let w3 := after_method (close_impl cls) EvClose
                 (logged (LogWarning e) w2) in
     match method_result (close_impl cls) (logged (LogWarning e) w2) with
     | Return _ =>
         if limit_reached (self w2) k then P (Raise ConnectionError, w3)
         else P (_get_reconn_loop env cls n fuel
                   (next_backoff_delay (self w2) d (k + 1)) (k + 1) w3)
     | r => P (r, w3)
     end) ->
  P (_get_reconn_loop env cls (S n) fuel d k w).
Proof.
  intros w0 Hok Hstop Hretry. rewrite _get_reconn_loop_S. fold w0.
  destruct (start env fuel w0) as [[[]| e | |] w2] eqn:Hst.
  - erewrite try_Return by (erewrite bind_Return by exact Hst; reflexivity).
    now apply Hok.
  - erewrite try_Raise by (erewrite bind_Raise by exact Hst; reflexivity).
    destruct (is_Exception e) eqn:He;
      [destruct (is_StreamDoesNotExist e) eqn:Hs|].
    + unfold on_attempt_failure. rewrite He, Hs.
      apply (Hstop _ _ eq_refl). now right.
    + rewrite on_attempt_failure_retried by assumption. cbv zeta.
      specialize (Hretry e w2 eq_refl He Hs). cbv zeta in Hretry.
      destruct (method_result (close_impl cls) (logged (LogWarning e) w2));
        try exact Hretry.
      now destruct (limit_reached (self w2) k).
    + unfold on_attempt_failure. rewrite He.
      apply (Hstop _ _ eq_refl). now left.
  - unfold try_except, bind. rewrite Hst. now apply (Hstop _ _ eq_refl).
  - unfold try_except, bind. rewrite Hst. now apply (Hstop _ _ eq_refl).
Qed.

(** ** [get_conn] *)

Lemma unlock_lock (b : Base) :
  _conn_lock b = false -> set_conn_lock false (set_conn_lock true b) = b.
Proof. destruct b; simpl; intro; now subst. Qed.

Lemma get_conn_entered fuel (w : World) :
  _conn_lock (self w) = false ->
  get_conn env cls fuel w =
  conn_lock_exit
    ((if (stream_status (self w) =? INITIALIZE)%string then
        try_except
          (start env fuel ;; log LogInitialized)
          (fun e =>
             if is_StreamDoesNotExist e then
               log LogStreamMissing ;; raise e
             else if is_Exception e then
               log (LogInitFailed e) ;; _get_reconn_helper env cls fuel
             else raise e)
      else if (stream_status (self w) =? ACTIVE)%string then
        now <- time_monotonic env ;;
        if Qgtb (float_sub now (_reconnect_timeout (self w))) (inject_Z 120)
        then _get_reconn_helper env cls fuel
        else ret tt
      else ret tt) (entered w)).
Proof.
  intro Hl. unfold get_conn, with_conn_lock. rewrite Hl.
  rewrite get_self_bind. reflexivity.
Qed.

(** [get_conn] on an [ACTIVE] connection, by the outcome of the cooldown
    test. *)
Lemma get_conn_on_ACTIVE fuel (w : World) :
  stream_status (self w) = ACTIVE ->
  _conn_lock (self w) = false ->
  let elapsed :=
    float_sub (monotonic env (n_monotonic w)) (_reconnect_timeout (self w)) in
  ((elapsed <= inject_Z 120)%Q ->
   get_conn env cls fuel w = (Return tt, glanced w)) /\
  ((inject_Z 120 < elapsed)%Q ->
   get_conn env cls fuel w =
   with_conn_lock (_get_reconn_helper env cls fuel) (glanced w)).
Proof.
  intros Hs Hl elapsed. subst elapsed.
  rewrite (get_conn_entered fuel w Hl), Hs.
  change ((ACTIVE =? INITIALIZE)%string) with false.
  change ((ACTIVE =? ACTIVE)%string) with true. cbv iota.
  rewrite time_monotonic_bind.
  change (n_monotonic (entered w)) with (n_monotonic w).
  split; intro H.
  - apply Qgtb_false in H. rewrite H.
    unfold ret, conn_lock_exit, entered, glanced, with_self. simpl.
    now rewrite (unlock_lock _ Hl), Hs.
  - apply Qgtb_true in H. rewrite H.
    unfold with_conn_lock, glanced. simpl. rewrite Hl.
    unfold entered, with_self. simpl. now rewrite Hs.
Qed.

(** The fields and counts that [start] leaves alone, one by one. *)
Lemma start_leaves fuel (w : World) :
  let w' := snd (start env fuel w) in
  retry_limit (self w') = retry_limit (self w) /\
  expo_backoff (self w') = expo_backoff (self w) /\
  expo_backoff_limit (self w') = expo_backoff_limit (self w) /\
  _conn_lock (self w') = _conn_lock (self w) /\
  _reconnect_timeout (self w') = _reconnect_timeout (self w) /\
  n_monotonic w' = n_monotonic w /\
  backoff_sleeps (trace w') = backoff_sleeps (trace w) /\
  closes (trace w') = closes (trace w).
Proof.
  intro w'. pose proof (start_outside fuel w) as H.
  fold w' in H. unfold outside_start in H.
  injection H as H1 H2 H3 H4 H5 H6 H7 H8 H9 H10 H11 H12 H13 H14 H15 H16.
  repeat split; assumption.
Qed.

(** C4.  [StreamDoesNotExist] is never retried, whatever the retry limit
    and the backoff settings.  Raised by the startup sequence of [get_conn]
    on a connection in state [INITIALIZE], it is raised by [get_conn] at
    once: after the failed startup there is a log line and the release of
    the lock, nothing else.  Raised by the startup sequence in any iteration
    of the reconnect loop, it is raised by the loop at once, in the very
    world the startup left: no further attempt, sleep or [close]. *)
Theorem StreamDoesNotExist_not_retried :
  (forall fuel (w w2 : World),
     stream_status (self w) = INITIALIZE ->
     _conn_lock (self w) = false ->
     start env fuel (entered w) = (Raise StreamDoesNotExist, w2) ->
     get_conn env cls fuel w =
     (Raise StreamDoesNotExist, released (logged LogStreamMissing w2))) /\
  (forall n fuel d k (w w2 : World),
     start env fuel (slept d k (stamped env w))
     = (Raise StreamDoesNotExist, w2) ->
     _get_reconn_loop env cls (S n) fuel d k w
     = (Raise StreamDoesNotExist, w2)).
Proof.
  split.
  - intros fuel w w2 Hs Hl H.
    rewrite (get_conn_entered fuel w Hl), Hs.
    change ((INITIALIZE =? INITIALIZE)%string) with true. cbv iota.
    erewrite try_Raise by (erewrite bind_Raise by exact H; reflexivity).
    cbn [is_StreamDoesNotExist].
    erewrite bind_Return by (unfold log, emit; reflexivity).
    fold (logged (Sub:=Sub) (@LogStreamMissing Shard) w2).
    unfold raise, conn_lock_exit.
    destruct (start_leaves fuel (entered w)) as (_ & _ & _ & L & _).
    rewrite H in L. simpl in L.
    change (_conn_lock (self (logged LogStreamMissing w2)))
      with (_conn_lock (self w2)).
    now rewrite L.
  - intros n fuel d k w w2 H.
    now rewrite (@_get_reconn_loop_failure n _ _ _ _ _ _ H).
Qed.

(** ** Backoff delays *)

Lemma spec_delay_next (b : Base) d j :
  expo_backoff b = Some 5 -> expo_backoff_limit b = 120 ->
  next_backoff_delay b d (Z.of_nat j + 1) = spec_delay (S j).
Proof.
  intros Hb Hl. unfold next_backoff_delay, spec_delay. rewrite Hb, Hl.
  change (5 =? 0) with false. cbv iota.
  rewrite Nat2Z.inj_succ. unfold Z.succ.
  destruct ((Z.of_nat j + 1) ^ 2 * 5 >=? 120) eqn:E.
  - apply Z.geb_le in E. lia.
  - rewrite Z.geb_leb in E. apply Z.leb_gt in E. lia.
Qed.

Lemma slept_stamped_view d k (w : World) :
  let w0 := slept d k (stamped env w) in
  expo_backoff (self w0) = expo_backoff (self w) /\
  expo_backoff_limit (self w0) = expo_backoff_limit (self w) /\
  backoff_sleeps (trace w0) = backoff_sleeps (trace w) ++ [d] /\
  attempts (trace w0) = attempts (trace w).
Proof.
  unfold slept, stamped; simpl.
  rewrite !backoff_sleeps_snoc, !attempts_snoc. simpl.
  rewrite app_nil_r. repeat split; try reflexivity; lia.
Qed.

Lemma closed_view e (w : World) :
  let w1 := after_method (close_impl cls) EvClose (logged (LogWarning e) w) in
  backoff_sleeps (trace w1) = backoff_sleeps (trace w) /\
  attempts (trace w1) = attempts (trace w).
Proof.
  unfold after_method, logged; simpl.
  rewrite !backoff_sleeps_snoc, !attempts_snoc. simpl.
  rewrite !app_nil_r. split; [reflexivity | lia].
Qed.

(** The loop entered at attempt [j] with the delay of the specification:
    the [m] attempts it makes sleep for the delays of attempts
    [j], [j+1], ... *)
Lemma _get_reconn_loop_delays n fuel :
  close_keeps cls (@expo_backoff Shard) ->
  close_keeps cls (@expo_backoff_limit Shard) ->
  forall j (w : World),
    expo_backoff (self w) = Some 5 ->
    expo_backoff_limit (self w) = 120 ->
    let w' := snd (_get_reconn_loop env cls n fuel (spec_delay j)
                     (Z.of_nat j) w) in
    exists m,
      backoff_sleeps (trace w')
      = backoff_sleeps (trace w) ++ map spec_delay (seq j m) /\
      attempts (trace w') = (attempts (trace w) + m)%nat.
Proof.
  intros Kb Kl. induction n as [|n IH]; intros j w Hb Hl w'.
  { exists O. subst w'. simpl. now rewrite app_nil_r, Nat.add_0_r. }
  subst w'.
  destruct (slept_stamped_view (spec_delay j) (Z.of_nat j) w)
    as (Vb & Vl & Vs & Va).
  (* a run that ends in this iteration has made one attempt *)
  assert (One : forall r (w2 w3 : World),
             start env fuel (slept (spec_delay j) (Z.of_nat j) (stamped env w))
             = (r, w2) ->
             backoff_sleeps (trace w3) = backoff_sleeps (trace w2) ->
             attempts (trace w3) = attempts (trace w2) ->
             exists m,
               backoff_sleeps (trace w3)
               = backoff_sleeps (trace w) ++ map spec_delay (seq j m) /\
               attempts (trace w3) = (attempts (trace w) + m)%nat).
  { intros r w2 w3 Hst E1 E2.
    destruct (start_leaves fuel
                (slept (spec_delay j) (Z.of_nat j) (stamped env w)))
      as (_ & _ & _ & _ & _ & _ & Ss & _).
    pose proof (start_attempts fuel
                  (slept (spec_delay j) (Z.of_nat j) (stamped env w))) as Sa.
    rewrite Hst in Ss, Sa. cbn [snd] in Ss, Sa.
    exists 1%nat. rewrite E1, E2, Ss, Sa, Vs, Va.
    split; [reflexivity | lia]. }
  apply _get_reconn_loop_cases
    with (P := fun rw =>
                 exists m,
                   backoff_sleeps (trace (snd rw))
                   = backoff_sleeps (trace w) ++ map spec_delay (seq j m) /\
                   attempts (trace (snd rw)) = (attempts (trace w) + m)%nat).
  - intros w2 Hst. apply (One _ _ _ Hst); simpl.
    + rewrite backoff_sleeps_snoc. apply app_nil_r.
    + rewrite attempts_snoc. simpl. lia.
  - intros r w2 Hst _. now apply (One _ _ _ Hst).
  - intros e w2 Hst He Hs w3.
    destruct (closed_view e w2) as (Cs & Ca). fold w3 in Cs, Ca.
    destruct (method_result (close_impl cls) (logged (LogWarning e) w2));
      try (now apply (One _ _ _ Hst)).
    destruct (limit_reached (self w2) (Z.of_nat j));
      [now apply (One _ _ _ Hst)|].
    destruct (start_leaves fuel
                (slept (spec_delay j) (Z.of_nat j) (stamped env w)))
      as (_ & Sb & Sl & _).
    rewrite Hst in Sb, Sl. cbn [snd] in Sb, Sl.
    rewrite (@spec_delay_next (self w2) (spec_delay j) j) by congruence.
    replace (Z.of_nat j + 1) with (Z.of_nat (S j)) by lia.
    destruct (IH (S j) w3) as (m & Ms & Ma).
    + unfold w3, after_method; simpl. rewrite Kb. simpl. congruence.
    + unfold w3, after_method; simpl. rewrite Kl. simpl. congruence.
    + destruct (One _ _ w3 Hst Cs Ca) as (m1 & Os & Oa).
      exists (S m). rewrite Ms, Ma.
      destruct (start_leaves fuel
                  (slept (spec_delay j) (Z.of_nat j) (stamped env w)))
        as (_ & _ & _ & _ & _ & _ & Ss & _).
      pose proof (start_attempts fuel
                    (slept (spec_delay j) (Z.of_nat j) (stamped env w))) as Sa.
      rewrite Hst in Ss, Sa. cbn [snd] in Ss, Sa.
      rewrite Cs, Ca, Ss, Sa, Vs, Va. simpl. rewrite <- app_assoc.
      split; [reflexivity | lia].
Qed.

(** The reconnect procedure up to its loop. *)
Lemma _get_reconn_helper_eq fuel (w : World) :
  _get_reconn_helper env cls fuel w =
  let w0 := with_self (set_stream_status RECONNECT (self w)) w in
  let w1 := after_method (close_impl cls) EvClose w0 in
  match method_result (close_impl cls) w0 with
  | Return _ => _get_reconn_loop env cls fuel fuel 5 1 w1
  | r => (r, w1)
  end.
Proof.
  unfold _get_reconn_helper.
  erewrite bind_Return by reflexivity.
  unfold bind. rewrite close_eq.
  now destruct (method_result (close_impl cls)
                  (with_self (set_stream_status RECONNECT (self w)) w)).
Qed.

(** C5.  With exponential backoff of base 5 and ceiling 120 (and a [close]
    that leaves these two settings alone), the backoff sleeps of a run of
    the reconnect procedure last [min(n^2 * 5, 120)] seconds before attempt
    [n], for [n = 1, 2, ...]: the run adds to the trace the sleeps
    [spec_delay 1, ..., spec_delay m], where [m] is the number of attempts
    it makes, whatever the outcome of the run.  No delay exceeds 120, and
    the first six are 5, 20, 45, 80, 120, 120. *)
Theorem backoff_delay_sequence fuel (w : World) :
  expo_backoff (self w) = Some 5 ->
  expo_backoff_limit (self w) = 120 ->
  close_keeps cls (@expo_backoff Shard) ->
  close_keeps cls (@expo_backoff_limit Shard) ->
  let w' := snd (_get_reconn_helper env cls fuel w) in
  exists m,
    backoff_sleeps (trace w')
    = backoff_sleeps (trace w) ++ map spec_delay (seq 1 m) /\
    attempts (trace w') = (attempts (trace w) + m)%nat /\
    (forall n, spec_delay n <= 120) /\
    map spec_delay (seq 1 6) = [5; 20; 45; 80; 120; 120].
Proof.
  intros Hb Hl Kb Kl w'. subst w'.
  assert (Bound : forall n, spec_delay n <= 120)
    by (intro n; unfold spec_delay; lia).
  rewrite _get_reconn_helper_eq. cbv zeta.
  set (w0 := with_self (set_stream_status RECONNECT (self w)) w).
  assert (Cs : backoff_sleeps (trace (after_method (close_impl cls) EvClose w0))
               = backoff_sleeps (trace w)).
  { unfold after_method; simpl. rewrite backoff_sleeps_snoc. apply app_nil_r. }
  assert (Ca : attempts (trace (after_method (close_impl cls) EvClose w0))
               = attempts (trace w)).
  { unfold after_method; simpl. rewrite attempts_snoc. simpl. lia. }
  destruct (method_result (close_impl cls) w0);
    try (exists O; cbn [snd map seq]; rewrite Cs, Ca, app_nil_r, Nat.add_0_r;
         repeat split; auto).
  destruct (@_get_reconn_loop_delays fuel fuel Kb Kl 1%nat
              (after_method (close_impl cls) EvClose w0)) as (m & Ms & Ma).
  { unfold after_method; simpl. rewrite Kb. exact Hb. }
  { unfold after_method; simpl. rewrite Kl. exact Hl. }
  exists m. change (spec_delay 1) with 5 in Ms, Ma.
  change (Z.of_nat 1) with 1 in Ms, Ma.
  rewrite Ms, Ma, Cs, Ca. repeat split; auto.
Qed.

(** ** Startups that fail and startups that succeed *)

(** The startup sequence up to its first [describe_stream], when no stream
    is to be created: a client is built and one or two lines are logged. *)
Lemma start_no_create fuel (w : World) :
  create_stream (self w) = false ->
  exists w1 : World,
    start env fuel w = wait_until_active env fuel None w1 /\
    self w1 = set_client (Some (n_client w)) (self w) /\
    n_describe w1 = n_describe w /\
    attempts (trace w1) = S (attempts (trace w)).
Proof.
  intro Hc. unfold start.
  erewrite bind_Return by reflexivity.
  unfold start_after_client.
  rewrite get_self_bind. simpl. rewrite Hc.
  erewrite bind_Return by reflexivity.
  rewrite get_self_bind. simpl.
  destruct (skip_describe_stream (self w)).
  - erewrite bind_Return by reflexivity.
    erewrite bind_Return by reflexivity.
    eexists. split; [reflexivity|]. simpl.
    rewrite !attempts_snoc. simpl. repeat split; lia.
  - erewrite bind_Return by reflexivity.
    erewrite bind_Return by reflexivity.
    eexists. split; [reflexivity|]. simpl.
    rewrite !attempts_snoc. simpl. repeat split; lia.
Qed.

(** A first description that is [retryable] makes the polling raise an
    exception that the reconnect loop retries. *)
Lemma wait_until_active_retryable fuel (w : World) c :
  client (self w) = Some c ->
  retryable (describe_stream env (n_describe w)) = true ->
  exists e,
    wait_until_active env (S fuel) None w = (Raise e, described w) /\
    is_Exception e = true /\ is_StreamDoesNotExist e = false.
Proof.
  intros Hc Hr. simpl.
  unfold under_timeout, get_stream_description, client_describe_stream,
    try_except, bind.
  rewrite Hc. fold (described w).
  destruct (describe_stream env (n_describe w)) as [st sh|e]; simpl in *.
  - destruct (st =? ACTIVE)%string; [discriminate|].
    destruct (st =? "CREATING")%string; [discriminate|].
    destruct (st =? "UPDATING")%string; [discriminate|].
    simpl. eexists; repeat split.
  - destruct e; try discriminate; simpl;
      try (eexists; repeat split; fail).
    destruct (code =? "ResourceNotFoundException")%string; [discriminate|].
    simpl. eexists; repeat split.
Qed.

(** A first description with status [ACTIVE] ends the polling. *)
Lemma wait_until_active_ACTIVE fuel (w : World) c sh :
  client (self w) = Some c ->
  describe_stream env (n_describe w) = Described ACTIVE sh ->
  wait_until_active env (S fuel) None w =
  (Return tt,
   with_self (set_shards sh (set_shards_status INITIALIZE
                (set_stream_status ACTIVE (self w)))) (described w)).
Proof.
  intros Hc Hd. simpl.
  unfold under_timeout, get_stream_description, client_describe_stream,
    try_except, bind.
  rewrite Hc, Hd. reflexivity.
Qed.

(** An iteration of the reconnect loop whose startup gets a [retryable]
    description: the loop gives up if the retry limit is reached and goes
    round again otherwise. *)
Lemma failed_iteration n fuel d k (w : World) :
  close_returns cls ->
  close_keeps cls (@retry_limit Shard) ->
  close_keeps cls (@create_stream Shard) ->
  create_stream (self w) = false ->
  retryable (describe_stream env (n_describe w)) = true ->
  exists (w3 : World) d',
    retry_limit (self w3) = retry_limit (self w) /\
    create_stream (self w3) = false /\
    n_describe w3 = S (n_describe w) /\
    attempts (trace w3) = S (attempts (trace w)) /\
    _get_reconn_loop env cls (S n) (S fuel) d k w =
    if limit_reached (self w) k then (Raise ConnectionError, w3)
    else _get_reconn_loop env cls n (S fuel) d' (k + 1) w3.
Proof.
  intros Kr Kl Kc Hc Hd.
  destruct (@start_no_create (S fuel) (slept d k (stamped env w)) Hc)
    as (w1 & E1 & S1 & D1 & A1).
  destruct (@wait_until_active_retryable fuel w1 (n_client w))
    as (e & E2 & He & Hs).
  { rewrite S1. reflexivity. }
  { rewrite D1. exact Hd. }
  rewrite E2 in E1.
  rewrite (@_get_reconn_loop_failure n _ _ _ _ _ _ E1).
  rewrite on_attempt_failure_retried by assumption. cbv zeta.
  unfold method_result. rewrite Kr.
  change (limit_reached (self (described w1)) k)
    with (limit_reached (self w1) k).
  assert (L : limit_reached (self w1) k = limit_reached (self w) k)
    by (now rewrite S1).
  rewrite L.
  exists (after_method (close_impl cls) EvClose
            (logged (LogWarning e) (described w1))),
         (next_backoff_delay (self (described w1)) d (k + 1)).
  split; [|split; [|split; [|split]]]; cycle 4.
  - reflexivity.
  - unfold after_method; simpl. rewrite Kl, S1. reflexivity.
  - unfold after_method; simpl. rewrite Kc, S1. exact Hc.
  - unfold after_method; simpl. now rewrite D1.
  - unfold after_method; simpl. rewrite !attempts_snoc. simpl.
    rewrite A1. unfold slept, stamped; simpl. rewrite !attempts_snoc.
    simpl. lia.
Qed.

(** An iteration of the reconnect loop whose startup finds the stream
    [ACTIVE] at once ends the loop. *)
Lemma successful_iteration n fuel d k (w : World) sh :
  create_stream (self w) = false ->
  describe_stream env (n_describe w) = Described ACTIVE sh ->
  let r := _get_reconn_loop env cls (S n) (S fuel) d k w in
  fst r = Return tt /\
  attempts (trace (snd r)) = S (attempts (trace w)) /\
  stream_status (self (snd r)) = ACTIVE.
Proof.
  intros Hc Hd.
  destruct (@start_no_create (S fuel) (slept d k (stamped env w)) Hc)
    as (w1 & E1 & S1 & D1 & A1).
  rewrite (@wait_until_active_ACTIVE fuel w1 (n_client w) sh) in E1;
    [| now rewrite S1 | now rewrite D1].
  intro r. subst r.
  rewrite (@_get_reconn_loop_success n _ _ _ _ _ E1).
  cbn [fst snd]. repeat split.
  unfold logged, described; simpl. rewrite !attempts_snoc. simpl.
  rewrite A1. unfold slept, stamped; simpl. rewrite !attempts_snoc.
  simpl. lia.
Qed.

(** Without a retry limit the loop goes on through any number [j] of
    failed startups and returns when the next one succeeds. *)
Lemma _get_reconn_loop_unbounded j :
  close_returns cls ->
  close_keeps cls (@retry_limit Shard) ->
  close_keeps cls (@create_stream Shard) ->
  forall n fuel d k (w : World) sh,
    (j < n)%nat ->
    retry_limit (self w) = None ->
    create_stream (self w) = false ->
    (forall i, (i < j)%nat ->
       retryable (describe_stream env (n_describe w + i)) = true) ->
    describe_stream env (n_describe w + j) = Described ACTIVE sh ->
    let r := _get_reconn_loop env cls n (S fuel) d k w in
    fst r = Return tt /\
    attempts (trace (snd r)) = (attempts (trace w) + S j)%nat /\
    stream_status (self (snd r)) = ACTIVE.
Proof.
  intros Kr Kl Kc.
  induction j as [|j IH]; intros n fuel d k w sh Hn Hl Hc Hf Hd.
  - destruct n as [|n]; [lia|].
    rewrite Nat.add_0_r in Hd.
    destruct (@successful_iteration n fuel d k w sh Hc Hd) as (R1 & R2 & R3).
    repeat split; auto. rewrite R2. lia.
  - destruct n as [|n]; [lia|].
    destruct (@failed_iteration n fuel d k w Kr Kl Kc Hc)
      as (w3 & d' & L3 & C3 & D3 & A3 & E).
    { rewrite <- (Nat.add_0_r (n_describe w)). apply Hf. lia. }
    assert (NL : limit_reached (self w) k = false)
      by (unfold limit_reached; now rewrite Hl).
    rewrite NL in E. intro r. subst r. rewrite E.
    destruct (IH n fuel d' (k + 1) w3 sh) as (R1 & R2 & R3); try lia.
    + congruence.
    + exact C3.
    + intros i Hi. rewrite D3.
      replace (S (n_describe w) + i)%nat with (n_describe w + S i)%nat by lia.
      apply Hf. lia.
    + rewrite D3.
      replace (S (n_describe w) + j)%nat with (n_describe w + S j)%nat by lia.
      exact Hd.
    + repeat split; auto. rewrite R2, A3. lia.
Qed.

(** The world in which the reconnect procedure enters its loop, when
    [close] returns. *)
Lemma _get_reconn_helper_enters fuel (w : World) :
  close_returns cls ->
  close_keeps cls (@retry_limit Shard) ->
  close_keeps cls (@create_stream Shard) ->
  exists w1 : World,
    _get_reconn_helper env cls fuel w = _get_reconn_loop env cls fuel fuel 5 1 w1 /\
    retry_limit (self w1) = retry_limit (self w) /\
    create_stream (self w1) = create_stream (self w) /\
    n_describe w1 = n_describe w /\
    attempts (trace w1) = attempts (trace w).
Proof.
  intros Kr Kl Kc. rewrite _get_reconn_helper_eq. cbv zeta.
  unfold method_result. rewrite Kr.
  eexists. split; [reflexivity|].
  unfold after_method; simpl. rewrite Kl, Kc, attempts_snoc. simpl.
  repeat split. lia.
Qed.

(** C6.  With [close] returning normally and leaving [retry_limit] and
    [create_stream] alone, and no stream to create:
    - with a retry limit of 3, when the first three startups of the
      reconnect procedure fail with a retried error, the procedure raises
      [ConnectionError] after exactly three attempts;
    - without a retry limit, for every [N >= 1], when the first [N - 1]
      startups fail with a retried error and the [N]-th finds the stream
      [ACTIVE], the procedure returns after exactly [N] attempts with the
      connection [ACTIVE] (for every budget [fuel >= N]). *)
Theorem retry_limit_three_and_unbounded :
  close_returns cls ->
  close_keeps cls (@retry_limit Shard) ->
  close_keeps cls (@create_stream Shard) ->
  (forall fuel (w : World),
     (3 <= fuel)%nat ->
     retry_limit (self w) = Some 3 ->
     create_stream (self w) = false ->
     (forall i, (i < 3)%nat ->
        retryable (describe_stream env (n_describe w + i)) = true) ->
     let r := _get_reconn_helper env cls fuel w in
     fst r = Raise ConnectionError /\
     attempts (trace (snd r)) = (attempts (trace w) + 3)%nat) /\
  (forall N fuel (w : World) sh,
     (1 <= N)%nat -> (N <= fuel)%nat ->
     retry_limit (self w) = None ->
     create_stream (self w) = false ->
     (forall i, (i < N - 1)%nat ->
        retryable (describe_stream env (n_describe w + i)) = true) ->
     describe_stream env (n_describe w + (N - 1)) = Described ACTIVE sh ->
     let r := _get_reconn_helper env cls fuel w in
     fst r = Return tt /\
     attempts (trace (snd r)) = (attempts (trace w) + N)%nat /\
     stream_status (self (snd r)) = ACTIVE).
Proof.
  intros Kr Kl Kc. split.
  - intros fuel w Hfuel Hl Hc Hf r. subst r.
    destruct (@_get_reconn_helper_enters fuel w Kr Kl Kc)
      as (w1 & E & L1 & C1 & D1 & A1).
    destruct fuel as [|[|[|f]]]; try lia.
    rewrite Hl in L1. rewrite Hc in C1.
    destruct (@failed_iteration (S (S f)) (S (S f)) 5 1 w1 Kr Kl Kc C1)
      as (w2 & d2 & L2 & C2 & D2 & A2 & E2).
    { rewrite D1, <- (Nat.add_0_r (n_describe w)). apply Hf. lia. }
    unfold limit_reached in E2. rewrite L1 in E2.
    change (1 + 1 >=? 3 + 1) with false in E2. cbv iota in E2.
    rewrite L1 in L2.
    destruct (@failed_iteration (S f) (S (S f)) d2 (1 + 1) w2 Kr Kl Kc C2)
      as (w3 & d3 & L3 & C3 & D3 & A3 & E3).
    { rewrite D2, D1.
      replace (S (n_describe w)) with (n_describe w + 1)%nat by lia.
      apply Hf. lia. }
    unfold limit_reached in E3. rewrite L2 in E3.
    change (1 + 1 + 1 >=? 3 + 1) with false in E3. cbv iota in E3.
    rewrite L2 in L3.
    destruct (@failed_iteration f (S (S f)) d3 (1 + 1 + 1) w3 Kr Kl Kc C3)
      as (w4 & d4 & L4 & C4 & D4 & A4 & E4).
    { rewrite D3, D2, D1.
      replace (S (S (n_describe w))) with (n_describe w + 2)%nat by lia.
      apply Hf. lia. }
    unfold limit_reached in E4. rewrite L3 in E4.
    change (1 + 1 + 1 + 1 >=? 3 + 1) with true in E4. cbv iota in E4.
    rewrite E, E2, E3, E4.
    split; [reflexivity|]. cbn [snd]. rewrite A4, A3, A2, A1. lia.
  - intros N fuel w sh HN Hfuel Hl Hc Hf Hd r. subst r.
    destruct (@_get_reconn_helper_enters fuel w Kr Kl Kc)
      as (w1 & E & L1 & C1 & D1 & A1).
    rewrite E. clear E.
    destruct fuel as [|f]; [lia|].
    assert (Hf1 : forall i, (i < N - 1)%nat ->
              retryable (describe_stream env (n_describe w1 + i)) = true)
      by (intros i Hi; rewrite D1; now apply Hf).
    assert (Hd1 : describe_stream env (n_describe w1 + (N - 1))
                  = Described ACTIVE sh)
      by (now rewrite D1).
    assert (HN1 : (N - 1 < S f)%nat) by lia.
    assert (Hl1 : retry_limit (self w1) = None) by congruence.
    assert (Hc1 : create_stream (self w1) = false) by congruence.
    destruct (@_get_reconn_loop_unbounded (N - 1) Kr Kl Kc (S f) f 5 1 w1 sh
                HN1 Hl1 Hc1 Hf1 Hd1)
      as (R1 & R2 & R3).
    repeat split; auto. rewrite R2, A1. lia.
Qed.

(** ** The cooldown time stamp *)

(** Once an iteration of the reconnect loop has begun, and whatever happens
    next, [_reconnect_timeout] is the latest reading of the clock. *)
Lemma _get_reconn_loop_stamp n fuel :
  close_keeps cls (@_reconnect_timeout Shard) ->
  forall m d k (w : World),
    (m <= n_monotonic w)%nat ->
    let w' := snd (_get_reconn_loop env cls (S n) fuel d k w) in
    (m < n_monotonic w')%nat /\
    _reconnect_timeout (self w') = monotonic env (pred (n_monotonic w')).
Proof.
  intro Kt. induction n as [|n IH]; intros m d k w Hm w'; subst w'.
  all: (* the startup leaves the clock and the stamp of this iteration *)
    assert (G : forall r (w2 w3 : World),
               start env fuel (slept d k (stamped env w)) = (r, w2) ->
               n_monotonic w3 = n_monotonic w2 ->
               _reconnect_timeout (self w3) = _reconnect_timeout (self w2) ->
               (m < n_monotonic w3)%nat /\
               _reconnect_timeout (self w3)
               = monotonic env (pred (n_monotonic w3)))
      by (intros r w2 w3 Hst E1 E2;
          destruct (start_leaves fuel (slept d k (stamped env w)))
            as (_ & _ & _ & _ & St & Sn & _);
          rewrite Hst in St, Sn; cbn [snd] in St, Sn;
          rewrite E1, E2, Sn, St; simpl; split; [lia | reflexivity]).
  all: apply _get_reconn_loop_cases
         with (P := fun rw =>
                      (m < n_monotonic (snd rw))%nat /\
                      _reconnect_timeout (self (snd rw))
                      = monotonic env (pred (n_monotonic (snd rw))));
       [ intros w2 Hst; now apply (G _ _ _ Hst)
       | intros r w2 Hst _; now apply (G _ _ _ Hst)
       | intros e w2 Hst He Hs w3 ].
  all: assert (G3 : (m < n_monotonic w3)%nat /\
                    _reconnect_timeout (self w3)
                    = monotonic env (pred (n_monotonic w3)))
         by (apply (G _ _ _ Hst); [reflexivity|];
             unfold w3, after_method; simpl; now rewrite Kt).
  all: destruct (method_result (close_impl cls) (logged (LogWarning e) w2));
       try exact G3;
       destruct (limit_reached (self w2) k); try exact G3.
  (* the loop goes round again *)
  apply IH. destruct G3. lia.
Qed.


(** ** Errors of stream creation *)

Lemma create_error_retried e :
  create_error e -> is_Exception e = true /\ is_StreamDoesNotExist e = false.
Proof. intros [-> | ->]; split; reflexivity. Qed.

(** The reconnect loop never lets an error of stream creation out. *)
Lemma _get_reconn_loop_hides_create_errors n fuel e :
  create_error e ->
  (forall b s, snd (close_impl cls b s) <> Some e) ->
  forall d k (w : World),
    fst (_get_reconn_loop env cls n fuel d k w) <> Raise e.
Proof.
  intros Hce Kc. destruct (create_error_retried Hce) as [He Hn].
  induction n as [|n IH]; intros d k w; [discriminate|].
  apply _get_reconn_loop_cases with (P := fun rw => fst rw <> Raise e).
  - discriminate.
  - intros r w2 _ Hr. destruct r as [[]| e0 | |]; try discriminate.
    simpl. intro E. injection E as ->. destruct Hr; congruence.
  - intros e0 w2 _ _ _ w3. unfold method_result.
    destruct (snd (close_impl cls (self (logged (LogWarning e0) w2))
                     (sub (logged (LogWarning e0) w2)))) as [e1|] eqn:Hc.
    + simpl. intro E. injection E as ->. exact (Kc _ _ Hc).
    + destruct (limit_reached (self w2) k); [|apply IH].
      simpl. intro E. injection E as <-. destruct Hce; discriminate.
Qed.

Lemma _get_reconn_helper_hides_create_errors fuel e (w : World) :
  create_error e ->
  (forall b s, snd (close_impl cls b s) <> Some e) ->
  fst (_get_reconn_helper env cls fuel w) <> Raise e.
Proof.
  intros Hce Kc. rewrite _get_reconn_helper_eq. cbv zeta.
  unfold method_result.
  destruct (snd (close_impl cls
                   (self (with_self (set_stream_status RECONNECT (self w)) w))
                   (sub (with_self (set_stream_status RECONNECT (self w)) w))))
    as [e1|] eqn:Hc.
  - simpl. intro E. injection E as ->. exact (Kc _ _ Hc).
  - now apply _get_reconn_loop_hides_create_errors.
Qed.

Lemma conn_lock_exit_hides {A} (r : Result A * World) e :
  e <> RuntimeError -> fst r <> Raise e -> fst (conn_lock_exit r) <> Raise e.
Proof.
  intros Hr H. unfold conn_lock_exit.
  destruct r as [[a| e0 | |] w]; simpl in *; try discriminate;
    destruct (_conn_lock (self w)); simpl; try discriminate; try assumption;
    intro E; injection E as <-; now apply Hr.
Qed.

(** C2 (amended).  The two errors of stream creation (shard count below
    one, shard limit exceeded) are not permanent; they are retried like any
    failure other than [StreamDoesNotExist].  Provided [close] does not raise
    them itself:
    - [get_conn] never raises them;
    - raised by the startup sequence of [get_conn] on a connection in state
      [INITIALIZE], they make [get_conn] log the failure and run the
      reconnect procedure;
    - raised by the startup sequence in an iteration of the reconnect loop,
      they make the loop call [close] and, when that returns, either raise
      [ConnectionError] (retry limit reached) or go round again with the
      next delay and attempt number. *)
Theorem create_errors_are_retried :
  (forall e b s, create_error e -> snd (close_impl cls b s) <> Some e) ->
  (forall fuel (w : World) e,
     create_error e -> fst (get_conn env cls fuel w) <> Raise e) /\
  (forall fuel (w w2 : World) e,
     create_error e ->
     stream_status (self w) = INITIALIZE ->
     _conn_lock (self w) = false ->
     start env fuel (entered w) = (Raise e, w2) ->
     get_conn env cls fuel w =
     conn_lock_exit
       (_get_reconn_helper env cls fuel (logged (LogInitFailed e) w2))) /\
  (forall n fuel d k (w w2 : World) e,
     create_error e ->
     start env fuel (slept d k (stamped env w)) = (Raise e, w2) ->
     _get_reconn_loop env cls (S n) fuel d k w =
     let w3 := after_method (close_impl cls) EvClose
                 (logged (LogWarning e) w2) in
     match method_result (close_impl cls) (logged (LogWarning e) w2) with
     | Return _ =>
         if limit_reached (self w2) k then (Raise ConnectionError, w3)
         else _get_reconn_loop env cls n fuel
                (next_backoff_delay (self w2) d (k + 1)) (k + 1) w3
     | r => (r, w3)
     end).
Proof.
  intro Kc. split; [|split].
  - intros fuel w e Hce.
    assert (Hr : e <> RuntimeError) by (destruct Hce as [-> | ->]; discriminate).
    assert (Kc' : forall b s, snd (close_impl cls b s) <> Some e)
      by (intros b s; now apply Kc).
    unfold get_conn, with_conn_lock.
    destruct (_conn_lock (self w)); [discriminate|].
    apply conn_lock_exit_hides; [exact Hr|].
    rewrite get_self_bind.
    erewrite bind_Return by (unfold log, emit; reflexivity).
    match goal with |- context [with_trace ?t ?w0] =>
      remember (with_trace t w0) as w1 eqn:Hw1 end.
    change (stream_status (self (with_self (set_conn_lock true (self w)) w)))
      with (stream_status (self w)).
    change (_reconnect_timeout
              (self (with_self (set_conn_lock true (self w)) w)))
      with (_reconnect_timeout (self w)).
    clear Hw1.
    destruct (stream_status (self w) =? INITIALIZE)%string.
    + destruct (start env fuel w1) as [[[]| e0 | |] w2] eqn:Hst.
      * erewrite try_Return
          by (erewrite bind_Return by exact Hst; reflexivity).
        discriminate.
      * erewrite try_Raise
          by (erewrite bind_Raise by exact Hst; reflexivity).
        destruct (is_StreamDoesNotExist e0) eqn:Hs.
        { erewrite bind_Return by (unfold log, emit; reflexivity).
          simpl. intro E. injection E as ->.
          destruct Hce as [-> | ->]; discriminate. }
        destruct (is_Exception e0) eqn:He.
        { erewrite bind_Return by (unfold log, emit; reflexivity).
          now apply _get_reconn_helper_hides_create_errors. }
        simpl. intro E. injection E as ->.
        destruct Hce as [-> | ->]; discriminate.
      * unfold try_except, bind. rewrite Hst. discriminate.
      * unfold try_except, bind. rewrite Hst. discriminate.
    + destruct (stream_status (self w) =? ACTIVE)%string; [|discriminate].
      rewrite time_monotonic_bind.
      destruct (Qgtb _ _); [|discriminate].
      now apply _get_reconn_helper_hides_create_errors.
  - intros fuel w w2 e Hce Hs Hl H.
    destruct (create_error_retried Hce) as [He Hn].
    rewrite (get_conn_entered fuel w Hl), Hs.
    change ((INITIALIZE =? INITIALIZE)%string) with true. cbv iota.
    erewrite try_Raise by (erewrite bind_Raise by exact H; reflexivity).
    rewrite Hn, He.
    erewrite bind_Return by (unfold log, emit; reflexivity).
    reflexivity.
  - intros n fuel d k w w2 e Hce H.
    destruct (create_error_retried Hce) as [He Hn].
    rewrite (@_get_reconn_loop_failure n _ _ _ _ _ _ H).
    now rewrite on_attempt_failure_retried.
Qed.

(** * Further properties of the code

    ** The startup sequence *)

Lemma poll_sleeps_snoc (t : list (Event Shard)) e :
  poll_sleeps (t ++ [e]) =
  (poll_sleeps t + match e with EvPollSleep _ => 1 | _ => 0 end)%nat.
Proof.
  unfold poll_sleeps. rewrite filter_app, length_app.
  destruct e; reflexivity.
Qed.

Lemma describes_snoc (t : list (Event Shard)) e :
  describes (t ++ [e]) =
  (describes t + match e with EvDescribeStream => 1 | _ => 0 end)%nat.
Proof.
  unfold describes. rewrite filter_app, length_app.
  destruct e; reflexivity.
Qed.

(** An [await] of the polling, by what comes back from it. *)
Lemma under_timeout_cases {A} st (m : M World A) k (w : World) :
  under_timeout env st m k w =
  match m w with
  | (Return a, w1) => k a w1
  | (Raise e, w1) =>
      if is_Exception e then (Raise e, w1) else expired env st w1
  | (Blocked, w1) => (Blocked, w1)
  | (OutOfFuel, w1) => (OutOfFuel, w1)
  end.
Proof.
  unfold under_timeout, bind, try_except, ret.
  destruct (m w) as [[a| e | |] w1]; try reflexivity.
  now destruct e.
Qed.

Lemma expired_cases st (w : World) :
  expired env st w =
  if cm_expired env (n_describe w)
  then (Raise match st with
              | Some s => StreamStatusInvalid s
              | None => UnboundLocalError
              end, w)
  else (Return tt, w).
Proof.
  unfold expired, read_cm_expired, bind.
  destruct (cm_expired env (n_describe w)); [now destruct st | reflexivity].
Qed.

(** What comes back from a description. *)
Lemma get_stream_description_outcome (w : World) :
  let r := get_stream_description env w in
  self (snd r) = self w /\
  n_create (snd r) = n_create w /\
  n_client (snd r) = n_client w /\
  match fst r with
  | Return info =>
      snd r = described w /\
      describe_stream env (n_describe w) = Described (fst info) (snd info)
  | _ => True
  end.
Proof.
  unfold get_stream_description, try_except, client_describe_stream.
  destruct (client (self w)); [|repeat split].
  destruct (describe_stream env (n_describe w)) as [s sh|e]; [repeat split|].
  destruct e; simpl; try (repeat split; fail).
  destruct (code =? "ResourceNotFoundException")%string; repeat split.
Qed.

Lemma sleep_under_timeout_outcome (w : World) :
  let r := sleep_under_timeout env w in
  self (snd r) = self w /\
  n_describe (snd r) = n_describe w /\
  n_create (snd r) = n_create w /\
  n_client (snd r) = n_client w.
Proof.
  unfold sleep_under_timeout, bind, emit. simpl.
  destruct (timeout_in_sleep env (n_describe w)); repeat split.
Qed.

(** The polling ends in one of three ways.  It finds the stream [ACTIVE],
    and then stores status and shards of that description.  Or it is
    cancelled while [cm.expired] is not set, and then returns with the state
    of the connection as it was.  Or it does not return, and the state of
    the connection is as it was. *)
Lemma wait_until_active_outcome fuel :
  forall st (w : World) r w',
    wait_until_active env fuel st w = (r, w') ->
    create_stream (self w') = create_stream (self w) /\
    client (self w') = client (self w) /\
    n_create w' = n_create w /\
    n_client w' = n_client w /\
    match r with
    | Return _ =>
        (stream_status (self w') = ACTIVE /\
         shards_status (self w') = INITIALIZE /\
         (n_describe w < n_describe w')%nat /\
         describe_stream env (pred (n_describe w'))
         = Described ACTIVE (shards (self w')))
        \/
        (conn_state w' = conn_state w /\
         cm_expired env (n_describe w') = false)
    | _ => conn_state w' = conn_state w
    end.
Proof.
  (* the rest of [start] after a cancellation *)
  assert (Ex : forall st (w w1 : World) r w',
             self w1 = self w -> n_create w1 = n_create w ->
             n_client w1 = n_client w ->
             expired env st w1 = (r, w') ->
             create_stream (self w') = create_stream (self w) /\
             client (self w') = client (self w) /\
             n_create w' = n_create w /\
             n_client w' = n_client w /\
             match r with
             | Return _ =>
                 (stream_status (self w') = ACTIVE /\
                  shards_status (self w') = INITIALIZE /\
                  (n_describe w < n_describe w')%nat /\
                  describe_stream env (pred (n_describe w'))
                  = Described ACTIVE (shards (self w')))
                 \/
                 (conn_state w' = conn_state w /\
                  cm_expired env (n_describe w') = false)
             | _ => conn_state w' = conn_state w
             end).
  { intros st w w1 r w' E1 E2 E3 H. rewrite expired_cases in H.
    destruct (cm_expired env (n_describe w1)) eqn:Ec;
      injection H as <- <-; unfold conn_state; rewrite E1;
      repeat split; try assumption.
    right. split; [reflexivity | assumption]. }
  induction fuel as [|fuel IH]; intros st w r w' H.
  { injection H as <- <-. repeat split. }
  cbn [wait_until_active] in H. rewrite under_timeout_cases in H.
  destruct (get_stream_description_outcome w) as (F1 & F2 & F3 & F4).
  destruct (get_stream_description env w) as [[[s sh]| e | |] w1];
    cbn [fst snd] in *;
    try (injection H as <- <-; unfold conn_state; rewrite F1;
         repeat split; assumption).
  - destruct F4 as [-> Hd].
    destruct (s =? ACTIVE)%string eqn:Es.
    + apply String.eqb_eq in Es. subst s.
      unfold bind, modify_self in H; simpl in H. injection H as <- <-.
      simpl. repeat split; auto. left. repeat split; auto.
    + destruct ((s =? "CREATING") || (s =? "UPDATING"))%string.
      * rewrite under_timeout_cases in H.
        destruct (sleep_under_timeout_outcome (described w))
          as (S1 & S2 & S3 & S4).
        destruct (sleep_under_timeout env (described w))
          as [[[]| e | |] w2]; cbn [fst snd] in *;
          try (injection H as <- <-; unfold conn_state; rewrite S1;
               repeat split; assumption).
        -- destruct (IH (Some s) w2 r w' H) as (I1 & I2 & I3 & I4 & I5).
           rewrite I1, I2, I3, I4, S1, S3, S4.
           repeat split.
           destruct r as [[]| | |];
             try (rewrite I5; unfold conn_state; now rewrite S1).
           destruct I5 as [(J1 & J2 & J3 & J4) | (J1 & J2)].
           ++ left. rewrite S2 in J3. simpl in J3. repeat split; auto. lia.
           ++ right. split; [|assumption].
              rewrite J1. unfold conn_state. now rewrite S1.
        -- destruct (is_Exception e).
           ++ injection H as <- <-. unfold conn_state. rewrite S1.
              repeat split; assumption.
           ++ apply (Ex _ w _ _ _ S1 S3 S4 H).
      * injection H as <- <-. repeat split.
  - destruct (is_Exception e).
    + injection H as <- <-. unfold conn_state. rewrite F1.
      repeat split; assumption.
    + apply (Ex _ w _ _ _ F1 F2 F3 H).
Qed.

Lemma _create_stream_frame ignore_exists (w : World) :
  let r := _create_stream env ignore_exists w in
  self (snd r) = self w /\
  n_describe (snd r) = n_describe w /\
  n_client (snd r) = n_client w /\
  (n_create (snd r) <= S (n_create w))%nat /\
  (n_create w <= n_create (snd r))%nat.
Proof.
  unfold _create_stream, bind, get_self, log, emit, try_except,
    client_create_stream. simpl.
  destruct (create_stream_shards (self w) <? 1); simpl; [repeat split; lia|].
  destruct (client (self w)); simpl; [|repeat split; lia].
  destruct (create_stream_api env (n_create w)) as [e|]; simpl;
    [|repeat split; lia].
  destruct e; simpl; try (repeat split; lia).
  destruct (code =? "ResourceInUseException")%string;
    [destruct ignore_exists|
     destruct (code =? "LimitExceededException")%string];
    simpl; repeat split; lia.
Qed.

(** The optional creation of the stream at the head of the startup
    sequence. *)
Lemma create_if_asked_outcome (b : Base) (w : World) r w' :
  (if create_stream b
   then _create_stream env true ;; modify_self (set_create_stream false)
   else ret tt) w = (r, w') ->
  conn_state w' = conn_state w /\
  client (self w') = client (self w) /\
  n_describe w' = n_describe w /\
  n_client w' = n_client w /\
  (n_create w <= n_create w')%nat /\
  (n_create w' <= S (n_create w))%nat /\
  (create_stream b = false -> r = Return tt /\ w' = w) /\
  (create_stream b = true -> r = Return tt ->
   create_stream (self w') = false).
Proof.
  intro H. destruct (create_stream b).
  - unfold bind in H.
    destruct (_create_stream_frame true w) as (K1 & K2 & K3 & K4 & K5).
    destruct (_create_stream env true w) as [[[]| e | |] w1];
      cbn [fst snd] in *; injection H as <- <-;
      unfold conn_state; simpl; rewrite ?K1, ?K2, ?K3;
      repeat split; try lia; try discriminate.
  - injection H as <- <-. repeat split; try lia; discriminate.
Qed.

(** The startup sequence from the test of the flag on. *)
Lemma check_active_outcome fuel (w : World) r w' :
  (b <- get_self ;;
   (if skip_describe_stream b then log LogSkippingDescribe else ret tt) ;;
   log LogCheckingActive ;; wait_until_active env fuel None) w = (r, w') ->
  create_stream (self w') = create_stream (self w) /\
  client (self w') = client (self w) /\
  n_create w' = n_create w /\
  n_client w' = n_client w /\
  match r with
  | Return _ =>
      (stream_status (self w') = ACTIVE /\
       shards_status (self w') = INITIALIZE /\
       (n_describe w < n_describe w')%nat /\
       describe_stream env (pred (n_describe w'))
       = Described ACTIVE (shards (self w')))
      \/
      (conn_state w' = conn_state w /\
       cm_expired env (n_describe w') = false)
  | _ => conn_state w' = conn_state w
  end.
Proof.
  intro H. rewrite get_self_bind in H.
  destruct (skip_describe_stream (self w));
    erewrite bind_Return in H by reflexivity;
    erewrite bind_Return in H by reflexivity;
    exact (wait_until_active_outcome _ _ _ H).
Qed.

(** Everything the startup sequence does to the connection, by outcome. *)
Lemma start_outcome fuel (w : World) r w' :
  start env fuel w = (r, w') ->
  client (self w') = Some (n_client w) /\
  n_client w' = S (n_client w) /\
  (n_create w <= n_create w')%nat /\
  (n_create w' <= S (n_create w))%nat /\
  (create_stream (self w) = false ->
   n_create w' = n_create w /\ create_stream (self w') = false) /\
  match r with
  | Return _ =>
      create_stream (self w') = false /\
      ((stream_status (self w') = ACTIVE /\
        shards_status (self w') = INITIALIZE /\
        (n_describe w < n_describe w')%nat /\
        describe_stream env (pred (n_describe w'))
        = Described ACTIVE (shards (self w')))
       \/
       (conn_state w' = conn_state w /\
        cm_expired env (n_describe w') = false))
  | _ => conn_state w' = conn_state w
  end.
Proof.
  intro H. unfold start in H.
  erewrite bind_Return in H by reflexivity.
  unfold start_after_client in H. rewrite get_self_bind in H.
  match type of H with
  | bind _ _ ?w1 = _ => remember w1 as w1' eqn:Hw1
  end.
  assert (G1 : client (self w1') = Some (n_client w)) by (now subst w1').
  assert (G2 : n_client w1' = S (n_client w)) by (now subst w1').
  assert (G3 : n_create w1' = n_create w) by (now subst w1').
  assert (G4 : n_describe w1' = n_describe w) by (now subst w1').
  assert (G5 : conn_state w1' = conn_state w) by (now subst w1').
  assert (G6 : create_stream (self w1') = create_stream (self w))
    by (now subst w1').
  clear Hw1. unfold bind at 1 in H.
  match type of H with
  | context [(if ?c then ?m1 else ?m2) w1'] =>
      destruct ((if c then m1 else m2) w1') as [r1 w2] eqn:E
  end.
  destruct (create_if_asked_outcome _ _ E)
    as (C1 & C2 & C3 & C4 & C5 & C6 & C7 & C8).
  rewrite G6 in C7, C8.
  destruct r1 as [[]| e | |];
    try (injection H as <- <-; rewrite C2, C4;
         split; [assumption|]; split; [assumption|];
         split; [lia|]; split; [lia|]; split;
         [intro Hc; destruct (C7 Hc); discriminate | congruence]).
  destruct (check_active_outcome _ _ H) as (A1 & A2 & A3 & A4 & A5).
  rewrite A2, A3, A4, C2, C4.
  split; [assumption|]. split; [assumption|].
  split; [lia|]. split; [lia|]. split.
  - intro Hc. destruct (C7 Hc) as [_ ->]. split; congruence.
  - destruct r as [[]| | |]; try congruence.
    split.
    + rewrite A1.
      destruct (create_stream (self w)) eqn:Hc.
      * now apply C8.
      * destruct (C7 eq_refl) as [_ ->]. congruence.
    + destruct A5 as [(B1 & B2 & B3 & B4) | (B1 & B2)].
      * left. rewrite C3, G4 in B3. repeat split; auto.
      * right. split; [congruence | assumption].
Qed.

(** X1.  When the startup sequence [start] returns, no stream is left to
    create and the client is the one just built, and one of two things has
    happened.  Either the polling found the stream [ACTIVE]: the connection
    is [ACTIVE], the shards are to be initialised, and the local shard list
    is the one of the last description fetched, whose status was [ACTIVE].
    Or the polling was cancelled and [cm.expired] was not set: then [start]
    has swallowed the cancellation, and the connection state, the shard
    state and the local shard list are as they were.  Where every
    cancellation is reported by [cm.expired], the first is the case. *)
Theorem start_returns_active_unless_cancelled fuel (w w' : World) :
  start env fuel w = (Return tt, w') ->
  create_stream (self w') = false /\
  client (self w') = Some (n_client w) /\
  ((stream_status (self w') = ACTIVE /\
    shards_status (self w') = INITIALIZE /\
    (n_describe w < n_describe w')%nat /\
    describe_stream env (pred (n_describe w'))
    = Described ACTIVE (shards (self w')))
   \/
   (conn_state w' = conn_state w /\
    cm_expired env (n_describe w') = false)) /\
  (cancellation_reported env ->
   stream_status (self w') = ACTIVE /\
   shards_status (self w') = INITIALIZE /\
   describe_stream env (pred (n_describe w'))
   = Described ACTIVE (shards (self w'))).
Proof.
  intro H.
  destruct (start_outcome _ _ H) as (O1 & _ & _ & _ & _ & O2 & O3).
  split; [assumption|]. split; [assumption|]. split; [assumption|].
  intro Hr. destruct O3 as [(A1 & A2 & A3 & A4) | (_ & B)].
  - repeat split; assumption.
  - rewrite (Hr (n_describe w')) in B. discriminate.
Qed.

(** X2.  A startup that does not return (it raises, or runs out of budget)
    leaves the connection state, the shard state and the local shard list
    as they were. *)
Theorem start_failure_keeps_state fuel (w : World) :
  fst (start env fuel w) <> Return tt ->
  conn_state (snd (start env fuel w)) = conn_state w.
Proof.
  intro H. destruct (start env fuel w) as [r w'] eqn:E. cbn [fst snd] in *.
  destruct (start_outcome _ _ E) as (_ & _ & _ & _ & _ & O2).
  destruct r as [[]| | |]; [contradiction| | |]; assumption.
Qed.

(** X3.  One startup calls [create_stream] of the service at most once, and
    not at all when the instance is not asked to create the stream, in which
    case it is still not asked to afterwards. *)
Theorem start_creates_at_most_once fuel (w : World) :
  let w' := snd (start env fuel w) in
  (n_create w <= n_create w')%nat /\
  (n_create w' <= S (n_create w))%nat /\
  (create_stream (self w) = false ->
   n_create w' = n_create w /\ create_stream (self w') = false).
Proof.
  destruct (start env fuel w) as [r w'] eqn:E. cbn [fst snd] in *.
  destruct (start_outcome _ _ E) as (_ & _ & O1 & O2 & O3 & _).
  repeat split; try assumption; now apply O3.
Qed.

(** X4.  Asked to create the stream with a shard count below one, the
    startup raises before any call to the service, whatever the budget; the
    request to create the stream stays on, and the connection state is as
    before. *)
Theorem start_min_shard_count fuel (w : World) :
  create_stream (self w) = true ->
  create_stream_shards (self w) < 1 ->
  let r := start env fuel w in
  fst r = Raise MinShardCount /\
  n_create (snd r) = n_create w /\
  n_describe (snd r) = n_describe w /\
  create_stream (self (snd r)) = true /\
  conn_state (snd r) = conn_state w.
Proof.
  intros Hc Hlt.
  apply Z.ltb_lt in Hlt.
  unfold start, start_after_client, get_client, _create_stream, bind,
    get_self, log, emit, raise. simpl.
  rewrite Hc. simpl. rewrite Hlt. simpl.
  repeat split; assumption.
Qed.

(** ** Polling *)

Lemma waiting_not_ACTIVE s : waiting s = true -> (s =? ACTIVE)%string = false.
Proof.
  unfold waiting. intro H. apply orb_true_iff in H.
  destruct H as [H | H]; apply String.eqb_eq in H; subst; reflexivity.
Qed.

(** The quarter-second sleep when it is not cancelled. *)
Lemma sleep_under_timeout_quiet (w : World) :
  timeout_in_sleep env (n_describe w) = false ->
  sleep_under_timeout env w
  = (Return tt, with_trace (trace w ++ [EvPollSleep (1 # 4)]) w).
Proof.
  intro H. unfold sleep_under_timeout, bind, emit.
  simpl. now rewrite H.
Qed.

(** One round of the polling on an answer on which it waits. *)
Lemma wait_until_active_waits fuel st (w : World) c s l :
  client (self w) = Some c ->
  describe_stream env (n_describe w) = Described s l ->
  waiting s = true ->
  timeout_in_sleep env (S (n_describe w)) = false ->
  wait_until_active env (S fuel) st w =
  wait_until_active env fuel (Some s)
    (with_trace (trace (described w) ++ [EvPollSleep (1 # 4)]) (described w)).
Proof.
  intros Hc Hd Hs Ht.
  cbn [wait_until_active]. rewrite under_timeout_cases.
  rewrite (@get_stream_description_Described w s l) by congruence.
  cbn [fst snd]. rewrite (waiting_not_ACTIVE _ Hs).
  unfold waiting in Hs. rewrite Hs.
  rewrite under_timeout_cases.
  now rewrite sleep_under_timeout_quiet by exact Ht.
Qed.

(** The last round of the polling, on an answer [ACTIVE]. *)
Lemma wait_until_active_ends fuel st (w : World) c sh :
  client (self w) = Some c ->
  describe_stream env (n_describe w) = Described ACTIVE sh ->
  wait_until_active env (S fuel) st w =
  (Return tt,
   with_self (set_shards sh (set_shards_status INITIALIZE
                (set_stream_status ACTIVE (self w)))) (described w)).
Proof.
  intros Hc Hd. cbn [wait_until_active]. rewrite under_timeout_cases.
  rewrite (@get_stream_description_Described w ACTIVE sh) by congruence.
  reflexivity.
Qed.

(** The polling through [k] answers on which it waits, up to an answer
    [ACTIVE]. *)
Lemma wait_until_active_polls k :
  forall fuel st (w : World) c sh,
    (k < fuel)%nat ->
    client (self w) = Some c ->
    (forall i, (i < k)%nat ->
       exists s l, describe_stream env (n_describe w + i) = Described s l /\
                   waiting s = true) ->
    (forall i, (i < k)%nat ->
       timeout_in_sleep env (S (n_describe w + i)) = false) ->
    describe_stream env (n_describe w + k) = Described ACTIVE sh ->
    let r := wait_until_active env fuel st w in
    fst r = Return tt /\
    self (snd r) = set_shards sh (set_shards_status INITIALIZE
                     (set_stream_status ACTIVE (self w))) /\
    n_describe (snd r) = (n_describe w + S k)%nat /\
    describes (trace (snd r)) = (describes (trace w) + S k)%nat /\
    poll_sleeps (trace (snd r)) = (poll_sleeps (trace w) + k)%nat.
Proof.
  induction k as [|k IH]; intros fuel st w c sh Hf Hc Hw Ht Ha;
    (destruct fuel as [|fuel]; [lia|]).
  - rewrite Nat.add_0_r in Ha.
    rewrite (wait_until_active_ends fuel st w Hc Ha). simpl.
    rewrite describes_snoc, poll_sleeps_snoc. repeat split; lia.
  - destruct (Hw O ltac:(lia)) as (s & l & Hd & Hs).
    rewrite Nat.add_0_r in Hd.
    rewrite (wait_until_active_waits fuel st w Hc Hd Hs)
      by (rewrite <- (Nat.add_0_r (n_describe w)); apply Ht; lia).
    match goal with
    | |- context [wait_until_active env fuel ?st' ?w1] =>
        destruct (IH fuel st' w1 c sh) as (I1 & I2 & I3 & I4 & I5)
    end.
    + lia.
    + assumption.
    + intros i Hi. simpl. rewrite <- Nat.add_succ_r. apply Hw. lia.
    + intros i Hi. simpl. rewrite <- Nat.add_succ_r. apply Ht. lia.
    + simpl. rewrite <- Nat.add_succ_r. assumption.
    + cbn zeta. rewrite I1, I2, I3, I4, I5. simpl.
      rewrite poll_sleeps_snoc, describes_snoc, poll_sleeps_snoc,
        describes_snoc.
      repeat split; simpl; lia.
Qed.

(** The startup sequence up to its polling, when no stream is to be
    created, with what the trace holds by then. *)
Lemma start_no_create_polls fuel (w : World) :
  create_stream (self w) = false ->
  exists w1 : World,
    start env fuel w = wait_until_active env fuel None w1 /\
    self w1 = set_client (Some (n_client w)) (self w) /\
    n_describe w1 = n_describe w /\
    describes (trace w1) = describes (trace w) /\
    poll_sleeps (trace w1) = poll_sleeps (trace w).
Proof.
  intro Hc. unfold start.
  erewrite bind_Return by reflexivity.
  unfold start_after_client.
  rewrite get_self_bind. simpl. rewrite Hc.
  erewrite bind_Return by reflexivity.
  rewrite get_self_bind. simpl.
  destruct (skip_describe_stream (self w));
    erewrite bind_Return by reflexivity;
    erewrite bind_Return by reflexivity;
    (eexists; split; [reflexivity|]); simpl;
    rewrite ?describes_snoc, ?poll_sleeps_snoc; simpl;
    repeat split; lia.
Qed.

(** X5.  With no stream to create, when the service answers [k] times with
    a status [CREATING] or [UPDATING] and then with [ACTIVE], and the
    timeout does not fire meanwhile, the startup returns after exactly
    [k + 1] descriptions and [k] quarter-second sleeps, with the connection
    [ACTIVE] and the shard list of the last description. *)
Theorem start_polls_until_active k fuel (w : World) sh :
  (k < fuel)%nat ->
  create_stream (self w) = false ->
  (forall i, (i < k)%nat ->
     exists s l, describe_stream env (n_describe w + i) = Described s l /\
                 waiting s = true) ->
  (forall i, (i < k)%nat ->
     timeout_in_sleep env (S (n_describe w + i)) = false) ->
  describe_stream env (n_describe w + k) = Described ACTIVE sh ->
  let r := start env fuel w in
  fst r = Return tt /\
  stream_status (self (snd r)) = ACTIVE /\
  shards (self (snd r)) = sh /\
  describes (trace (snd r)) = (describes (trace w) + S k)%nat /\
  poll_sleeps (trace (snd r)) = (poll_sleeps (trace w) + k)%nat.
Proof.
  intros Hf Hc Hw Ht Ha.
  destruct (start_no_create_polls fuel w Hc) as (w1 & E & S1 & S2 & S3 & S4).
  rewrite E.
  destruct (@wait_until_active_polls k fuel None w1 (n_client w) sh)
    as (P1 & P2 & P3 & P4 & P5);
    rewrite ?S1, ?S2; try assumption; try reflexivity.
  cbn zeta. rewrite P1, P2, P4, P5, S3, S4. repeat split.
Qed.

(** ** How the reconnect procedure ends *)

Lemma conn_state_stream_status (w1 w2 : World) :
  conn_state w1 = conn_state w2 ->
  stream_status (self w1) = stream_status (self w2).
Proof. unfold conn_state. intro H. now injection H. Qed.

(** The loop is left with a connection, as the last startup set it up, or
    with the connection state it was entered with: when it does not return,
    and when the last startup swallowed a cancellation. *)
Lemma _get_reconn_loop_outcome n fuel :
  forall d k (w : World),
    let r := _get_reconn_loop env cls n fuel d k w in
    match fst r with
    | Return _ =>
        create_stream (self (snd r)) = false /\
        ((stream_status (self (snd r)) = ACTIVE /\
          shards_status (self (snd r)) = INITIALIZE)
         \/
         ((exists j, cm_expired env j = false) /\
          (close_keeps cls (@stream_status Shard) ->
           stream_status (self (snd r)) = stream_status (self w))))
    | _ =>
        close_keeps cls (@stream_status Shard) ->
        stream_status (self (snd r)) = stream_status (self w)
    end.
Proof.
  induction n as [|n IH]; intros d k w; [simpl; auto|].
  cbv zeta.
  apply _get_reconn_loop_cases
    with (P := fun rw : Result unit * World =>
                 match fst rw with
                 | Return _ =>
                     create_stream (self (snd rw)) = false /\
                     ((stream_status (self (snd rw)) = ACTIVE /\
                       shards_status (self (snd rw)) = INITIALIZE)
                      \/
                      ((exists j, cm_expired env j = false) /\
                       (close_keeps cls (@stream_status Shard) ->
                        stream_status (self (snd rw))
                        = stream_status (self w))))
                 | _ =>
                     close_keeps cls (@stream_status Shard) ->
                     stream_status (self (snd rw)) = stream_status (self w)
                 end).
  - intros w2 Hst. simpl.
    destruct (start_outcome _ _ Hst) as (_ & _ & _ & _ & _ & O1 & O2).
    split; [assumption|].
    destruct O2 as [(A1 & A2 & _) | (B1 & B2)].
    + left. split; assumption.
    + right. split; [now exists (n_describe w2)|]. intros _.
      apply (conn_state_stream_status B1).
  - intros r w2 Hst Hr.
    destruct (start_outcome _ _ Hst) as (_ & _ & _ & _ & _ & O).
    destruct r as [[]| e | |]; [contradiction| | |]; simpl; intros _;
      apply (conn_state_stream_status O).
  - intros e w2 Hst He Hs w3.
    destruct (start_outcome _ _ Hst) as (_ & _ & _ & _ & _ & O).
    apply conn_state_stream_status in O. simpl in O.
    assert (G : close_keeps cls (@stream_status Shard) ->
                stream_status (self w3) = stream_status (self w))
      by (intro K; unfold w3, after_method; simpl; now rewrite K).
    destruct (method_result (close_impl cls) (logged (LogWarning e) w2))
      as [[]| e1 | |]; try exact G.
    destruct (limit_reached (self w2) k); [exact G|].
    specialize (IH (next_backoff_delay (self w2) d (k + 1)) (k + 1) w3).
    cbv zeta in IH.
    destruct (fst (_get_reconn_loop env cls n fuel
                     (next_backoff_delay (self w2) d (k + 1)) (k + 1) w3));
      [| | |]; try (intro K; rewrite (IH K); now apply G).
    destruct IH as [I1 [I2 | [I2 I3]]]; (split; [assumption|]);
      [now left | right].
    split; [assumption|]. intro K. rewrite (I3 K). now apply G.
Qed.

(** X6.  How the reconnect procedure ends.  Where every cancellation is
    reported by [cm.expired], a procedure that returns has a connection:
    the state is [ACTIVE], the shards are to be initialised and no stream is
    left to create.  A procedure that does not return (it raises, as on an
    exhausted retry limit or a missing stream, or is out of budget) leaves
    the connection state [RECONNECT], provided [close] leaves that field
    alone.  And under that proviso alone a procedure that returns leaves the
    state [ACTIVE] or [RECONNECT]: the latter when its last startup
    swallowed a cancellation. *)
Theorem _get_reconn_helper_end_state fuel (w : World) :
  let r := _get_reconn_helper env cls fuel w in
  (cancellation_reported env ->
   fst r = Return tt ->
   stream_status (self (snd r)) = ACTIVE /\
   shards_status (self (snd r)) = INITIALIZE /\
   create_stream (self (snd r)) = false) /\
  (close_keeps cls (@stream_status Shard) ->
   fst r <> Return tt ->
   stream_status (self (snd r)) = RECONNECT) /\
  (close_keeps cls (@stream_status Shard) ->
   fst r = Return tt ->
   stream_status (self (snd r)) = ACTIVE \/
   stream_status (self (snd r)) = RECONNECT).
Proof.
  cbv zeta. rewrite _get_reconn_helper_eq. cbv zeta.
  set (w0 := with_self (set_stream_status RECONNECT (self w)) w).
  set (w1 := after_method (close_impl cls) EvClose w0).
  assert (G : close_keeps cls (@stream_status Shard) ->
              stream_status (self w1) = RECONNECT)
    by (intro K; unfold w1, after_method; simpl; now rewrite K).
  pose proof (_get_reconn_loop_outcome fuel fuel 5 1 w1) as L.
  cbv zeta in L.
  destruct (method_result (close_impl cls) w0) as [[]| e | |];
    try (split; [discriminate | split; [intros K _; now apply G
                                       | discriminate]]).
  destruct (_get_reconn_loop env cls fuel fuel 5 1 w1) as [[[]| e | |] w2];
    cbn [fst snd] in *;
    try (split; [discriminate
                | split; [intros K _; rewrite (L K); now apply G
                         | discriminate]]).
  destruct L as [L1 [[L2 L3] | [[j Lj] L2]]].
  - split; [intros _ _; repeat split; assumption|].
    split; [intros _ Hn; now contradiction Hn | intros _ _; now left].
  - split; [intros Hr _; rewrite (Hr j) in Lj; discriminate|].
    split; [intros _ Hn; now contradiction Hn|].
    intros K _. right. rewrite (L2 K). now apply G.
Qed.

(** ** [get_conn] after a reconnect that failed *)

(** In a connection state other than [INITIALIZE] and [ACTIVE], [get_conn]
    writes its log line and returns. *)
Lemma get_conn_idle fuel (w : World) :
  _conn_lock (self w) = false ->
  stream_status (self w) <> INITIALIZE ->
  stream_status (self w) <> ACTIVE ->
  get_conn env cls fuel w
  = (Return tt, logged (LogGetConnection (stream_status (self w))) w).
Proof.
  intros Hl Hi Ha. rewrite get_conn_entered by assumption.
  apply String.eqb_neq in Hi, Ha. rewrite Hi, Ha.
  unfold ret, conn_lock_exit, entered, logged, with_trace, with_self.
  simpl. now rewrite unlock_lock.
Qed.

Lemma get_conn_times_idle fuel k :
  forall w : World,
    _conn_lock (self w) = false ->
    stream_status (self w) <> INITIALIZE ->
    stream_status (self w) <> ACTIVE ->
    self (get_conn_times env cls fuel k w) = self w /\
    without_logs (trace (get_conn_times env cls fuel k w))
    = without_logs (trace w).
Proof.
  induction k as [|k IH]; intros w Hl Hi Ha; [split; reflexivity|].
  cbn [get_conn_times]. rewrite get_conn_idle by assumption. cbn [snd].
  destruct (IH (logged (LogGetConnection (stream_status (self w))) w))
    as [I1 I2]; try assumption.
  rewrite I1, I2. simpl. rewrite without_logs_snoc. simpl.
  now rewrite app_nil_r.
Qed.

(** An exception that leaves [async with self._conn_lock] was raised inside
    it, with the lock held. *)
Lemma conn_lock_exit_Raise {A} (r : Result A * World) e :
  e <> RuntimeError ->
  fst (conn_lock_exit r) = Raise e ->
  fst r = Raise e /\ snd (conn_lock_exit r) = released (snd r).
Proof.
  intro Hr. unfold conn_lock_exit.
  destruct r as [[a| e0 | |] w]; cbn [fst snd];
    try (destruct (_conn_lock (self w))); cbn [fst snd];
    try discriminate; intro E; try (split; [assumption | reflexivity]);
    injection E as <-; contradiction.
Qed.

Lemma _get_reconn_helper_Raise fuel (w : World) e :
  close_keeps cls (@stream_status Shard) ->
  fst (_get_reconn_helper env cls fuel w) = Raise e ->
  stream_status (self (snd (_get_reconn_helper env cls fuel w))) = RECONNECT.
Proof.
  intros K H. rewrite _get_reconn_helper_eq in *. cbv zeta in *.
  set (w0 := with_self (set_stream_status RECONNECT (self w)) w) in *.
  set (w1 := after_method (close_impl cls) EvClose w0) in *.
  assert (G : stream_status (self w1) = RECONNECT)
    by (unfold w1, after_method; simpl; now rewrite K).
  pose proof (_get_reconn_loop_outcome fuel fuel 5 1 w1) as L.
  cbv zeta in L.
  destruct (method_result (close_impl cls) w0) as [[]| e1 | |];
    try exact G.
  rewrite H in L. now rewrite (L K).
Qed.

(** X7.  Once [get_conn] has raised [ConnectionError] the instance is
    disconnected for good.  The connection state is [RECONNECT] (when
    [close] leaves the field alone) and the lock is free; from then on every
    call of [get_conn] returns at once: however many calls follow, the
    fields of the instance stay as they are and nothing but log lines is
    added to the trace: no client is built, nothing is closed, the service
    is not called. *)
Theorem get_conn_after_ConnectionError fuel (w : World) :
  close_keeps cls (@stream_status Shard) ->
  fst (get_conn env cls fuel w) = Raise ConnectionError ->
  let w' := snd (get_conn env cls fuel w) in
  stream_status (self w') = RECONNECT /\
  _conn_lock (self w') = false /\
  forall fuel' k,
    fst (get_conn env cls fuel' (get_conn_times env cls fuel' k w'))
    = Return tt /\
    self (get_conn_times env cls fuel' k w') = self w' /\
    without_logs (trace (get_conn_times env cls fuel' k w'))
    = without_logs (trace w').
Proof.
  intros K H w'.
  assert (G : stream_status (self w') = RECONNECT /\
              _conn_lock (self w') = false).
  { subst w'.
    destruct (_conn_lock (self w)) eqn:Hl.
    { unfold get_conn, with_conn_lock in H. rewrite Hl in H. discriminate. }
    rewrite get_conn_entered in * by assumption.
    apply conn_lock_exit_Raise in H; [|discriminate].
    destruct H as [H ->]. simpl. split; [|reflexivity].
    destruct (stream_status (self w) =? INITIALIZE)%string.
    - unfold try_except in *.
      destruct ((start env fuel ;; log LogInitialized) (entered w))
        as [[[]| e | |] w2]; try discriminate.
      destruct (is_StreamDoesNotExist e) eqn:Es.
      + destruct e; discriminate.
      + destruct (is_Exception e) eqn:Ee.
        * erewrite bind_Return in * by reflexivity.
          now apply _get_reconn_helper_Raise with (e := ConnectionError).
        * unfold raise in H. cbn [fst] in H. injection H as ->.
          discriminate.
    - destruct (stream_status (self w) =? ACTIVE)%string; [|discriminate].
      rewrite time_monotonic_bind in *.
      match type of H with
      | context [Qgtb ?a ?b] => destruct (Qgtb a b); [|discriminate]
      end.
      now apply _get_reconn_helper_Raise with (e := ConnectionError). }
  destruct G as [G1 G2]. split; [assumption|]. split; [assumption|].
  intros fuel' k.
  destruct (@get_conn_times_idle fuel' k w') as [I1 I2];
    try assumption; try (rewrite G1; discriminate).
  split; [|split; assumption].
  rewrite get_conn_idle; [reflexivity | | |]; rewrite I1;
    try assumption; rewrite G1; discriminate.
Qed.

(** ** Any retry limit *)

(** The loop at attempt number [k], with [j] more attempts to go before the
    limit [L] is reached, all of them failing. *)
Lemma _get_reconn_loop_gives_up L j :
  close_returns cls ->
  close_keeps cls (@retry_limit Shard) ->
  close_keeps cls (@create_stream Shard) ->
  forall n fuel d k (w : World),
    (j < n)%nat ->
    1 <= k ->
    k + Z.of_nat j = Z.max 1 L ->
    retry_limit (self w) = Some L ->
    create_stream (self w) = false ->
    (forall i, (i <= j)%nat ->
       retryable (describe_stream env (n_describe w + i)) = true) ->
    let r := _get_reconn_loop env cls n (S fuel) d k w in
    fst r = Raise ConnectionError /\
    attempts (trace (snd r)) = (attempts (trace w) + S j)%nat.
Proof.
  intros Kr Kl Kc.
  induction j as [|j IH]; intros n fuel d k w Hn Hk Hj Hl Hc Hf;
    (destruct n as [|n]; [lia|]);
    destruct (@failed_iteration n fuel d k w Kr Kl Kc Hc)
      as (w3 & d' & L3 & C3 & D3 & A3 & E);
    try (rewrite <- (Nat.add_0_r (n_describe w)); apply Hf; lia);
    cbv zeta; rewrite E; unfold limit_reached; rewrite Hl.
  - replace (k + 1 >=? L + 1) with true
      by (symmetry; apply Z.geb_le; lia).
    split; [reflexivity|]. cbn [snd]. rewrite A3. lia.
  - replace (k + 1 >=? L + 1) with false
      by (symmetry; rewrite Z.geb_leb; apply Z.leb_gt; lia).
    destruct (IH n fuel d' (k + 1) w3) as [R1 R2]; try lia.
    + congruence.
    + exact C3.
    + intros i Hi. rewrite D3. simpl. rewrite <- Nat.add_succ_r.
      apply Hf. lia.
    + split; [exact R1|]. rewrite R2, A3. lia.
Qed.

(** X8.  With a retry limit [L], a [close] that returns and leaves
    [retry_limit] and [create_stream] alone, and no stream to create: when
    every startup of the reconnect procedure fails with a retried error, the
    procedure raises [ConnectionError] after exactly [max 1 L] attempts.  A
    limit of zero or below still makes one attempt. *)
Theorem retry_limit_counts_attempts L fuel (w : World) :
  close_returns cls ->
  close_keeps cls (@retry_limit Shard) ->
  close_keeps cls (@create_stream Shard) ->
  retry_limit (self w) = Some L ->
  create_stream (self w) = false ->
  (Z.to_nat (Z.max 1 L) <= fuel)%nat ->
  (forall i, (i < Z.to_nat (Z.max 1 L))%nat ->
     retryable (describe_stream env (n_describe w + i)) = true) ->
  let r := _get_reconn_helper env cls fuel w in
  fst r = Raise ConnectionError /\
  attempts (trace (snd r)) = (attempts (trace w) + Z.to_nat (Z.max 1 L))%nat.
Proof.
  intros Kr Kl Kc Hl Hc Hfuel Hf.
  destruct (@_get_reconn_helper_enters fuel w Kr Kl Kc)
    as (w1 & E & L1 & C1 & D1 & A1).
  cbv zeta. rewrite E.
  destruct fuel as [|f]; [lia|].
  destruct (@_get_reconn_loop_gives_up L (Z.to_nat (Z.max 1 L) - 1)
              Kr Kl Kc (S f) f 5 1 w1) as [R1 R2];
    try lia; try congruence.
  - intros i Hi. rewrite D1. apply Hf. lia.
  - split; [exact R1|]. rewrite R2, A1. lia.
Qed.

(** ** Any backoff base and ceiling *)

Lemma code_delay_next (b : Base) j :
  (1 <= j)%nat ->
  next_backoff_delay b (code_delay (expo_backoff b) (expo_backoff_limit b) j)
    (Z.of_nat j + 1)
  = code_delay (expo_backoff b) (expo_backoff_limit b) (S j).
Proof.
  intro Hj. unfold next_backoff_delay, code_delay.
  destruct j as [|j]; [lia|].
  destruct (expo_backoff b) as [base|]; [|now destruct j].
  destruct (base =? 0); [now destruct j|].
  replace (Z.of_nat (S j) + 1) with (Z.of_nat (S (S j))) by lia.
  destruct (Z.of_nat (S (S j)) ^ 2 * base >=? expo_backoff_limit b) eqn:E.
  - apply Z.geb_le in E. lia.
  - rewrite Z.geb_leb in E. apply Z.leb_gt in E. lia.
Qed.

(** The loop entered at attempt [j] with the delay [code_delay] gives for
    it: the [m] attempts it makes sleep for the delays of attempts
    [j], [j+1], ... *)
Lemma _get_reconn_loop_code_delays n fuel base ceiling :
  close_keeps cls (@expo_backoff Shard) ->
  close_keeps cls (@expo_backoff_limit Shard) ->
  forall j (w : World),
    (1 <= j)%nat ->
    expo_backoff (self w) = base ->
    expo_backoff_limit (self w) = ceiling ->
    let w' := snd (_get_reconn_loop env cls n fuel (code_delay base ceiling j)
                     (Z.of_nat j) w) in
    exists m,
      backoff_sleeps (trace w')
      = backoff_sleeps (trace w) ++ map (code_delay base ceiling) (seq j m) /\
      attempts (trace w') = (attempts (trace w) + m)%nat.
Proof.
  intros Kb Kl. induction n as [|n IH]; intros j w Hj Hb Hl w'.
  { exists O. subst w'. simpl. now rewrite app_nil_r, Nat.add_0_r. }
  subst w'.
  set (dj := code_delay base ceiling j).
  destruct (slept_stamped_view dj (Z.of_nat j) w) as (Vb & Vl & Vs & Va).
  destruct (start_leaves fuel (slept dj (Z.of_nat j) (stamped env w)))
    as (_ & Sb & Sl & _ & _ & _ & Ss & _).
  pose proof (start_attempts fuel (slept dj (Z.of_nat j) (stamped env w)))
    as Sa.
  (* a run that ends in this iteration has made one attempt *)
  assert (One : forall r (w2 w3 : World),
             start env fuel (slept dj (Z.of_nat j) (stamped env w))
             = (r, w2) ->
             backoff_sleeps (trace w3) = backoff_sleeps (trace w2) ->
             attempts (trace w3) = attempts (trace w2) ->
             exists m,
               backoff_sleeps (trace w3)
               = backoff_sleeps (trace w)
                 ++ map (code_delay base ceiling) (seq j m) /\
               attempts (trace w3) = (attempts (trace w) + m)%nat).
  { intros r w2 w3 Hst E1 E2.
    rewrite Hst in Ss, Sa. cbn [snd] in Ss, Sa.
    exists 1%nat. rewrite E1, E2, Ss, Sa, Vs, Va.
    split; [reflexivity | lia]. }
  apply _get_reconn_loop_cases
    with (P := fun rw =>
                 exists m,
                   backoff_sleeps (trace (snd rw))
                   = backoff_sleeps (trace w)
                     ++ map (code_delay base ceiling) (seq j m) /\
                   attempts (trace (snd rw)) = (attempts (trace w) + m)%nat).
  - intros w2 Hst. apply (One _ _ _ Hst); simpl.
    + rewrite backoff_sleeps_snoc. apply app_nil_r.
    + rewrite attempts_snoc. simpl. lia.
  - intros r w2 Hst _. now apply (One _ _ _ Hst).
  - intros e w2 Hst He Hs w3.
    destruct (closed_view e w2) as (Cs & Ca). fold w3 in Cs, Ca.
    destruct (method_result (close_impl cls) (logged (LogWarning e) w2));
      try (now apply (One _ _ _ Hst)).
    destruct (limit_reached (self w2) (Z.of_nat j));
      [now apply (One _ _ _ Hst)|].
    rewrite Hst in Sb, Sl, Ss, Sa. cbn [snd] in Sb, Sl, Ss, Sa.
    assert (Hb2 : expo_backoff (self w2) = base) by congruence.
    assert (Hl2 : expo_backoff_limit (self w2) = ceiling) by congruence.
    pose proof (@code_delay_next (self w2) j Hj) as Nx.
    rewrite Hb2, Hl2 in Nx. fold dj in Nx. rewrite Nx.
    replace (Z.of_nat j + 1) with (Z.of_nat (S j)) by lia.
    destruct (IH (S j) w3) as (m & Ms & Ma).
    + lia.
    + unfold w3, after_method; simpl. rewrite Kb. exact Hb2.
    + unfold w3, after_method; simpl. rewrite Kl. exact Hl2.
    + exists (S m). rewrite Ms, Ma.
      rewrite Cs, Ca, Ss, Sa, Vs, Va. simpl. rewrite <- app_assoc.
      split; [reflexivity | lia].
Qed.

(** X9.  Whatever the backoff base and ceiling (and with a [close] that
    leaves the two settings alone), the backoff sleeps of a run of the
    reconnect procedure are those of [code_delay]: before the first attempt
    always 5 seconds, even under a ceiling below 5; before attempt [n >= 2]
    the square of [n] times the base, cut at the ceiling; and 5 seconds
    before every attempt when there is no base or the base is zero. *)
Theorem backoff_delays_any_base fuel (w : World) :
  close_keeps cls (@expo_backoff Shard) ->
  close_keeps cls (@expo_backoff_limit Shard) ->
  let delay := code_delay (expo_backoff (self w)) (expo_backoff_limit (self w)) in
  let w' := snd (_get_reconn_helper env cls fuel w) in
  (exists m,
     backoff_sleeps (trace w')
     = backoff_sleeps (trace w) ++ map delay (seq 1 m) /\
     attempts (trace w') = (attempts (trace w) + m)%nat) /\
  delay 1%nat = 5 /\
  (forall base n,
     expo_backoff (self w) = Some base -> base <> 0 -> (2 <= n)%nat ->
     delay n = Z.min (Z.of_nat n ^ 2 * base) (expo_backoff_limit (self w))) /\
  (expo_backoff (self w) = None \/ expo_backoff (self w) = Some 0 ->
   forall n, delay n = 5).
Proof.
  intros Kb Kl delay w'. subst delay w'. split; [|split; [|split]].
  - rewrite _get_reconn_helper_eq. cbv zeta.
    set (w0 := with_self (set_stream_status RECONNECT (self w)) w).
    assert (Cs : backoff_sleeps
                   (trace (after_method (close_impl cls) EvClose w0))
                 = backoff_sleeps (trace w)).
    { unfold after_method; simpl. rewrite backoff_sleeps_snoc.
      apply app_nil_r. }
    assert (Ca : attempts (trace (after_method (close_impl cls) EvClose w0))
                 = attempts (trace w)).
    { unfold after_method; simpl. rewrite attempts_snoc. simpl. lia. }
    destruct (method_result (close_impl cls) w0);
      try (exists O; cbn [snd map seq];
           rewrite Cs, Ca, app_nil_r, Nat.add_0_r; split; reflexivity).
    destruct (@_get_reconn_loop_code_delays fuel fuel
                (expo_backoff (self w)) (expo_backoff_limit (self w))
                Kb Kl 1%nat
                (after_method (close_impl cls) EvClose w0)) as (m & Ms & Ma).
    + lia.
    + unfold after_method; simpl. now rewrite Kb.
    + unfold after_method; simpl. now rewrite Kl.
    + exists m. change (Z.of_nat 1) with 1 in Ms, Ma.
      change (code_delay (expo_backoff (self w))
                (expo_backoff_limit (self w)) 1) with 5 in Ms, Ma.
      rewrite Ms, Ma, Cs, Ca. split; reflexivity.
  - reflexivity.
  - intros base n Hb Hn0 Hn. unfold code_delay. rewrite Hb.
    destruct n as [|[|n]]; try lia.
    apply Z.eqb_neq in Hn0. now rewrite Hn0.
  - intros [Hb | Hb] n; unfold code_delay; rewrite Hb;
      now destruct n as [|[|n]].
Qed.

(** ** Clients built and clients closed *)

(** The loop closes the client of every attempt that fails and is retried,
    and the one of the attempt on which it gives up. *)
Lemma _get_reconn_loop_closes n fuel :
  close_returns cls ->
  forall d k (w : World),
    let r := _get_reconn_loop env cls n fuel d k w in
    exists m,
      attempts (trace (snd r)) = (attempts (trace w) + m)%nat /\
      match fst r with
      | Return _ =>
          (1 <= m)%nat /\
          (closes (trace (snd r)) + 1 = closes (trace w) + m)%nat
      | Raise e =>
          (1 <= m)%nat /\
          (e = ConnectionError ->
           closes (trace (snd r)) = (closes (trace w) + m)%nat) /\
          (e <> ConnectionError ->
           (closes (trace (snd r)) + 1 = closes (trace w) + m)%nat)
      | _ => True
      end.
Proof.
  intro Kr. induction n as [|n IH]; intros d k w.
  { exists O. simpl. split; [lia | exact I]. }
  cbv zeta.
  destruct (start_leaves fuel (slept d k (stamped env w)))
    as (_ & _ & _ & _ & _ & _ & _ & Sc).
  pose proof (start_attempts fuel (slept d k (stamped env w))) as Sa.
  assert (Va : attempts (trace (slept d k (stamped env w)))
               = attempts (trace w))
    by (unfold slept, stamped; simpl; rewrite !attempts_snoc; simpl; lia).
  assert (Vc : closes (trace (slept d k (stamped env w)))
               = closes (trace w))
    by (unfold slept, stamped; simpl; rewrite !closes_snoc; simpl; lia).
  apply _get_reconn_loop_cases
    with (P := fun rw : Result unit * World =>
                 exists m,
                   attempts (trace (snd rw)) = (attempts (trace w) + m)%nat /\
                   match fst rw with
                   | Return _ =>
                       (1 <= m)%nat /\
                       (closes (trace (snd rw)) + 1
                        = closes (trace w) + m)%nat
                   | Raise e =>
                       (1 <= m)%nat /\
                       (e = ConnectionError ->
                        closes (trace (snd rw))
                        = (closes (trace w) + m)%nat) /\
                       (e <> ConnectionError ->
                        (closes (trace (snd rw)) + 1
                         = closes (trace w) + m)%nat)
                   | _ => True
                   end).
  - intros w2 Hst. rewrite Hst in Sc, Sa. cbn [snd] in Sc, Sa.
    exists 1%nat. simpl. rewrite attempts_snoc, closes_snoc. simpl.
    repeat split; lia.
  - intros r w2 Hst Hr. rewrite Hst in Sc, Sa. cbn [snd] in Sc, Sa.
    exists 1%nat. cbn [fst snd]. split; [lia|].
    destruct r as [[]| e | |]; [contradiction| |exact I|exact I].
    split; [lia|]. split; [|lia].
    intros ->. destruct Hr; discriminate.
  - intros e w2 Hst He Hs w3. rewrite Hst in Sc, Sa. cbn [snd] in Sc, Sa.
    assert (Ca : attempts (trace w3) = (attempts (trace w) + 1)%nat)
      by (unfold w3, after_method, logged; simpl;
          rewrite !attempts_snoc; simpl; lia).
    assert (Cc : closes (trace w3) = (closes (trace w) + 1)%nat)
      by (unfold w3, after_method, logged; simpl;
          rewrite !closes_snoc; simpl; lia).
    unfold method_result. rewrite Kr.
    destruct (limit_reached (self w2) k).
    + exists 1%nat. cbn [fst snd]. repeat split; try lia.
      intro H. now contradiction H.
    + destruct (IH (next_backoff_delay (self w2) d (k + 1)) (k + 1) w3)
        as (m & Ma & Mc).
      exists (S m). split; [lia|].
      destruct (fst (_get_reconn_loop env cls n fuel
                       (next_backoff_delay (self w2) d (k + 1)) (k + 1) w3))
        as [[]| e1 | |]; try exact I.
      * destruct Mc. split; lia.
      * destruct Mc as (M1 & M2 & M3). split; [lia|].
        split; intro H; [rewrite (M2 H) | pose proof (M3 H)]; lia.
Qed.


(** ** The cooldown *)

(** The first iteration of the loop reads the clock, sleeps for the delay
    it was entered with and starts up, whatever comes next. *)
Lemma _get_reconn_loop_first_step n fuel :
  (forall d k (w : World),
     grown [] w (snd (_get_reconn_loop env cls n fuel d k w))) ->
  forall d k (w : World),
    grown [d] w (snd (_get_reconn_loop env cls (S n) fuel d k w)).
Proof.
  intros G d k w.
  destruct (start_leaves fuel (slept d k (stamped env w)))
    as (_ & _ & _ & _ & _ & Sm & Ss & Sc).
  pose proof (start_attempts fuel (slept d k (stamped env w))) as Sa.
  assert (Vs : backoff_sleeps (trace (slept d k (stamped env w)))
               = backoff_sleeps (trace w) ++ [d])
    by (unfold slept, stamped; simpl; rewrite !backoff_sleeps_snoc; simpl;
        now rewrite app_nil_r).
  assert (Va : attempts (trace (slept d k (stamped env w)))
               = attempts (trace w))
    by (unfold slept, stamped; simpl; rewrite !attempts_snoc; simpl; lia).
  assert (Vc : closes (trace (slept d k (stamped env w)))
               = closes (trace w))
    by (unfold slept, stamped; simpl; rewrite !closes_snoc; simpl; lia).
  (* a world that differs from the one the startup left by log lines and
     calls of [close] *)
  assert (One : forall r (w2 w3 : World),
             start env fuel (slept d k (stamped env w)) = (r, w2) ->
             backoff_sleeps (trace w3) = backoff_sleeps (trace w2) ->
             attempts (trace w3) = attempts (trace w2) ->
             (closes (trace w2) <= closes (trace w3))%nat ->
             n_monotonic w3 = n_monotonic w2 ->
             grown [d] w w3).
  { intros r w2 w3 Hst E1 E2 E3 E4.
    rewrite Hst in Sm, Ss, Sc, Sa. cbn [snd] in Sm, Ss, Sc, Sa.
    unfold grown. rewrite E1, E2, E4, Ss, Sa, Sm, Vs, Va.
    repeat split; simpl; try lia.
    now exists []. }
  apply _get_reconn_loop_cases
    with (P := fun rw : Result unit * World => grown [d] w (snd rw)).
  - intros w2 Hst. apply (One _ _ _ Hst); simpl;
      rewrite ?backoff_sleeps_snoc, ?attempts_snoc, ?closes_snoc; simpl;
      rewrite ?app_nil_r; lia || reflexivity.
  - intros r w2 Hst _. apply (One _ _ _ Hst); reflexivity || lia.
  - intros e w2 Hst He Hs w3.
    assert (G3 : grown [d] w w3).
    { apply (One _ _ _ Hst); unfold w3, after_method, logged; simpl;
        rewrite ?backoff_sleeps_snoc, ?attempts_snoc, ?closes_snoc; simpl;
        rewrite ?app_nil_r; lia || reflexivity. }
    destruct (method_result (close_impl cls) (logged (LogWarning e) w2));
      try exact G3.
    destruct (limit_reached (self w2) k); [exact G3|].
    destruct G3 as ((rest & Gs) & Ga & Gc & Gm).
    destruct (G (next_backoff_delay (self w2) d (k + 1)) (k + 1) w3)
      as ((rest' & Hs') & Ha' & Hc' & Hm').
    unfold grown. simpl in *. repeat split; try lia.
    exists (rest ++ rest'). rewrite Hs', Gs.
    now rewrite <- !app_assoc.
Qed.

Lemma _get_reconn_loop_grows n fuel :
  forall d k (w : World),
    grown [] w (snd (_get_reconn_loop env cls n fuel d k w)).
Proof.
  induction n as [|n IH]; intros d k w.
  - unfold grown. simpl. repeat split; try lia.
    exists []. now rewrite app_nil_r.
  - destruct (@_get_reconn_loop_first_step n fuel IH d k w)
      as ((rest & Hs) & Ha & Hc & Hm).
    unfold grown. simpl in *. repeat split; try lia.
    now exists (d :: rest).
Qed.

Lemma conn_lock_exit_trace {A} (r : Result A * World) :
  trace (snd (conn_lock_exit r)) = trace (snd r) /\
  n_monotonic (snd (conn_lock_exit r)) = n_monotonic (snd r).
Proof.
  unfold conn_lock_exit.
  destruct r as [[a| e | |] w]; cbn [fst snd];
    try (destruct (_conn_lock (self w))); split; reflexivity.
Qed.

(** C8 (amended).  [get_conn] on an [ACTIVE] connection with the lock
    free.  The cooldown test is made on the float difference of the clock
    reading and [_reconnect_timeout].
    While that difference is no more than 120, as it is whenever no more
    than 120 seconds have passed, the call returns at once, having changed
    no field of the instance and done nothing but read the clock and write a
    log line (no [close], no client, no sleep, no call of the service).
    Once the difference is more than 120, as it is whenever [120 + 2^-46]
    seconds or more have passed, the call runs the reconnect procedure under
    the connection lock, for all to see: [close] is called; and when [close]
    returns (and there is budget for one iteration), the clock is read
    again, there is a backoff sleep of 5 seconds, and a connection attempt
    is made.
    In between, for a time above 120 seconds by less than [2^-46], the
    rounding of the difference decides. *)
Theorem get_conn_cooldown fuel (w : World) :
  stream_status (self w) = ACTIVE ->
  _conn_lock (self w) = false ->
  let now := monotonic env (n_monotonic w) in
  let elapsed := float_sub now (_reconnect_timeout (self w)) in
  let w' := snd (get_conn env cls fuel w) in
  ((now - _reconnect_timeout (self w) <= inject_Z 120)%Q \/
   (elapsed <= inject_Z 120)%Q ->
   get_conn env cls fuel w = (Return tt, glanced w)) /\
  ((inject_Z 120 + ulp_120 <= now - _reconnect_timeout (self w))%Q \/
   (inject_Z 120 < elapsed)%Q ->
   get_conn env cls fuel w =
   with_conn_lock (_get_reconn_helper env cls fuel) (glanced w) /\
   (S (closes (trace w)) <= closes (trace w'))%nat /\
   (close_returns cls -> (1 <= fuel)%nat ->
    (S (attempts (trace w)) <= attempts (trace w'))%nat /\
    (exists rest,
       backoff_sleeps (trace w') = backoff_sleeps (trace w) ++ 5 :: rest) /\
    (n_monotonic w + 2 <= n_monotonic w')%nat)).
Proof.
  intros Hs Hl now elapsed w'.
  destruct (get_conn_on_ACTIVE fuel w Hs Hl) as [Noop Reconn].
  fold now elapsed in Noop, Reconn.
  split.
  - intros [H | H]; apply Noop; [|exact H].
    now apply float_sub_le_120.
  - intro H.
    assert (H' : (inject_Z 120 < elapsed)%Q)
      by (destruct H as [H | H]; [now apply float_sub_gt_120 | exact H]).
    clear H. specialize (Reconn H'). split; [exact Reconn|].
    subst w'. rewrite Reconn.
    unfold with_conn_lock.
    change (_conn_lock (self (glanced w))) with (_conn_lock (self w)).
    rewrite Hl.
    set (w1 := with_self (set_conn_lock true (self (glanced w))) (glanced w)).
    destruct (conn_lock_exit_trace (_get_reconn_helper env cls fuel w1))
      as [Et Em].
    rewrite Et, Em. clear Et Em.
    assert (Ta : attempts (trace w1) = attempts (trace w))
      by (unfold w1, glanced; simpl; rewrite attempts_snoc; simpl; lia).
    assert (Tc : closes (trace w1) = closes (trace w))
      by (unfold w1, glanced; simpl; rewrite closes_snoc; simpl; lia).
    assert (Ts : backoff_sleeps (trace w1) = backoff_sleeps (trace w))
      by (unfold w1, glanced; simpl; rewrite backoff_sleeps_snoc;
          apply app_nil_r).
    assert (Tm : n_monotonic w1 = S (n_monotonic w)) by reflexivity.
    clearbody w1.
    rewrite _get_reconn_helper_eq. cbv zeta.
    set (w2 := after_method (close_impl cls) EvClose
                 (with_self (set_stream_status RECONNECT (self w1)) w1)).
    assert (Ca : attempts (trace w2) = attempts (trace w))
      by (unfold w2, after_method; simpl; rewrite attempts_snoc, Ta;
          simpl; lia).
    assert (Cc : closes (trace w2) = S (closes (trace w)))
      by (unfold w2, after_method; simpl; rewrite closes_snoc, Tc;
          simpl; lia).
    assert (Cs : backoff_sleeps (trace w2) = backoff_sleeps (trace w))
      by (unfold w2, after_method; simpl; rewrite backoff_sleeps_snoc, Ts;
          apply app_nil_r).
    assert (Cm : n_monotonic w2 = S (n_monotonic w)) by exact Tm.
    clearbody w2.
    assert (Hm : close_returns cls ->
                 method_result (close_impl cls)
                   (with_self (set_stream_status RECONNECT (self w1)) w1)
                 = Return tt)
      by (intro Kr; unfold method_result; now rewrite Kr).
    destruct (method_result (close_impl cls)
                (with_self (set_stream_status RECONNECT (self w1)) w1))
      as [[]| e | |]; cbn [snd];
      try (split; [lia | intros Kr _; specialize (Hm Kr); discriminate]).
    split.
    + destruct (_get_reconn_loop_grows fuel fuel 5 1 w2) as (_ & _ & G & _).
      lia.
    + intros _ Hf.
      destruct fuel as [|f]; [lia|].
      destruct (@_get_reconn_loop_first_step f (S f)
                  (_get_reconn_loop_grows f (S f)) 5 1 w2)
        as ((rest & Gs) & Ga & _ & Gm).
      cbn [length app Nat.add] in Ga, Gm, Gs. split; [lia|]. split; [|lia].
      exists rest. rewrite Gs, Cs. reflexivity.
Qed.

(** ** A shard count below one *)

Lemma start_below_one_shard fuel (w : World) :
  create_stream (self w) = true ->
  create_stream_shards (self w) < 1 ->
  exists w2 : World,
    start env fuel w = (Raise MinShardCount, w2) /\
    self w2 = set_client (Some (n_client w)) (self w) /\
    n_create w2 = n_create w /\
    n_describe w2 = n_describe w /\
    attempts (trace w2) = S (attempts (trace w)).
Proof.
  intros Hc Hlt. apply Z.ltb_lt in Hlt.
  unfold start, start_after_client, get_client, _create_stream, bind,
    get_self, log, emit, raise. simpl.
  rewrite Hc. simpl. rewrite Hlt. simpl.
  eexists. split; [reflexivity|]. simpl.
  rewrite !attempts_snoc. simpl. repeat split. lia.
Qed.

(** X11.  An instance asked to create its stream with a shard count below
    one, and without a retry limit, never reconnects: whatever the budget,
    the reconnect procedure is still looping when the budget is used up,
    having made one attempt per unit of budget and no call to the service at
    all.  ([close] is taken to return and to leave the three settings
    alone.) *)
Theorem below_one_shard_never_connects fuel (w : World) :
  close_returns cls ->
  close_keeps cls
    (fun b => (create_stream b, create_stream_shards b, retry_limit b)) ->
  create_stream (self w) = true ->
  create_stream_shards (self w) < 1 ->
  retry_limit (self w) = None ->
  let r := _get_reconn_helper env cls fuel w in
  fst r = OutOfFuel /\
  attempts (trace (snd r)) = (attempts (trace w) + fuel)%nat /\
  n_create (snd r) = n_create w /\
  n_describe (snd r) = n_describe w.
Proof.
  intros Kr Kk Hc Hlt Hl.
  assert (Loop : forall n d k (w1 : World),
             create_stream (self w1) = true ->
             create_stream_shards (self w1) < 1 ->
             retry_limit (self w1) = None ->
             let r := _get_reconn_loop env cls n fuel d k w1 in
             fst r = OutOfFuel /\
             attempts (trace (snd r)) = (attempts (trace w1) + n)%nat /\
             n_create (snd r) = n_create w1 /\
             n_describe (snd r) = n_describe w1).
  { induction n as [|n IH]; intros d k w1 Hc1 Hlt1 Hl1.
    { simpl. repeat split. lia. }
    destruct (@start_below_one_shard fuel (slept d k (stamped env w1)))
      as (w2 & E & S1 & S2 & S3 & S4); try assumption.
    cbv zeta. rewrite (@_get_reconn_loop_failure n _ _ _ _ _ _ E).
    rewrite on_attempt_failure_retried by reflexivity. cbv zeta.
    unfold method_result. rewrite Kr.
    unfold limit_reached. rewrite S1. simpl retry_limit. rewrite Hl1.
    match goal with
    | |- context [_get_reconn_loop env cls n fuel ?d' ?k' ?w3] =>
        destruct (IH d' k' w3) as (I1 & I2 & I3 & I4)
    end.
    - pose proof (Kk (self (logged (LogWarning MinShardCount) w2))
                    (sub (logged (LogWarning MinShardCount) w2))) as K.
      injection K as K1 _ _. unfold after_method; simpl.
      rewrite K1, S1. exact Hc1.
    - pose proof (Kk (self (logged (LogWarning MinShardCount) w2))
                    (sub (logged (LogWarning MinShardCount) w2))) as K.
      injection K as _ K2 _. unfold after_method; simpl.
      rewrite K2, S1. exact Hlt1.
    - pose proof (Kk (self (logged (LogWarning MinShardCount) w2))
                    (sub (logged (LogWarning MinShardCount) w2))) as K.
      injection K as _ _ K3. unfold after_method; simpl.
      rewrite K3, S1. exact Hl1.
    - rewrite I1, I2, I3, I4. unfold after_method; simpl.
      rewrite !attempts_snoc. simpl. rewrite S2, S3, S4.
      unfold slept, stamped; simpl. rewrite !attempts_snoc. simpl.
      repeat split; lia. }
  cbv zeta. rewrite _get_reconn_helper_eq. cbv zeta.
  unfold method_result. rewrite Kr.
  pose proof (Kk (set_stream_status RECONNECT (self w)) (sub w)) as K.
  injection K as K1 K2 K3.
  match goal with
  | |- context [_get_reconn_loop env cls fuel fuel 5 1 ?w1] =>
      destruct (Loop fuel 5 1 w1) as (I1 & I2 & I3 & I4)
  end.
  - unfold after_method; simpl. now rewrite K1.
  - unfold after_method; simpl. now rewrite K2.
  - unfold after_method; simpl. now rewrite K3.
  - rewrite I1, I2, I3, I4. unfold after_method; simpl.
    rewrite attempts_snoc. simpl. repeat split; lia.
Qed.

(** ** More on [sync_shards] *)

(** X12.  When no sync is due (the shards are neither to be initialised
    nor in sync, or they are in sync and the refresh interval has not
    elapsed), [sync_shards] reads the clock and returns: no call to the
    service, no lock taken, no handler, no log line, every field as it
    was. *)
Theorem sync_shards_not_due (w : World) :
  shards_status (self w) <> INITIALIZE ->
  shards_status (self w) <> SYNCED \/
  (monotonic env (n_monotonic w) - shard_refresh_monotonic (self w)
   <= shard_refresh_timer (self w))%Q ->
  sync_shards env cls w =
  (Return tt,
   mkWorld (self w) (sub w) (S (n_monotonic w)) (n_describe w) (n_create w)
     (n_client w) (trace w)).
Proof.
  intros Hi Hn. unfold sync_shards. rewrite get_self_bind.
  apply String.eqb_neq in Hi. rewrite Hi.
  rewrite time_monotonic_bind.
  destruct Hn as [Hs | Ht].
  - apply String.eqb_neq in Hs. rewrite Hs, andb_false_r. reflexivity.
  - apply Qgtb_false in Ht. rewrite Ht. reflexivity.
Qed.


(** The description does not depend on the clock. *)
Lemma get_stream_description_ticked (w : World) :
  let ticked (w0 : World) :=
    mkWorld (self w0) (sub w0) (S (n_monotonic w0)) (n_describe w0)
      (n_create w0) (n_client w0) (trace w0) in
  get_stream_description env (ticked w)
  = (fst (get_stream_description env w),
     ticked (snd (get_stream_description env w))).
Proof.
  unfold get_stream_description, try_except, client_describe_stream. simpl.
  destruct (client (self w)); [|reflexivity].
  destruct (describe_stream env (n_describe w)) as [st sh|e]; [reflexivity|].
  destruct e; try reflexivity.
  now destruct (code =? "ResourceNotFoundException")%string.
Qed.


(** X15.  [set_shard_sync_state] called without the shard lock held
    raises [RuntimeError] on the release, after it has marked the shards
    [SYNCED] and moved the refresh time: the state is changed although the
    call fails, and the shard count is not logged. *)
Theorem set_shard_sync_state_without_lock (w : World) :
  _shards_lock (self w) = false ->
  let r := set_shard_sync_state env w in
  fst r = Raise RuntimeError /\
  shards_status (self (snd r)) = SYNCED /\
  shard_refresh_monotonic (self (snd r)) = monotonic env (n_monotonic w) /\
  trace (snd r) = trace w.
Proof.
  intro H. unfold set_shard_sync_state, bind, modify_self, time_monotonic,
    release_shards_lock, get_self, log, emit. simpl. rewrite H.
  repeat split.
Qed.

Lemma bind_returns {A B} (m : M World A) (k : A -> M World B) (w : World) b :
  fst (bind m k w) = Return b ->
  exists a w1, m w = (Return a, w1) /\ bind m k w = k a w1.
Proof.
  unfold bind. destruct (m w) as [[a| e | |] w1]; simpl;
    try discriminate. intros _. now exists a, w1.
Qed.

Lemma set_shard_sync_state_returns (w : World) :
  fst (set_shard_sync_state env w) = Return tt ->
  _shards_lock (self (snd (set_shard_sync_state env w))) = false /\
  shards_status (self (snd (set_shard_sync_state env w))) = SYNCED.
Proof.
  unfold set_shard_sync_state, bind, modify_self, time_monotonic,
    release_shards_lock, get_self, log, emit. simpl.
  destruct (_shards_lock (self w)); simpl; [split; reflexivity|discriminate].
Qed.

(** X16.  Entered with the shard lock free, a [sync_shards] that returns
    leaves the lock free, whatever the handlers do: either the shards are
    now [SYNCED], or nothing was due and every field is as it was. *)
Theorem sync_shards_returns_unlocked (w : World) :
  _shards_lock (self w) = false ->
  fst (sync_shards env cls w) = Return tt ->
  let w' := snd (sync_shards env cls w) in
  _shards_lock (self w') = false /\
  (shards_status (self w') = SYNCED \/ self w' = self w).
Proof.
  intros Hl H. cbv zeta. unfold sync_shards in *. rewrite get_self_bind in *.
  destruct (shards_status (self w) =? INITIALIZE)%string.
  - destruct (bind_returns _ _ _ H) as ([st sh] & w1 & _ & E1).
    rewrite E1 in *.
    destruct (bind_returns _ _ _ H) as ([] & w2 & _ & E2). rewrite E2 in *.
    destruct (bind_returns _ _ _ H) as ([] & w3 & _ & E3). rewrite E3 in *.
    destruct (set_shard_sync_state_returns _ H) as [R1 R2].
    split; [exact R1 | left; exact R2].
  - rewrite time_monotonic_bind in *.
    match type of H with
    | context [if ?c then _ else _] => destruct c
    end; [|split; [exact Hl | right; reflexivity]].
    pose proof (get_stream_description_self
                  (mkWorld (self w) (sub w) (S (n_monotonic w))
                     (n_describe w) (n_create w) (n_client w) (trace w)))
      as Hf.
    destruct (bind_returns _ _ _ H) as ([st sh] & w1 & E0 & E1).
    rewrite E0 in Hf. cbn [fst snd] in Hf. simpl in Hf.
    rewrite E1 in *. cbn [fst snd] in *.
    destruct ((st =? "UPDATING") || (st =? "CREATING"))%string.
    + cbn [ret snd]. rewrite Hf. split; [exact Hl | right; reflexivity].
    + destruct (bind_returns _ _ _ H) as ([] & w2 & _ & E2).
      rewrite E2 in *.
      destruct (bind_returns _ _ _ H) as ([] & w3 & _ & E3).
      rewrite E3 in *. rewrite get_self_bind in *.
      destruct (bind_returns _ _ _ H) as ([] & w4 & _ & E4).
      rewrite E4 in *.
      destruct (set_shard_sync_state_returns _ H) as [R1 R2].
      split; [exact R1 | left; exact R2].
Qed.

(** X17.  Where every cancellation is reported by [cm.expired] (so that a
    startup that returns has found the stream [ACTIVE]), every startup that
    returns, whether of a first connection or of a reconnect, makes the next
    [sync_shards] a first sync: it calls the split handler with the whole
    fetched list, whatever the shard counts, the refresh time and the status
    of the description (a merge that happened meanwhile goes to the split
    handler too), and leaves the shards [SYNCED] if it returns. *)
Theorem startup_forces_first_sync fuel (w w1 : World) status fetched :
  cancellation_reported env ->
  start env fuel w = (Return tt, w1) ->
  _shards_lock (self w) = false ->
  describe_stream env (n_describe w1) = Described status fetched ->
  let r := sync_shards env cls w1 in
  handler_calls (trace (snd r))
  = handler_calls (trace w) ++ [EvSplit fetched] /\
  (fst r = Return tt -> shards_status (self (snd r)) = SYNCED).
Proof.
  intros Hrep Hst Hl Hd.
  destruct (start_outcome _ _ Hst) as (O1 & _ & _ & _ & _ & _ & O).
  assert (O2 : shards_status (self w1) = INITIALIZE).
  { destruct O as [(_ & A & _) | (_ & B)]; [exact A|].
    rewrite (Hrep (n_describe w1)) in B. discriminate. }
  pose proof (start_outside fuel w) as F. rewrite Hst in F.
  unfold outside_start in F. cbn [snd] in F.
  assert (F1 : _shards_lock (self w1) = false) by (injection F; congruence).
  assert (F2 : handler_calls (trace w1) = handler_calls (trace w))
    by (injection F; congruence).
  cbv zeta.
  rewrite (@sync_shards_initialize w1 status fetched)
    by (try assumption; congruence).
  split.
  - rewrite (@calls_after_handler _ _ _ (initializing w1)
               (_spilt_shards_eq fetched)).
    unfold initializing; simpl.
    rewrite !handler_calls_snoc, F2. simpl. now rewrite app_nil_r.
  - intro Hr.
    rewrite (@completed_after_handler _ _ _ (initializing w1)
               (_spilt_shards_eq fetched) Hr).
    reflexivity.
Qed.

(** ** Errors of the service *)

(** X18.  [get_stream_description] never lets the "not found" error of the
    service through as a [ClientError]: it raises [StreamDoesNotExist]
    exactly when the call to the service raised that error (or
    [StreamDoesNotExist] itself), and it changes no field of the
    instance. *)
Theorem get_stream_description_not_found (w : World) :
  let r := get_stream_description env w in
  fst r <> Raise (ClientError "ResourceNotFoundException") /\
  (fst r = Raise StreamDoesNotExist <->
   client (self w) <> None /\
   (describe_stream env (n_describe w)
    = DescribeRaises (ClientError "ResourceNotFoundException") \/
    describe_stream env (n_describe w) = DescribeRaises StreamDoesNotExist)) /\
  self (snd r) = self w.
Proof.
  cbv zeta. split; [|split; [|apply get_stream_description_self]];
    unfold get_stream_description, try_except, client_describe_stream.
  - destruct (client (self w)); [|discriminate].
    destruct (describe_stream env (n_describe w)) as [st sh|e];
      [discriminate|].
    destruct e; try discriminate.
    destruct (code =? "ResourceNotFoundException")%string eqn:E;
      [discriminate|].
    simpl. intro H. injection H as ->. discriminate.
  - destruct (client (self w)).
    2:{ split; [discriminate | intros [H _]; now contradiction H]. }
    destruct (describe_stream env (n_describe w)) as [st sh|e].
    { split; [discriminate | intros [_ [H | H]]; discriminate]. }
    destruct e; simpl;
      try (split; [discriminate | intros [_ [H | H]]; discriminate]).
    + split; [intros _; split; [discriminate | now right] | reflexivity].
    + destruct (code =? "ResourceNotFoundException")%string eqn:E; simpl.
      * apply String.eqb_eq in E. subst code.
        split; [intros _; split; [discriminate | now left] | reflexivity].
      * apply String.eqb_neq in E.
        split; [discriminate | intros [_ [H | H]]; [|discriminate]].
        injection H as ->. now contradiction E.
Qed.

(** X19.  [_create_stream] with a client at hand.  Ignoring an existing
    stream, it returns exactly when the shard count is at least one and the
    service either created the stream or reported it in use.  Whatever
    [ignore_exists], the two error codes it knows never leave it as a
    [ClientError], and with a shard count below one the service is not
    called. *)
Theorem _create_stream_outcomes (w : World) c :
  client (self w) = Some c ->
  (fst (_create_stream env true w) = Return tt <->
   1 <= create_stream_shards (self w) /\
   (create_stream_api env (n_create w) = None \/
    create_stream_api env (n_create w)
    = Some (ClientError "ResourceInUseException"))) /\
  (forall ignore_exists,
     fst (_create_stream env ignore_exists w)
     <> Raise (ClientError "ResourceInUseException") /\
     fst (_create_stream env ignore_exists w)
     <> Raise (ClientError "LimitExceededException")) /\
  (create_stream_shards (self w) < 1 ->
   forall ignore_exists,
     fst (_create_stream env ignore_exists w) = Raise MinShardCount /\
     n_create (snd (_create_stream env ignore_exists w)) = n_create w).
Proof.
  intro Hc.
  unfold _create_stream, bind, get_self, log, emit, try_except,
    client_create_stream. simpl.
  destruct (create_stream_shards (self w) <? 1) eqn:El; simpl; rewrite ?Hc.
  { apply Z.ltb_lt in El.
    split; [split; [discriminate | lia]|].
    split; [intro; split; discriminate|].
    intros _ _. split; reflexivity. }
  apply Z.ltb_ge in El.
  split; [|split; [|lia]].
  - destruct (create_stream_api env (n_create w)) as [e|]; simpl.
    2:{ split; [intros _; split; [lia | now left] | reflexivity]. }
    destruct e; simpl;
      try (split; [discriminate | intros [_ [H | H]]; discriminate]).
    destruct (code =? "ResourceInUseException")%string eqn:E; simpl.
    + apply String.eqb_eq in E. subst code.
      split; [intros _; split; [lia | now right] | reflexivity].
    + apply String.eqb_neq in E.
      destruct (code =? "LimitExceededException")%string; simpl;
        (split; [discriminate | intros [_ [H | H]]; [discriminate|]]);
        injection H as ->; now contradiction E.
  - intro ignore_exists.
    destruct (create_stream_api env (n_create w)) as [e|]; simpl;
      [|split; discriminate].
    destruct e; simpl; try (split; discriminate).
    destruct (code =? "ResourceInUseException")%string eqn:E1; simpl.
    { destruct ignore_exists; simpl; split; discriminate. }
    destruct (code =? "LimitExceededException")%string eqn:E2; simpl.
    { split; discriminate. }
    apply String.eqb_neq in E1, E2.
    split; intro H; injection H as ->; contradiction.
Qed.

(** ** What [get_conn] promises *)

(** A value that leaves [async with self._conn_lock] was returned inside
    it. *)
Lemma conn_lock_exit_Return {A} (r : Result A * World) a :
  fst (conn_lock_exit r) = Return a ->
  fst r = Return a /\ snd (conn_lock_exit r) = released (snd r).
Proof.
  unfold conn_lock_exit.
  destruct r as [[a0| e0 | |] w]; cbn [fst snd];
    try (destruct (_conn_lock (self w))); cbn [fst snd];
    try discriminate; intro E; split; [assumption | reflexivity].
Qed.

(** X20.  Where every cancellation is reported by [cm.expired]: called
    on a connection that is to be initialised or is [ACTIVE], a [get_conn]
    that returns leaves the connection [ACTIVE], with the lock free,
    whichever way it took: a first startup, a reconnect after that failed,
    a reconnect of a connection past its cooldown, or nothing at all. *)
Theorem get_conn_returns_ACTIVE fuel (w : World) :
  cancellation_reported env ->
  stream_status (self w) = INITIALIZE \/ stream_status (self w) = ACTIVE ->
  fst (get_conn env cls fuel w) = Return tt ->
  stream_status (self (snd (get_conn env cls fuel w))) = ACTIVE /\
  _conn_lock (self (snd (get_conn env cls fuel w))) = false.
Proof.
  intros Hrep Hs H.
  destruct (_conn_lock (self w)) eqn:Hl.
  { unfold get_conn, with_conn_lock in H. rewrite Hl in H. discriminate. }
  rewrite get_conn_entered in * by assumption.
  apply conn_lock_exit_Return in H. destruct H as [H ->].
  simpl. split; [|reflexivity].
  assert (Helper : forall w1 : World,
             fst (_get_reconn_helper env cls fuel w1) = Return tt ->
             stream_status (self (snd (_get_reconn_helper env cls fuel w1)))
             = ACTIVE).
  { intros w1 Hr.
    rewrite _get_reconn_helper_eq in *. cbv zeta in *.
    destruct (method_result (close_impl cls)
                (with_self (set_stream_status RECONNECT (self w1)) w1))
      as [[]| e | |]; try discriminate.
    match goal with
    | |- context [_get_reconn_loop env cls fuel fuel 5 1 ?w2] =>
        pose proof (_get_reconn_loop_outcome fuel fuel 5 1 w2) as L
    end.
    cbv zeta in L. rewrite Hr in L.
    destruct L as [_ [[L _] | [[j Lj] _]]]; [exact L|].
    rewrite (Hrep j) in Lj. discriminate. }
  destruct (stream_status (self w) =? INITIALIZE)%string eqn:Ei.
  - unfold try_except in *. unfold bind at 1 in H. unfold bind at 1.
    destruct (start env fuel (entered w)) as [[[]| e | |] w2] eqn:Est;
      try discriminate.
    + destruct (start_outcome _ _ Est) as (_ & _ & _ & _ & _ & _ & O).
      destruct O as [(O & _) | (_ & B)]; [exact O|].
      rewrite (Hrep (n_describe w2)) in B. discriminate.
    + destruct (is_StreamDoesNotExist e); [discriminate|].
      destruct (is_Exception e); [|discriminate].
      erewrite bind_Return in * by reflexivity.
      now apply Helper.
  - destruct Hs as [Hs | Hs];
      [rewrite Hs in Ei; discriminate|].
    rewrite Hs in *.
    change ((ACTIVE =? ACTIVE)%string) with true in *. cbv iota in *.
    rewrite time_monotonic_bind in *.
    match type of H with
    | context [Qgtb ?a ?b] => destruct (Qgtb a b)
    end; [now apply Helper|].
    simpl. exact Hs.
Qed.

(** ** What [sync_shards] leaves alone *)

Lemma connection_traffic_emit (e : Event Shard) :
  match e with
  | EvBackoffSleep _ | EvClose | EvCreateClient => False
  | _ => True
  end ->
  keeps connection_traffic (emit e : M World unit).
Proof.
  intros He w. unfold connection_traffic, emit; simpl.
  rewrite backoff_sleeps_snoc, closes_snoc, attempts_snoc.
  destruct e; try contradiction; simpl;
    now rewrite ?app_nil_r, ?Nat.add_0_r.
Qed.

Lemma connection_traffic_call_method (f : Method Shard Sub) :
  (forall b s, connection_view (fst (fst (f b s))) = connection_view b) ->
  keeps connection_traffic (call_method f).
Proof.
  intros Hf w. unfold call_method, connection_traffic.
  specialize (Hf (self w) (sub w)).
  destruct (f (self w) (sub w)) as [[b s] [e|]]; simpl in *; now rewrite Hf.
Qed.

Lemma connection_traffic_get_stream_description :
  keeps connection_traffic
    (get_stream_description env : M World (string * list Shard)).
Proof.
  intro w.
  unfold get_stream_description, try_except, client_describe_stream.
  destruct (client (self w)); [|reflexivity].
  assert (E : forall r : Result (string * list Shard),
             connection_traffic
               (snd (r, mkWorld (self w) (sub w) (n_monotonic w)
                          (S (n_describe w)) (n_create w) (n_client w)
                          (trace w ++ [EvDescribeStream])))
             = connection_traffic w).
  { intro r. unfold connection_traffic; simpl.
    rewrite backoff_sleeps_snoc, closes_snoc, attempts_snoc. simpl.
    now rewrite app_nil_r, !Nat.add_0_r. }
  destruct (describe_stream env (n_describe w)) as [st sh|e]; [apply E|].
  destruct e; try apply E.
  destruct (code =? "ResourceNotFoundException")%string; apply E.
Qed.

Lemma connection_traffic_set_shard_sync_state :
  keeps connection_traffic (set_shard_sync_state env : M World unit).
Proof.
  intro w. unfold set_shard_sync_state, bind, modify_self, time_monotonic,
    release_shards_lock, get_self, log, emit. simpl.
  destruct (_shards_lock (self w)); simpl; [|reflexivity].
  unfold connection_traffic; simpl.
  rewrite backoff_sleeps_snoc, closes_snoc, attempts_snoc. simpl.
  now rewrite app_nil_r, !Nat.add_0_r.
Qed.

(** X21.  [sync_shards] writes three fields only: the shard state, the
    shard lock and the refresh time.  Provided the handlers of the subclass
    leave them alone, the local shard list, the client, the connection
    state, the connection lock, the cooldown time stamp and every setting
    are as before, whatever the outcome; and no client is built or closed,
    no stream created and no backoff slept. *)
Theorem sync_shards_frame (w : World) :
  handlers_keep cls connection_view ->
  connection_traffic (snd (sync_shards env cls w)) = connection_traffic w.
Proof.
  intro Hk. revert w. change (keeps connection_traffic (sync_shards env cls)).
  assert (Sp : forall l, keeps connection_traffic (_spilt_shards cls l)).
  { intro l. unfold _spilt_shards. apply keeps_bind; [|intros _].
    - now apply connection_traffic_emit.
    - apply connection_traffic_call_method. intros b s. apply Hk. }
  assert (Me : forall l, keeps connection_traffic (_merge_shards cls l)).
  { intro l. unfold _merge_shards. apply keeps_bind; [|intros _].
    - now apply connection_traffic_emit.
    - apply connection_traffic_call_method. intros b s. apply Hk. }
  assert (Aq : keeps connection_traffic
                 (acquire_shards_lock : M World unit)).
  { intro w. unfold acquire_shards_lock.
    now destruct (_shards_lock (self w)). }
  unfold sync_shards.
  apply keeps_bind; [apply keeps_get_self | intro b].
  destruct (shards_status b =? INITIALIZE)%string.
  - apply keeps_bind;
      [apply connection_traffic_get_stream_description | intro info].
    apply keeps_bind; [exact Aq | intros _].
    apply keeps_bind;
      [apply Sp | intros _; apply connection_traffic_set_shard_sync_state].
  - apply keeps_bind; [intro w; reflexivity | intro now].
    match goal with |- keeps _ (if ?c then _ else _) => destruct c end;
      [|apply keeps_ret].
    apply keeps_bind;
      [apply connection_traffic_get_stream_description | intro info].
    match goal with |- keeps _ (if ?c then _ else _) => destruct c end;
      [apply keeps_ret|].
    apply keeps_bind; [exact Aq | intros _].
    apply keeps_bind; [intro w; reflexivity | intros _].
    apply keeps_bind; [apply keeps_get_self | intro b'].
    apply keeps_bind;
      [|intros _; apply connection_traffic_set_shard_sync_state].
    repeat match goal with
           | |- keeps _ (if ?c then _ else _) => destruct c
           end;
      [now apply connection_traffic_emit | apply Sp | apply Me
      | apply keeps_ret].
Qed.

(** ** [Base] without a subclass *)

(** X22.  With the [close] of [Base] itself, which raises
    [NotImplementedError], the reconnect procedure never gets to its loop:
    it raises that error at once, with the connection state already
    [RECONNECT], before any sleep, client or call to the service. *)
Theorem Base_cannot_reconnect fuel (w : World) :
  let r := _get_reconn_helper env (Base_methods Shard Sub) fuel w in
  fst r = Raise NotImplementedError /\
  stream_status (self (snd r)) = RECONNECT /\
  without_logs (trace (snd r)) = without_logs (trace w) ++ [EvClose].
Proof.
  unfold _get_reconn_helper, bind, modify_self, close, emit, call_method.
  simpl. rewrite without_logs_snoc. repeat split.
Qed.

End Properties.

(** * The scenarios at work *)

Import Scenario.




(** C7, the merge of the specification: three local shards, two fetched. *)
Example resync_dispatch_merge :
  let fetched := ["s12"; "s3"] in
  handler_calls
    (trace (snd (sync_shards (healthy fetched) storing
                   (connected ["s1"; "s2"; "s3"] None None))))
  = [EvMerge fetched].
Proof. reflexivity. Qed.


(** C8: the clock reads 120.2 and the last reconnect attempt began at 0.2
    (as floats): more than 120 seconds have passed, by some 2.8e-15 s, but
    the float difference is 120.0 and [get_conn] does nothing. *)
Lemma cooldown_elapsed_without_reconnect :
  let env := at_time float_120_2 ["s1"] in
  let w := connected_since float_0_2 ["s1"] in
  stream_status (self w) = ACTIVE /\
  _conn_lock (self w) = false /\
  (inject_Z 120
   < monotonic env (n_monotonic w) - _reconnect_timeout (self w))%Q /\
  (float_sub (monotonic env (n_monotonic w)) (_reconnect_timeout (self w))
   == inject_Z 120)%Q /\
  get_conn env storing 5 w = (Return tt, glanced w) /\
  attempts (trace (snd (get_conn env storing 5 w))) = attempts (trace w) /\
  closes (trace (snd (get_conn env storing 5 w))) = closes (trace w).
Proof.
  vm_compute. repeat split.
Qed.

(** C8: a call 50 seconds after the stamp (the clock reads 1000), and a
    call 1000 seconds after; the second closes the client and makes a
    connection attempt after a sleep of 5 seconds. *)
Lemma get_conn_cooldown_witness :
  let env := healthy ["s1"] in
  let late := connected ["s1"] None None in
  let early :=
    with_self (set_reconnect_timeout (inject_Z 950) (self late)) late in
  let late' := snd (get_conn env storing 5 late) in
  (stream_status (self early) = ACTIVE /\
   _conn_lock (self early) = false /\
   (monotonic env (n_monotonic early) - _reconnect_timeout (self early)
    <= inject_Z 120)%Q /\
   get_conn env storing 5 early = (Return tt, glanced early)) /\
  (stream_status (self late) = ACTIVE /\
   _conn_lock (self late) = false /\
   (inject_Z 120
    < float_sub (monotonic env (n_monotonic late))
        (_reconnect_timeout (self late)))%Q /\
   close_returns storing /\
   (1 <= 5)%nat /\
   get_conn env storing 5 late
   = with_conn_lock (_get_reconn_helper env storing 5) (glanced late) /\
   (S (closes (trace late)) <= closes (trace late'))%nat /\
   (S (attempts (trace late)) <= attempts (trace late'))%nat /\
   (exists rest,
      backoff_sleeps (trace late')
      = backoff_sleeps (trace late) ++ 5 :: rest) /\
   (n_monotonic late + 2 <= n_monotonic late')%nat).
Proof.
  intros env late early late'.
  assert (E1 : stream_status (self early) = ACTIVE) by reflexivity.
  assert (E2 : _conn_lock (self early) = false) by reflexivity.
  assert (E3 : (monotonic env (n_monotonic early)
                - _reconnect_timeout (self early) <= inject_Z 120)%Q)
    by (vm_compute; discriminate).
  assert (L1 : stream_status (self late) = ACTIVE) by reflexivity.
  assert (L2 : _conn_lock (self late) = false) by reflexivity.
  assert (L3 : (inject_Z 120
                < float_sub (monotonic env (n_monotonic late))
                    (_reconnect_timeout (self late)))%Q)
    by (vm_compute; reflexivity).
  assert (L4 : close_returns storing) by (intros b s; reflexivity).
  assert (L5 : (1 <= 5)%nat) by lia.
  destruct (@get_conn_cooldown _ _ env storing 5%nat late L1 L2)
    as [_ Late].
  destruct (Late (or_intror L3)) as (R1 & R2 & R3).
  destruct (R3 L4 L5) as (R4 & R5 & R6).
  exact (conj
           (conj E1 (conj E2 (conj E3
              (proj1 (@get_conn_cooldown _ _ env storing 5%nat early E1 E2)
                 (or_introl E3)))))
           (conj L1 (conj L2 (conj L3 (conj L4 (conj L5 (conj R1 (conj R2
              (conj R4 (conj R5 R6)))))))))).
Defined.

(** C4: the stream is missing at the first connection, and at a
    reconnection. *)
Lemma StreamDoesNotExist_not_retried_witness :
  let first := new (Some 3) (Some 5) false 1 in
  let again := connected ["s1"] (Some 3) (Some 5) in
  let w2 := snd (start missing 5 (entered first)) in
  let w3 := snd (start missing 5 (slept 5 1 (stamped missing again))) in
  (stream_status (self first) = INITIALIZE /\
   _conn_lock (self first) = false /\
   start missing 5 (entered first) = (Raise StreamDoesNotExist, w2) /\
   get_conn missing storing 5 first
   = (Raise StreamDoesNotExist, released (logged LogStreamMissing w2))) /\
  (start missing 5 (slept 5 1 (stamped missing again))
   = (Raise StreamDoesNotExist, w3) /\
   _get_reconn_loop missing storing 4 5 5 1 again
   = (Raise StreamDoesNotExist, w3)).
Proof.
  intros first again w2 w3.
  assert (F1 : stream_status (self first) = INITIALIZE) by reflexivity.
  assert (F2 : _conn_lock (self first) = false) by reflexivity.
  assert (F3 : start missing 5 (entered first) = (Raise StreamDoesNotExist, w2))
    by (vm_compute; reflexivity).
  assert (A1 : start missing 5 (slept 5 1 (stamped missing again))
               = (Raise StreamDoesNotExist, w3))
    by (vm_compute; reflexivity).
  exact (conj
           (conj F1 (conj F2 (conj F3
              (proj1 (@StreamDoesNotExist_not_retried _ _ missing storing)
                 5%nat first w2 F1 F2 F3))))
           (conj A1
              (proj2 (@StreamDoesNotExist_not_retried _ _ missing storing)
                 3%nat 5%nat 5 1 again w3 A1))).
Defined.

(** C5: six failed attempts with base 5 and ceiling 120. *)
Lemma backoff_delay_sequence_witness :
  let w := connected ["s1"] (Some 6) (Some 5) in
  let w' := snd (_get_reconn_helper unreachable storing 10 w) in
  expo_backoff (self w) = Some 5 /\
  expo_backoff_limit (self w) = 120 /\
  close_keeps storing (@expo_backoff string) /\
  close_keeps storing (@expo_backoff_limit string) /\
  backoff_sleeps (trace w') = [5; 20; 45; 80; 120; 120] /\
  exists m,
    backoff_sleeps (trace w')
    = backoff_sleeps (trace w) ++ map spec_delay (seq 1 m) /\
    attempts (trace w') = (attempts (trace w) + m)%nat /\
    (forall n, spec_delay n <= 120) /\
    map spec_delay (seq 1 6) = [5; 20; 45; 80; 120; 120].
Proof.
  intros w w'.
  assert (H1 : expo_backoff (self w) = Some 5) by reflexivity.
  assert (H2 : expo_backoff_limit (self w) = 120) by reflexivity.
  assert (H3 : close_keeps storing (@expo_backoff string))
    by (intros b s; reflexivity).
  assert (H4 : close_keeps storing (@expo_backoff_limit string))
    by (intros b s; reflexivity).
  assert (H5 : backoff_sleeps (trace w') = [5; 20; 45; 80; 120; 120])
    by (vm_compute; reflexivity).
  exact (conj H1 (conj H2 (conj H3 (conj H4 (conj H5
          (@backoff_delay_sequence _ _ unreachable storing 10%nat w
             H1 H2 H3 H4)))))).
Defined.

(** C6: the service stays out of reach with a retry limit of 3, and comes
    back at the fourth attempt without a retry limit. *)
Lemma retry_limit_three_and_unbounded_witness :
  let limited := connected ["s1"] (Some 3) None in
  let patient := connected ["s1"] None None in
  let back := back_after 3 ["s1"] in
  close_returns storing /\
  close_keeps storing (@retry_limit string) /\
  close_keeps storing (@create_stream string) /\
  (let r := _get_reconn_helper unreachable storing 5 limited in
   fst r = Raise ConnectionError /\
   attempts (trace (snd r)) = (attempts (trace limited) + 3)%nat) /\
  (let r := _get_reconn_helper back storing 10 patient in
   fst r = Return tt /\
   attempts (trace (snd r)) = (attempts (trace patient) + 4)%nat /\
   stream_status (self (snd r)) = ACTIVE).
Proof.
  intros limited patient back.
  assert (H1 : close_returns storing) by (intros b s; reflexivity).
  assert (H2 : close_keeps storing (@retry_limit string))
    by (intros b s; reflexivity).
  assert (H3 : close_keeps storing (@create_stream string))
    by (intros b s; reflexivity).
  destruct (@retry_limit_three_and_unbounded _ _ unreachable storing H1 H2 H3)
    as [R3 _].
  destruct (@retry_limit_three_and_unbounded _ _ back storing H1 H2 H3)
    as [_ RN].
  assert (L1 : (3 <= 5)%nat) by lia.
  assert (L2 : retry_limit (self limited) = Some 3) by reflexivity.
  assert (L3 : create_stream (self limited) = false) by reflexivity.
  assert (L4 : forall i, (i < 3)%nat ->
            retryable (describe_stream unreachable (n_describe limited + i))
            = true) by (intros i _; reflexivity).
  assert (P1 : (1 <= 4)%nat) by lia.
  assert (P2 : (4 <= 10)%nat) by lia.
  assert (P3 : retry_limit (self patient) = None) by reflexivity.
  assert (P4 : create_stream (self patient) = false) by reflexivity.
  assert (P5 : forall i, (i < 4 - 1)%nat ->
            retryable (describe_stream back (n_describe patient + i)) = true).
  { intros i Hi. simpl in Hi.
    destruct i as [|[|[|i]]]; try reflexivity. lia. }
  assert (P6 : describe_stream back (n_describe patient + (4 - 1))
               = Described ACTIVE ["s1"]) by reflexivity.
  exact (conj H1 (conj H2 (conj H3 (conj
          (R3 5%nat limited L1 L2 L3 L4)
          (RN 4%nat 10%nat patient ["s1"] P1 P2 P3 P4 P5 P6))))).
Defined.



(** C2: a stream to create with no shard, and a stream to create at the
    shard limit, with a retry limit of 2.  The first startup raises the
    creation error; [get_conn] goes on to two more attempts, with their
    backoff sleeps, and raises [ConnectionError]. *)
Lemma create_errors_enter_the_reconnect_loop :
  let no_shard := new (Some 2) None true 0 in
  let one_shard := new (Some 2) None true 1 in
  (fst (start unreachable 5 (entered no_shard)) = Raise MinShardCount /\
   let r := get_conn unreachable storing 5 no_shard in
   fst r = Raise ConnectionError /\
   fst r <> Raise MinShardCount /\
   attempts (trace (snd r)) = 3%nat /\
   backoff_sleeps (trace (snd r)) = [5; 5]) /\
  (fst (start at_shard_limit 5 (entered one_shard)) = Raise StreamShardLimit /\
   let r := get_conn at_shard_limit storing 5 one_shard in
   fst r = Raise ConnectionError /\
   fst r <> Raise StreamShardLimit /\
   attempts (trace (snd r)) = 3%nat /\
   backoff_sleeps (trace (snd r)) = [5; 5]).
Proof.
  vm_compute. repeat split; discriminate.
Qed.

(** C2: the same two instances. *)
Lemma create_errors_are_retried_witness :
  let no_shard := new (Some 2) None true 0 in
  let w2 := snd (start unreachable 5 (entered no_shard)) in
  (forall e b s,
     create_error e -> snd (close_impl storing b s) <> Some e) /\
  create_error MinShardCount /\
  stream_status (self no_shard) = INITIALIZE /\
  _conn_lock (self no_shard) = false /\
  start unreachable 5 (entered no_shard) = (Raise MinShardCount, w2) /\
  fst (get_conn unreachable storing 5 no_shard) <> Raise MinShardCount /\
  get_conn unreachable storing 5 no_shard
  = conn_lock_exit
      (_get_reconn_helper unreachable storing 5
         (logged (LogInitFailed MinShardCount) w2)).
Proof.
  intros no_shard w2.
  assert (H : forall e b s,
            create_error e -> snd (close_impl storing b s) <> Some e)
    by (intros e b s _; discriminate).
  assert (C : create_error MinShardCount) by (left; reflexivity).
  assert (F1 : stream_status (self no_shard) = INITIALIZE) by reflexivity.
  assert (F2 : _conn_lock (self no_shard) = false) by reflexivity.
  assert (F3 : start unreachable 5 (entered no_shard)
               = (Raise MinShardCount, w2)) by (vm_compute; reflexivity).
  destruct (@create_errors_are_retried _ _ unreachable storing H)
    as (R1 & R2 & _).
  exact (conj H (conj C (conj F1 (conj F2 (conj F3 (conj
          (R1 5%nat no_shard MinShardCount C)
          (R2 5%nat no_shard w2 MinShardCount C F1 F2 F3))))))).
Defined.

(** The first sync of the specification: one shard [s1] is fetched, the
    split handler is called once with it, and the state is [SYNCED]. *)
Example first_sync :
  let r := sync_shards (healthy ["s1"]) storing (unsynced ["s1"]) in
  fst r = Return tt /\
  handler_calls (trace (snd r)) = [EvSplit ["s1"]] /\
  shards_status (self (snd r)) = SYNCED /\
  shards (self (snd r)) = ["s1"] /\
  _shards_lock (self (snd r)) = false.
Proof. vm_compute. repeat split. Qed.

(** Equal counts invoke neither handler. *)
Example resync_dispatch_equal :
  handler_calls
    (trace (snd (sync_shards (healthy ["s1"; "s2"]) storing
                   (connected ["s1"; "s2"] None None))))
  = [].
Proof. reflexivity. Qed.

(** With the methods of [Base] itself the reconnect procedure stops at its
    first [close]. *)
Example Base_close_is_not_implemented :
  let r := _get_reconn_helper (Sub:=unit) unreachable (Base_methods _ _) 5
             (connected ["s1"] None None) in
  fst r = Raise NotImplementedError /\ attempts (trace (snd r)) = 0%nat.
Proof. vm_compute. repeat split. Qed.

(** C10 at work: the two runs of [start] differ in one log line. *)
Example skip_describe_stream_logs_one_line :
  let flagged (v : bool) :=
    with_self (set_skip_describe_stream v (self (new None None false 1)))
      (new None None false 1) in
  trace (snd (start (healthy ["s1"]) 5 (flagged false)))
  = [EvCreateClient; EvLog LogCheckingActive; EvDescribeStream] /\
  trace (snd (start (healthy ["s1"]) 5 (flagged true)))
  = [EvCreateClient; EvLog LogSkippingDescribe; EvLog LogCheckingActive;
     EvDescribeStream].
Proof. vm_compute. repeat split. Qed.

(** * Further scenarios *)

(** X1: the first startup of a new instance on a healthy stream, and one
    that is cancelled from outside at its first description: that one
    returns as well, with the connection still to be initialised. *)
Lemma start_returns_active_unless_cancelled_witness :
  let env := healthy ["s1"; "s2"] in
  let w := new None None false 1 in
  let w' := snd (start env 1 w) in
  let v' := snd (start cancelled_from_outside 1 w) in
  (start env 1 w = (Return tt, w') /\
   cancellation_reported env /\
   stream_status (self w') = ACTIVE /\
   shards_status (self w') = INITIALIZE /\
   describe_stream env (pred (n_describe w'))
   = Described ACTIVE (shards (self w'))) /\
  (start cancelled_from_outside 1 w = (Return tt, v') /\
   stream_status (self v') = INITIALIZE /\
   create_stream (self v') = false /\
   client (self v') = Some (n_client w) /\
   conn_state v' = conn_state w /\
   cm_expired cancelled_from_outside (n_describe v') = false).
Proof.
  intros env w w' v'.
  assert (H1 : start env 1 w = (Return tt, w')) by (vm_compute; reflexivity).
  assert (H2 : cancellation_reported env) by (intro k; reflexivity).
  assert (H3 : start cancelled_from_outside 1 w = (Return tt, v'))
    by (vm_compute; reflexivity).
  assert (H4 : stream_status (self v') = INITIALIZE) by reflexivity.
  destruct (start_returns_active_unless_cancelled env 1 w H1)
    as (_ & _ & _ & R).
  destruct (start_returns_active_unless_cancelled cancelled_from_outside 1 w
              H3) as (C1 & C2 & [(A & _) | (C3 & C4)] & _).
  - rewrite H4 in A. discriminate.
  - exact (conj (conj H1 (conj H2 (R H2)))
             (conj H3 (conj H4 (conj C1 (conj C2 (conj C3 C4)))))).
Defined.

(** X2: a startup of a connected instance while the service cannot be
    reached. *)
Lemma start_failure_keeps_state_witness :
  let w := connected ["s1"] None None in
  fst (start unreachable 1 w) <> Return tt /\
  conn_state (snd (start unreachable 1 w)) = conn_state w.
Proof.
  intro w.
  assert (H : fst (start unreachable 1 w) <> Return tt)
    by (vm_compute; discriminate).
  exact (conj H (start_failure_keeps_state unreachable 1 w H)).
Defined.

(** X3: no stream to create. *)
Lemma start_creates_at_most_once_witness :
  let env := healthy ["s1"] in
  let w := new None None false 1 in
  let w' := snd (start env 1 w) in
  create_stream (self w) = false /\
  n_create w' = n_create w /\ create_stream (self w') = false.
Proof.
  intros env w w'.
  assert (H : create_stream (self w) = false) by reflexivity.
  destruct (start_creates_at_most_once env 1 w) as (_ & _ & R).
  exact (conj H (R H)).
Defined.

(** X4: a stream to create with no shards. *)
Lemma start_min_shard_count_witness :
  let env := healthy ["s1"] in
  let w := new None None true 0 in
  let r := start env 3 w in
  create_stream (self w) = true /\
  create_stream_shards (self w) < 1 /\
  fst r = Raise MinShardCount /\
  n_create (snd r) = n_create w /\
  n_describe (snd r) = n_describe w /\
  create_stream (self (snd r)) = true /\
  conn_state (snd r) = conn_state w.
Proof.
  intros env w r.
  assert (H1 : create_stream (self w) = true) by reflexivity.
  assert (H2 : create_stream_shards (self w) < 1) by reflexivity.
  exact (conj H1 (conj H2 (start_min_shard_count env 3 w H1 H2))).
Defined.

(** X5: a stream that is [CREATING] for two descriptions. *)
Lemma start_polls_until_active_witness :
  let env := creating_for 2 ["s1"] in
  let w := new None None false 1 in
  let r := start env 3 w in
  (2 < 3)%nat /\
  create_stream (self w) = false /\
  (forall i, (i < 2)%nat ->
     exists s l, describe_stream env (n_describe w + i) = Described s l /\
                 waiting s = true) /\
  (forall i, (i < 2)%nat ->
     timeout_in_sleep env (S (n_describe w + i)) = false) /\
  describe_stream env (n_describe w + 2) = Described ACTIVE ["s1"] /\
  fst r = Return tt /\
  stream_status (self (snd r)) = ACTIVE /\
  shards (self (snd r)) = ["s1"] /\
  describes (trace (snd r)) = (describes (trace w) + 3)%nat /\
  poll_sleeps (trace (snd r)) = (poll_sleeps (trace w) + 2)%nat.
Proof.
  intros env w r.
  assert (H1 : (2 < 3)%nat) by lia.
  assert (H2 : create_stream (self w) = false) by reflexivity.
  assert (H3 : forall i, (i < 2)%nat ->
            exists s l, describe_stream env (n_describe w + i) = Described s l /\
                        waiting s = true).
  { intros i Hi. destruct i as [|[|i]]; [| |lia];
      exists "CREATING", []; split; reflexivity. }
  assert (H4 : forall i, (i < 2)%nat ->
            timeout_in_sleep env (S (n_describe w + i)) = false)
    by (intros; reflexivity).
  assert (H5 : describe_stream env (n_describe w + 2)
               = Described ACTIVE ["s1"]) by reflexivity.
  exact (conj H1 (conj H2 (conj H3 (conj H4 (conj H5
          (start_polls_until_active env w H1 H2 H3 H4 H5)))))).
Defined.

(** X6: a reconnect that succeeds at the second attempt, one that gives
    up, and one whose startup is cancelled from outside: that one returns
    without a connection. *)
Lemma _get_reconn_helper_end_state_witness :
  let ra := _get_reconn_helper (back_after 1 ["s1"]) storing 3
              (connected ["s0"] None None) in
  let rb := _get_reconn_helper unreachable storing 3
              (connected ["s0"] (Some 2) None) in
  let rc := _get_reconn_helper cancelled_from_outside storing 3
              (connected ["s0"] None None) in
  (cancellation_reported (back_after 1 ["s1"]) /\
   fst ra = Return tt /\
   stream_status (self (snd ra)) = ACTIVE /\
   shards_status (self (snd ra)) = INITIALIZE /\
   create_stream (self (snd ra)) = false) /\
  (close_keeps storing (@stream_status string) /\
   fst rb <> Return tt /\
   stream_status (self (snd rb)) = RECONNECT) /\
  (fst rc = Return tt /\
   (stream_status (self (snd rc)) = ACTIVE \/
    stream_status (self (snd rc)) = RECONNECT) /\
   stream_status (self (snd rc)) <> ACTIVE).
Proof.
  intros ra rb rc.
  assert (H0 : cancellation_reported (back_after 1 ["s1"]))
    by (intro k; reflexivity).
  assert (H1 : fst ra = Return tt) by (vm_compute; reflexivity).
  assert (H2 : close_keeps storing (@stream_status string))
    by (intros b s; reflexivity).
  assert (H3 : fst rb <> Return tt) by (vm_compute; discriminate).
  assert (H4 : fst rc = Return tt) by (vm_compute; reflexivity).
  assert (H5 : stream_status (self (snd rc)) <> ACTIVE)
    by (vm_compute; discriminate).
  destruct (_get_reconn_helper_end_state (back_after 1 ["s1"]) storing 3
              (connected ["s0"] None None)) as (Ra & _ & _).
  destruct (_get_reconn_helper_end_state unreachable storing 3
              (connected ["s0"] (Some 2) None)) as (_ & Rb & _).
  destruct (_get_reconn_helper_end_state cancelled_from_outside storing 3
              (connected ["s0"] None None)) as (_ & _ & Rc).
  exact (conj (conj H0 (conj H1 (Ra H0 H1)))
           (conj (conj H2 (conj H3 (Rb H2 H3)))
              (conj H4 (conj (Rc H2 H4) H5)))).
Defined.

(** X7: a new instance with a retry limit of two, the service out of
    reach. *)
Lemma get_conn_after_ConnectionError_witness :
  let w := new (Some 2) None false 1 in
  let w' := snd (get_conn unreachable storing 3 w) in
  close_keeps storing (@stream_status string) /\
  fst (get_conn unreachable storing 3 w) = Raise ConnectionError /\
  stream_status (self w') = RECONNECT /\
  _conn_lock (self w') = false /\
  forall fuel' k,
    fst (get_conn unreachable storing fuel'
           (get_conn_times unreachable storing fuel' k w'))
    = Return tt /\
    self (get_conn_times unreachable storing fuel' k w') = self w' /\
    without_logs (trace (get_conn_times unreachable storing fuel' k w'))
    = without_logs (trace w').
Proof.
  intros w w'.
  assert (H1 : close_keeps storing (@stream_status string))
    by (intros b s; reflexivity).
  assert (H2 : fst (get_conn unreachable storing 3 w) = Raise ConnectionError)
    by (vm_compute; reflexivity).
  exact (conj H1 (conj H2
          (get_conn_after_ConnectionError unreachable 3 w H1 H2))).
Defined.

(** X8: a retry limit of zero still makes one attempt. *)
Lemma retry_limit_counts_attempts_witness :
  let w := connected ["s1"] (Some 0) None in
  let r := _get_reconn_helper unreachable storing 2 w in
  close_returns storing /\
  close_keeps storing (@retry_limit string) /\
  close_keeps storing (@create_stream string) /\
  retry_limit (self w) = Some 0 /\
  create_stream (self w) = false /\
  (Z.to_nat (Z.max 1 0) <= 2)%nat /\
  (forall i, (i < Z.to_nat (Z.max 1 0))%nat ->
     retryable (describe_stream unreachable (n_describe w + i)) = true) /\
  fst r = Raise ConnectionError /\
  attempts (trace (snd r)) = (attempts (trace w) + Z.to_nat (Z.max 1 0))%nat.
Proof.
  intros w r.
  assert (H1 : close_returns storing) by (intros b s; reflexivity).
  assert (H2 : close_keeps storing (@retry_limit string))
    by (intros b s; reflexivity).
  assert (H3 : close_keeps storing (@create_stream string))
    by (intros b s; reflexivity).
  assert (H4 : retry_limit (self w) = Some 0) by reflexivity.
  assert (H5 : create_stream (self w) = false) by reflexivity.
  assert (H6 : (Z.to_nat (Z.max 1 0) <= 2)%nat) by (simpl; lia).
  assert (H7 : forall i, (i < Z.to_nat (Z.max 1 0))%nat ->
            retryable (describe_stream unreachable (n_describe w + i)) = true)
    by (intros; reflexivity).
  exact (conj H1 (conj H2 (conj H3 (conj H4 (conj H5 (conj H6 (conj H7
          (retry_limit_counts_attempts unreachable w
             H1 H2 H3 H4 H5 H6 H7)))))))).
Defined.

(** X9: base 7 under the ceiling of 120, three attempts. *)
Lemma backoff_delays_any_base_witness :
  let w := connected ["s1"] (Some 3) (Some 7) in
  let delay :=
    code_delay (expo_backoff (self w)) (expo_backoff_limit (self w)) in
  let w' := snd (_get_reconn_helper unreachable storing 3 w) in
  close_keeps storing (@expo_backoff string) /\
  close_keeps storing (@expo_backoff_limit string) /\
  (exists m,
     backoff_sleeps (trace w')
     = backoff_sleeps (trace w) ++ map delay (seq 1 m) /\
     attempts (trace w') = (attempts (trace w) + m)%nat) /\
  delay 1%nat = 5 /\
  (forall base n,
     expo_backoff (self w) = Some base -> base <> 0 -> (2 <= n)%nat ->
     delay n = Z.min (Z.of_nat n ^ 2 * base) (expo_backoff_limit (self w))) /\
  (expo_backoff (self w) = None \/ expo_backoff (self w) = Some 0 ->
   forall n, delay n = 5).
Proof.
  intros w delay w'.
  assert (H1 : close_keeps storing (@expo_backoff string))
    by (intros b s; reflexivity).
  assert (H2 : close_keeps storing (@expo_backoff_limit string))
    by (intros b s; reflexivity).
  exact (conj H1 (conj H2
          (backoff_delays_any_base unreachable 3 w H1 H2))).
Defined.


(** X11: a stream to create with no shards, on a healthy service. *)
Lemma below_one_shard_never_connects_witness :
  let env := healthy ["s1"] in
  let w := creating ["s1"] None 0 in
  let r := _get_reconn_helper env storing 4 w in
  close_returns storing /\
  close_keeps storing
    (fun b : Base string =>
       (create_stream b, create_stream_shards b, retry_limit b)) /\
  create_stream (self w) = true /\
  create_stream_shards (self w) < 1 /\
  retry_limit (self w) = None /\
  fst r = OutOfFuel /\
  attempts (trace (snd r)) = (attempts (trace w) + 4)%nat /\
  n_create (snd r) = n_create w /\
  n_describe (snd r) = n_describe w.
Proof.
  intros env w r.
  assert (H1 : close_returns storing) by (intros b s; reflexivity).
  assert (H2 : close_keeps storing
                 (fun b : Base string =>
                    (create_stream b, create_stream_shards b, retry_limit b)))
    by (intros b s; reflexivity).
  assert (H3 : create_stream (self w) = true) by reflexivity.
  assert (H4 : create_stream_shards (self w) < 1) by reflexivity.
  assert (H5 : retry_limit (self w) = None) by reflexivity.
  exact (conj H1 (conj H2 (conj H3 (conj H4 (conj H5
          (below_one_shard_never_connects env 4 w H1 H2 H3 H4 H5)))))).
Defined.

(** X12: a new instance, whose shards wait for the first connection. *)
Lemma sync_shards_not_due_witness :
  let env := healthy ["s1"] in
  let w := new None None false 1 in
  shards_status (self w) <> INITIALIZE /\
  shards_status (self w) <> SYNCED /\
  sync_shards env storing w =
  (Return tt,
   mkWorld (self w) (sub w) (S (n_monotonic w)) (n_describe w) (n_create w)
     (n_client w) (trace w)).
Proof.
  intros env w.
  assert (H1 : shards_status (self w) <> INITIALIZE) by discriminate.
  assert (H2 : shards_status (self w) <> SYNCED) by discriminate.
  exact (conj H1 (conj H2
          (sync_shards_not_due env storing w H1 (or_introl H2)))).
Defined.



(** X15: the helper called on its own. *)
Lemma set_shard_sync_state_without_lock_witness :
  let env := healthy ["s1"] in
  let w := unsynced ["s1"] in
  let r := set_shard_sync_state env w in
  _shards_lock (self w) = false /\
  fst r = Raise RuntimeError /\
  shards_status (self (snd r)) = SYNCED /\
  shard_refresh_monotonic (self (snd r)) = monotonic env (n_monotonic w) /\
  trace (snd r) = trace w.
Proof.
  intros env w r.
  assert (H1 : _shards_lock (self w) = false) by reflexivity.
  exact (conj H1 (set_shard_sync_state_without_lock env w H1)).
Defined.

(** X16: a first sync that completes. *)
Lemma sync_shards_returns_unlocked_witness :
  let env := healthy ["s1"; "s2"] in
  let w := unsynced ["s1"] in
  let w' := snd (sync_shards env storing w) in
  _shards_lock (self w) = false /\
  fst (sync_shards env storing w) = Return tt /\
  _shards_lock (self w') = false /\
  (shards_status (self w') = SYNCED \/ self w' = self w).
Proof.
  intros env w w'.
  assert (H1 : _shards_lock (self w) = false) by reflexivity.
  assert (H2 : fst (sync_shards env storing w) = Return tt)
    by (vm_compute; reflexivity).
  exact (conj H1 (conj H2
          (sync_shards_returns_unlocked env storing w H1 H2))).
Defined.

(** X17: an instance in sync with three shards starts again and finds
    two: the next sync reports them to the split handler. *)
Lemma startup_forces_first_sync_witness :
  let fetched := ["s12"; "s3"] in
  let env := healthy fetched in
  let w := connected ["s1"; "s2"; "s3"] None None in
  let w1 := snd (start env 1 w) in
  let r := sync_shards env storing w1 in
  cancellation_reported env /\
  start env 1 w = (Return tt, w1) /\
  _shards_lock (self w) = false /\
  describe_stream env (n_describe w1) = Described "ACTIVE" fetched /\
  handler_calls (trace (snd r))
  = handler_calls (trace w) ++ [EvSplit fetched] /\
  (fst r = Return tt -> shards_status (self (snd r)) = SYNCED).
Proof.
  intros fetched env w w1 r.
  assert (H0 : cancellation_reported env) by (intro k; reflexivity).
  assert (H1 : start env 1 w = (Return tt, w1)) by (vm_compute; reflexivity).
  assert (H2 : _shards_lock (self w) = false) by reflexivity.
  assert (H3 : describe_stream env (n_describe w1)
               = Described "ACTIVE" fetched) by reflexivity.
  exact (conj H0 (conj H1 (conj H2 (conj H3
          (startup_forces_first_sync storing 1 w H0 H1 H2 H3))))).
Defined.

(** X18: the stream has been deleted. *)
Lemma get_stream_description_not_found_witness :
  let w := unsynced ["s1"] in
  client (self w) <> None /\
  describe_stream missing (n_describe w)
  = DescribeRaises (ClientError "ResourceNotFoundException") /\
  fst (get_stream_description missing w) = Raise StreamDoesNotExist.
Proof.
  intro w.
  assert (H1 : client (self w) <> None) by discriminate.
  assert (H2 : describe_stream missing (n_describe w)
               = DescribeRaises (ClientError "ResourceNotFoundException"))
    by reflexivity.
  destruct (get_stream_description_not_found missing w) as (_ & [_ R] & _).
  exact (conj H1 (conj H2 (R (conj H1 (or_introl H2))))).
Defined.

(** X19: the stream exists already. *)
Lemma _create_stream_outcomes_witness :
  let env := service (fun _ => Described "ACTIVE" ["s1"])
               (fun _ => Some (ClientError "ResourceInUseException")) in
  let w := creating ["s1"] None 2 in
  client (self w) = Some 0%nat /\
  fst (_create_stream env true w) = Return tt.
Proof.
  intros env w.
  assert (H1 : client (self w) = Some 0%nat) by reflexivity.
  destruct (_create_stream_outcomes env w H1) as [[_ R] _].
  assert (H2 : 1 <= create_stream_shards (self w)) by (simpl; lia).
  exact (conj H1 (R (conj H2 (or_intror eq_refl)))).
Defined.

(** X20: a first connection that fails once and then succeeds. *)
Lemma get_conn_returns_ACTIVE_witness :
  let env := back_after 1 ["s1"] in
  let w := new None None false 1 in
  cancellation_reported env /\
  stream_status (self w) = INITIALIZE /\
  fst (get_conn env storing 3 w) = Return tt /\
  stream_status (self (snd (get_conn env storing 3 w))) = ACTIVE /\
  _conn_lock (self (snd (get_conn env storing 3 w))) = false.
Proof.
  intros env w.
  assert (H0 : cancellation_reported env) by (intro k; reflexivity).
  assert (H1 : stream_status (self w) = INITIALIZE) by reflexivity.
  assert (H2 : fst (get_conn env storing 3 w) = Return tt)
    by (vm_compute; reflexivity).
  exact (conj H0 (conj H1 (conj H2
          (get_conn_returns_ACTIVE storing 3 w H0 (or_introl H1) H2)))).
Defined.

(** X21: a first sync with the handlers of [Base] itself, which do
    nothing. *)
Lemma sync_shards_frame_witness :
  let env := healthy ["s1"; "s2"] in
  let w := unsynced ["s1"] in
  handlers_keep (Base_methods string unit) connection_view /\
  connection_traffic (snd (sync_shards env (Base_methods string unit) w))
  = connection_traffic w.
Proof.
  intros env w.
  assert (H1 : handlers_keep (Base_methods string unit) connection_view)
    by (intros l b s; split; reflexivity).
  exact (conj H1 (sync_shards_frame env w H1)).
Defined.
